(** * film-fetcher: the multi-source fetch, merge and normalise pipeline

    A shallow embedding of the helpers ([utils/helpers.js]), of the three
    source adapters ([api/omdbApi.js], [api/tmdbApi.js], [api/imdbApi.js])
    and of the orchestrator (the class [MovieFetcher]), followed by the
    properties of the specification that concern them.

    JavaScript values are modelled by the type [JsVal]; objects keep the
    insertion order of their keys; code that can throw returns [Exc];
    code that awaits the network or the clock lives in the state and
    exception monad [M]. *)

From Stdlib Require Import String Ascii List ZArith QArith Qround Bool Lia Lqa.
Import ListNotations.

Set Warnings "-register-all".

Local Open Scope string_scope.
Local Open Scope list_scope.

(* ===================================================================== *)
(** * JavaScript values *)
(* ===================================================================== *)

Module Js.

(** A JavaScript number: [NaN], an infinity, or a finite value. *)
Inductive JsNum : Type :=
| NaN
| Inf (negative : bool)
| Fin (q : Q).

(** The values that a JSON payload or a movie record can hold.  An object
    is the list of its own properties in insertion order. *)
Inductive JsVal : Type :=
| JUndefined
| JNull
| JBool (b : bool)
| JNum (n : JsNum)
| JStr (s : string)
| JArr (l : list JsVal)
| JObj (o : list (string * JsVal)).

Definition Object : Type := list (string * JsVal).

(** What a [throw] carries.  Adapters throw [new Error(msg)], kept with the
    argument [msg] as given; the runtime throws [TypeError]; the HTTP
    client rejects with its own error class. *)
Inductive JsError : Type :=
| Error (message : JsVal)
| TypeError
| AxiosError (code : string) (message : string).

Inductive Exc (A : Type) : Type :=
| Ok (a : A)
| Throw (e : JsError).
Arguments Ok {A} a.
Arguments Throw {A} e.

Definition ebind {A B} (m : Exc A) (f : A -> Exc B) : Exc B :=
  match m with
  | Ok a => f a
  | Throw e => Throw e
  end.

Declare Scope exc_scope.
Delimit Scope exc_scope with exc.
Notation "'let!' x ':=' m 'in' k" := (ebind m (fun x => k))
  (at level 10, x name, m at level 100, k at level 200) : exc_scope.

Fixpoint emapM {A B} (f : A -> Exc B) (l : list A) : Exc (list B) :=
  match l with
  | [] => Ok []
  | x :: xs =>
      ebind (f x) (fun y => ebind (emapM f xs) (fun ys => Ok (y :: ys)))
  end.

Fixpoint efilterM {A} (f : A -> Exc bool) (l : list A) : Exc (list A) :=
  match l with
  | [] => Ok []
  | x :: xs =>
      ebind (f x) (fun b =>
      ebind (efilterM f xs) (fun ys => Ok (if b then x :: ys else ys)))
  end.

(** ** Numbers *)

Definition num_of_Z (z : Z) : JsVal := JNum (Fin (inject_Z z)).

Definition num_truthy (n : JsNum) : bool :=
  match n with
  | NaN => false
  | Inf _ => true
  | Fin q => negb (Qeq_bool q 0)
  end.

(** [ToBoolean]: what [!v], [v || w], [if (v)] and [Boolean(v)] test. *)
Definition truthy (v : JsVal) : bool :=
  match v with
  | JUndefined | JNull => false
  | JBool b => b
  | JNum n => num_truthy n
  | JStr s => negb (s =? "")
  | JArr _ | JObj _ => true
  end.

(** [a || b] *)
Definition or_else (a b : JsVal) : JsVal := if truthy a then a else b.

Definition isArray (v : JsVal) : bool :=
  match v with JArr _ => true | _ => false end.

Definition isNumber (v : JsVal) : bool :=
  match v with JNum _ => true | _ => false end.

(** [Number.isInteger] *)
Definition isInteger (v : JsVal) : bool :=
  match v with
  | JNum (Fin q) => Qeq_bool q (inject_Z (Qfloor q))
  | _ => false
  end.

Definition num_eqb (a b : JsNum) : bool :=
  match a, b with
  | Fin p, Fin q => Qeq_bool p q
  | Inf x, Inf y => Bool.eqb x y
  | _, _ => false
  end.

(** [a === b] on primitives.  Two arrays or two objects are strictly equal
    only when they are the same reference; the model has no references and
    the sources never compare them, so they are reported as different. *)
Definition strict_eq (a b : JsVal) : bool :=
  match a, b with
  | JUndefined, JUndefined => true
  | JNull, JNull => true
  | JBool x, JBool y => Bool.eqb x y
  | JNum x, JNum y => num_eqb x y
  | JStr x, JStr y => (x =? y)
  | _, _ => false
  end.

(** SameValueZero, the comparison of [Array.prototype.includes]: as [===]
    but [NaN] is found. *)
Definition sameValueZero (a b : JsVal) : bool :=
  match a, b with
  | JNum NaN, JNum NaN => true
  | _, _ => strict_eq a b
  end.

(** [arr.includes(x)] *)
Definition arr_includes (arr : list JsVal) (x : JsVal) : bool :=
  existsb (sameValueZero x) arr.

(** ** Objects *)

(** [o[k]] for a key [k] that no prototype defines: the own property, and
    [undefined] when absent.  A read under a key that is not fixed by the
    code goes through [inherited] first. *)
Fixpoint get (o : Object) (k : string) : JsVal :=
  match o with
  | [] => JUndefined
  | (k', v) :: rest => if k' =? k then v else get rest k
  end.

(** [Object.hasOwn(o, k)] *)
Fixpoint has (o : Object) (k : string) : bool :=
  match o with
  | [] => false
  | (k', _) :: rest => (k' =? k) || has rest k
  end.

(** The members of [Object.prototype].  An object literal that has no own
    property of such a name reads a function of the host under it (the
    prototype itself under [__proto__]): a truthy value that is no JSON
    data. *)
Definition prototype_names : list string :=
  ["constructor"; "__proto__"; "hasOwnProperty"; "isPrototypeOf";
   "propertyIsEnumerable"; "toLocaleString"; "toString"; "valueOf";
   "__defineGetter__"; "__defineSetter__"; "__lookupGetter__";
   "__lookupSetter__"].

Definition inherited (k : string) : bool :=
  existsb (String.eqb k) prototype_names.

(** Where the code only tests such a member and passes it on, an empty
    object stands for it. *)
Definition inherited_member : JsVal := JObj [].

(** [o[k] = v]: an existing key keeps its position, a new key goes last. *)
Fixpoint set (o : Object) (k : string) (v : JsVal) : Object :=
  match o with
  | [] => [(k, v)]
  | (k', v') :: rest =>
      if k' =? k then (k, v) :: rest else (k', v') :: set rest k v
  end.

(** [delete o[k]] *)
Fixpoint delete (o : Object) (k : string) : Object :=
  match o with
  | [] => []
  | (k', v') :: rest =>
      if k' =? k then delete rest k else (k', v') :: delete rest k
  end.

(** [Object.keys(o)]: every key once, in the order of first insertion
    (records have no key that reads as an array index, which JavaScript
    would list first). *)
Fixpoint keys (o : Object) : list string :=
  match o with
  | [] => []
  | (k, _) :: rest => k :: filter (fun k' => negb (k =? k')) (keys rest)
  end.

(** [v.k] for a key [k] that no prototype defines ([name], [id], [results],
    ...): a [TypeError] on [null] and [undefined], the own property of an
    object, [undefined] on the other values. *)
Definition getProp (v : JsVal) (k : string) : Exc JsVal :=
  match v with
  | JUndefined | JNull => Throw TypeError
  | JObj o => Ok (get o k)
  | _ => Ok JUndefined
  end.

(** [v?.k] *)
Definition getPropOpt (v : JsVal) (k : string) : JsVal :=
  match v with
  | JObj o => get o k
  | _ => JUndefined
  end.

(** ** Strings

    Strings are sequences of one-byte code units; case mapping and white
    space are those of the ASCII range. *)

Definition is_upper (c : ascii) : bool :=
  let n := nat_of_ascii c in (65 <=? n)%nat && (n <=? 90)%nat.

Definition is_lower (c : ascii) : bool :=
  let n := nat_of_ascii c in (97 <=? n)%nat && (n <=? 122)%nat.

Definition lower_char (c : ascii) : ascii :=
  if is_upper c then ascii_of_nat (nat_of_ascii c + 32) else c.

Definition upper_char (c : ascii) : ascii :=
  if is_lower c then ascii_of_nat (nat_of_ascii c - 32) else c.

Fixpoint map_string (f : ascii -> ascii) (s : string) : string :=
  match s with
  | EmptyString => EmptyString
  | String c r => String (f c) (map_string f r)
  end.

Definition toLowerCase (s : string) : string := map_string lower_char s.
Definition toUpperCase (s : string) : string := map_string upper_char s.

(** [s.includes(sub)] *)
Fixpoint includes (s sub : string) : bool :=
  String.prefix sub s ||
  match s with
  | EmptyString => false
  | String _ r => includes r sub
  end.

(** [s.startsWith(p)] *)
Definition startsWith (s p : string) : bool := String.prefix p s.

(** Tab, line feed, vertical tab, form feed, carriage return, space. *)
Definition is_space (c : ascii) : bool :=
  let n := nat_of_ascii c in
  ((9 <=? n)%nat && (n <=? 13)%nat) || (n =? 32)%nat.

Fixpoint trimStart (s : string) : string :=
  match s with
  | EmptyString => EmptyString
  | String c r => if is_space c then trimStart r else s
  end.

Fixpoint trimEnd (s : string) : string :=
  match s with
  | EmptyString => EmptyString
  | String c r =>
      match trimEnd r with
      | EmptyString => if is_space c then EmptyString else String c EmptyString
      | r' => String c r'
      end
  end.

(** [s.trim()] *)
Definition trim (s : string) : string := trimEnd (trimStart s).

(** [v.toLowerCase()]: only strings have the method. *)
Definition call_toLowerCase (v : JsVal) : Exc string :=
  match v with
  | JStr s => Ok (toLowerCase s)
  | JUndefined | JNull | JBool _ | JNum _ | JArr _ | JObj _ => Throw TypeError
  end.

Definition call_toUpperCase (v : JsVal) : Exc string :=
  match v with
  | JStr s => Ok (toUpperCase s)
  | JUndefined | JNull | JBool _ | JNum _ | JArr _ | JObj _ => Throw TypeError
  end.

(** ** Conversions

    Turning an object into a string or a number calls its [toString]
    method.  The objects at hand are JSON data: they inherit a [toString]
    that returns, unless an own property [toString] hides it; that
    property is no function, and the conversion throws a [TypeError].
    An array converts its elements in turn.  Template literals,
    [String], [join], [parseInt], [parseFloat], [new Date], [new Error],
    the arithmetic operators and the comparisons all convert this way. *)
Fixpoint converts (v : JsVal) : bool :=
  match v with
  | JArr l => forallb converts l
  | JObj o => negb (existsb (fun p => fst p =? "toString") o)
  | _ => true
  end.

Definition convert (v : JsVal) : Exc unit :=
  if converts v then Ok tt else Throw TypeError.

(** What [parseInt] returns: [NaN], an integer, or an infinity when the
    digits read exceed the range of a number. *)
Inductive Parsed : Type :=
| NotANumber
| Integer (z : Z)
| Infinite (negative : bool).

(** ** The built-ins that are not modelled

    [Date] depends on the time zone and the number conversions on the
    grammar of numeric literals; they are taken from the host.  Each
    field gives what the built-in returns when the conversion of its
    argument returns; whether it does is [converts]. *)
Record Runtime : Type := {
  (** time value of [new Date(y, m - 1, d)]; [None] is an invalid date *)
  Date_local : JsVal -> JsVal -> JsVal -> option Z;
  (** time value of [new Date(v)] *)
  Date_parse : JsVal -> option Z;
  (** [getFullYear()], [getMonth()] and [getDate()] of a valid date *)
  Date_fields : Z -> Z * Z * Z;
  (** [parseInt(v)] *)
  parseInt : JsVal -> Parsed;
  (** [parseFloat(v)] *)
  parseFloat : JsVal -> JsNum;
  (** [String(v)] of a value that is not a string *)
  ToString : JsVal -> string;
  (** [Number(v)] of a string, an array or an object *)
  ToNumber : JsVal -> JsNum
}.

Definition to_str (rt : Runtime) (v : JsVal) : string :=
  match v with
  | JStr s => s
  | _ => ToString rt v
  end.

Definition to_num (rt : Runtime) (v : JsVal) : JsNum :=
  match v with
  | JUndefined => NaN
  | JNull => Fin 0
  | JBool b => Fin (if b then 1 else 0)
  | JNum n => n
  | JStr _ | JArr _ | JObj _ => ToNumber rt v
  end.

(** [a < b] on numbers: false as soon as one is [NaN]. *)
Definition num_lt (a b : JsNum) : bool :=
  match a, b with
  | NaN, _ | _, NaN => false
  | Inf true, Inf true => false
  | Inf true, _ => true
  | _, Inf true => false
  | Inf false, _ => false
  | Fin _, Inf false => true
  | Fin p, Fin q => negb (Qle_bool q p)
  end.

(** [a >= b] on numbers *)
Definition num_ge (a b : JsNum) : bool :=
  match a, b with
  | NaN, _ | _, NaN => false
  | _, _ => negb (num_lt a b)
  end.

Definition parseInt_num (rt : Runtime) (v : JsVal) : JsNum :=
  match parseInt rt v with
  | Integer z => Fin (inject_Z z)
  | Infinite negative => Inf negative
  | NotANumber => NaN
  end.

Definition gt_num (rt : Runtime) (v : JsVal) (bound : Z) : bool :=
  num_lt (Fin (inject_Z bound)) (to_num rt v).

(** [v > bound] *)
Definition gt (rt : Runtime) (v : JsVal) (bound : Z) : Exc bool :=
  (let! _ := convert v in Ok (gt_num rt v bound))%exc.

(** [v < bound] *)
Definition lt (rt : Runtime) (v : JsVal) (bound : Z) : Exc bool :=
  (let! _ := convert v in Ok (num_lt (to_num rt v) (Fin (inject_Z bound))))%exc.

(** [`${prefix}${v}`] *)
Definition template (rt : Runtime) (prefix : string) (v : JsVal)
  : Exc string :=
  (let! _ := convert v in Ok (prefix ++ to_str rt v)%string)%exc.

(** [v.length] *)
Definition length_of (v : JsVal) : JsVal :=
  match v with
  | JArr l => num_of_Z (Z.of_nat (List.length l))
  | JStr s => num_of_Z (Z.of_nat (String.length s))
  | JObj o => get o "length"
  | _ => JUndefined
  end.

(** [v[0]] of a value that is neither [null] nor [undefined] *)
Definition first_of (v : JsVal) : JsVal :=
  match v with
  | JArr l => hd JUndefined l
  | JStr (String c _) => JStr (String c EmptyString)
  | JObj o => get o "0"
  | _ => JUndefined
  end.

(** [arr.map(f)]: only arrays have the method. *)
Definition arr_map (f : JsVal -> Exc JsVal) (v : JsVal) : Exc (list JsVal) :=
  match v with
  | JArr l => emapM f l
  | _ => Throw TypeError
  end.

(** [arr.filter(f)] *)
Definition arr_filter (f : JsVal -> Exc bool) (v : JsVal) : Exc (list JsVal) :=
  match v with
  | JArr l => efilterM f l
  | _ => Throw TypeError
  end.

(** The text of [arr.join(sep)]: [null] and [undefined] print as the
    empty string. *)
Fixpoint join_text (rt : Runtime) (sep : string) (l : list JsVal) : string :=
  let show v :=
    match v with
    | JUndefined | JNull => ""
    | _ => to_str rt v
    end in
  match l with
  | [] => ""
  | [v] => show v
  | v :: rest => (show v ++ sep ++ join_text rt sep rest)%string
  end.

(** [arr.join(sep)] *)
Definition join (rt : Runtime) (sep : string) (l : list JsVal) : Exc string :=
  (let! _ := convert (JArr l) in Ok (join_text rt sep l))%exc.

(** A parameter with a default value: [undefined] takes the default. *)
Definition default (v d : JsVal) : JsVal :=
  match v with JUndefined => d | _ => v end.

(** [{ ...base, ...extra }] *)
Definition spread (base extra : Object) : Object :=
  fold_left (fun o k => set o k (get extra k)) (keys extra) base.

End Js.
Export Js.

(* ===================================================================== *)
(** * utils/helpers.js *)
(* ===================================================================== *)

Module Helpers.

(** ** The filter predicate *)

Definition countryMapping : list (string * list string) :=
  [ ("pl", ["poland"; "polska"; "polish"]);
    ("us", ["united states"; "usa"; "america"; "united states of america"]);
    ("gb", ["united kingdom"; "uk"; "great britain"; "britain"]);
    ("de", ["germany"; "deutschland"; "german"]);
    ("fr", ["france"; "french"]);
    ("it", ["italy"; "italia"; "italian"]);
    ("es", ["spain"; "espa√±a"; "spanish"]);
    ("jp", ["japan"; "japanese"]);
    ("kr", ["south korea"; "korea"; "korean"]);
    ("cn", ["china"; "chinese"]);
    ("in", ["india"; "indian"]);
    ("ca", ["canada"; "canadian"]);
    ("au", ["australia"; "australian"]);
    ("br", ["brazil"; "brazilian"]);
    ("mx", ["mexico"; "mexican"]);
    ("ar", ["argentina"; "argentinian"]);
    ("ru", ["russia"; "russian"]);
    ("se", ["sweden"; "swedish"]);
    ("no", ["norway"; "norwegian"]);
    ("dk", ["denmark"; "danish"]);
    ("fi", ["finland"; "finnish"]);
    ("nl", ["netherlands"; "dutch"]);
    ("be", ["belgium"; "belgian"]);
    ("ch", ["switzerland"; "swiss"]);
    ("at", ["austria"; "austrian"]) ].

(** What [countryMapping[k]] evaluates to. *)
Inductive MappingEntry : Type :=
| Variants (l : list string)   (* an own key of the table *)
| Inherited                    (* a member of [Object.prototype] *)
| Unmapped.                    (* [undefined] *)

Fixpoint assoc_variants (t : list (string * list string)) (k : string)
  : option (list string) :=
  match t with
  | [] => None
  | (k', l) :: rest => if k' =? k then Some l else assoc_variants rest k
  end.

(** The lower-case names that an object literal inherits. *)
Definition inherited_lower (k : string) : bool :=
  (k =? "constructor") || (k =? "__proto__").

Definition countryMapping_get (k : string) : MappingEntry :=
  match assoc_variants countryMapping k with
  | Some l => Variants l
  | None => if inherited_lower k then Inherited else Unmapped
  end.

(** The outcome of one block of a function body: it either returned a
    value or fell through to the statement after it. *)
Inductive Flow (A : Type) : Type :=
| Return (a : A)
| Next.
Arguments Return {A} a.
Arguments Next {A}.

Section MatchesFilters.

Variable rt : Runtime.

(** [a < b] on two dates: false as soon as one is invalid. *)
Definition date_lt (a b : option Z) : bool :=
  match a, b with
  | Some x, Some y => (x <? y)%Z
  | _, _ => false
  end.

(** [new Date(y, m - 1, d)] *)
Definition new_Date_local (y m d : JsVal) : Exc (option Z) :=
  (let! _ := convert m in
   let! _ := convert y in
   let! _ := convert d in
   Ok (Date_local rt y m d))%exc.

(** [new Date(v)] *)
Definition new_Date (v : JsVal) : Exc (option Z) :=
  (let! _ := convert v in Ok (Date_parse rt v))%exc.

Definition date_block (movie filters : Object) : Exc (Flow bool) :=
  let startDate := get filters "startDate" in
  let endDate := get filters "endDate" in
  if truthy (or_else startDate endDate) then
    (let! movieDate :=
       new_Date_local (get movie "release_year")
                      (or_else (get movie "release_month") (num_of_Z 1))
                      (or_else (get movie "release_day") (num_of_Z 1)) in
     let! early :=
       if truthy startDate
       then (let! start := new_Date startDate in Ok (date_lt movieDate start))
       else Ok false in
     if early then Ok (Return false)
     else
       let! late :=
         if truthy endDate
         then (let! end_ := new_Date endDate in Ok (date_lt end_ movieDate))
         else Ok false in
       if late then Ok (Return false) else Ok Next)%exc
  else Ok Next.

Definition country_block (movie filters : Object) : Exc (Flow bool) :=
  if truthy (get filters "country") then
    (let! movieCountries :=
       if truthy (get movie "country")
       then call_toLowerCase (get movie "country") else Ok "" in
     let! filterCountry := call_toLowerCase (get filters "country") in
     if includes movieCountries filterCountry then Ok (Return true)
     else
       match countryMapping_get filterCountry with
       | Variants countryVariants =>
           let hasMatch :=
             existsb (fun variant => includes movieCountries variant)
                     countryVariants in
           if negb hasMatch then Ok (Return false) else Ok Next
       | Inherited => Throw TypeError
       | Unmapped =>
           if negb (includes movieCountries filterCountry)
           then Ok (Return false) else Ok Next
       end)%exc
  else Ok Next.

Definition genre_block (movie filters : Object) : Exc (Flow bool) :=
  if truthy (get filters "genre") then
    (let! movieGenres :=
       if truthy (get movie "genre")
       then call_toLowerCase (get movie "genre") else Ok "" in
     let! filterGenre := call_toLowerCase (get filters "genre") in
     if negb (includes movieGenres filterGenre)
     then Ok (Return false) else Ok Next)%exc
  else Ok Next.

Definition matchesFilters (movie filters : Object) : Exc bool :=
  (let! d := date_block movie filters in
   match d with
   | Return b => Ok b
   | Next =>
       let! c := country_block movie filters in
       match c with
       | Return b => Ok b
       | Next =>
           let! g := genre_block movie filters in
           match g with
           | Return b => Ok b
           | Next => Ok true
           end
       end
   end)%exc.

End MatchesFilters.

(** ** Merging the records of one movie *)

(** [v !== null && v !== undefined && v !== ''] *)
Definition present (v : JsVal) : bool :=
  negb (strict_eq v JNull) && negb (strict_eq v JUndefined)
  && negb (strict_eq v (JStr "")).

Definition items (v : JsVal) : list JsVal :=
  match v with JArr l => l | _ => [] end.

(** [actor => actor.name] *)
Definition actor_name (actor : JsVal) : Exc JsVal := getProp actor "name".

(** The body of the [forEach] over the keys of [current].  For a key
    that [merged] does not have and [Object.prototype] does, [merged[key]]
    is the inherited member: it is no array, it is truthy, and the record
    stays as it is. *)
Definition mergeKey (current merged : Object) (key : string) : Exc Object :=
  let c := get current key in
  let m := get merged key in
  if present c then
    if negb (has merged key) && inherited key then Ok merged
    else if (key =? "cast") && isArray c && isArray m then
      (let! existingNames := emapM actor_name (items m) in
       let! newActors :=
         efilterM (fun actor =>
                     let! n := actor_name actor in
                     Ok (negb (arr_includes existingNames n)))
                  (items c) in
       Ok (set merged key (JArr (items m ++ newActors))))%exc
    else if (key =? "other_titles") && isArray c && isArray m then
      Ok (set merged key (JArr (items m ++ items c)))
    else if negb (truthy m) || strict_eq m JNull || strict_eq m (JStr "") then
      Ok (set merged key c)
    else Ok merged
  else Ok merged.

Fixpoint efold {A B} (f : A -> B -> Exc A) (l : list B) (a : A) : Exc A :=
  match l with
  | [] => Ok a
  | x :: xs => ebind (f a x) (efold f xs)
  end.

(** One turn of the [for] loop: merge the record [current] into [merged]. *)
Definition mergeInto (merged current : Object) : Exc Object :=
  efold (mergeKey current) (keys current) merged.

(** [movieDataArray.map(data => data.source).filter(Boolean)] *)
Definition sources_of (movieDataArray : list Object) : list JsVal :=
  filter truthy (map (fun data => get data "source") movieDataArray).

(** [mergeMovieData]; the argument [None] is a missing array and the
    result [None] is [null]. *)
Definition mergeMovieData (movieDataArray : option (list Object))
  : Exc (option Object) :=
  match movieDataArray with
  | None | Some [] => Ok None
  | Some ((first :: rest) as all) =>
      (let! merged := efold mergeInto rest first in
       Ok (Some (set merged "sources" (JArr (sources_of all)))))%exc
  end.

(** ** Cleaning a record *)

Section CleanMovieData.

Variable rt : Runtime.

Definition parseInt_val (v : JsVal) : JsVal := JNum (parseInt_num rt v).

Definition parseFloat_val (v : JsVal) : JsVal := JNum (parseFloat rt v).

(** [if (cleaned.f) cleaned.f = conv(cleaned.f)] *)
Definition retype (conv : JsVal -> JsVal) (cleaned : Object) (f : string)
  : Object :=
  if truthy (get cleaned f) then set cleaned f (conv (get cleaned f))
  else cleaned.

Definition clean_is_color (cleaned : Object) : Object :=
  let v := get cleaned "is_color" in
  if negb (strict_eq v JNull) && negb (strict_eq v JUndefined)
  then set cleaned "is_color" (JBool (truthy v))
  else cleaned.

Definition string_fields : list string :=
  ["title"; "original_title"; "country"; "description"; "genre";
   "distribution"; "studio"; "based_on"].

Definition clean_string (cleaned : Object) (field : string) : Object :=
  match get cleaned field with
  | JStr s => if truthy (JStr s) then set cleaned field (JStr (trim s))
              else cleaned
  | _ => cleaned
  end.

Definition ensure_array (cleaned : Object) (f : string) : Object :=
  if negb (isArray (get cleaned f)) then set cleaned f (JArr [])
  else cleaned.

Definition clean_record (movie : Object) : Object :=
  let cleaned := movie in
  let cleaned := retype parseInt_val cleaned "release_year" in
  let cleaned := retype parseInt_val cleaned "release_month" in
  let cleaned := retype parseInt_val cleaned "release_day" in
  let cleaned := retype parseInt_val cleaned "runtime_min" in
  let cleaned := retype parseFloat_val cleaned "budget" in
  let cleaned := retype parseFloat_val cleaned "gross_worldwide_boxoffice" in
  let cleaned := clean_is_color cleaned in
  let cleaned := fold_left clean_string string_fields cleaned in
  let cleaned := ensure_array cleaned "cast" in
  let cleaned := ensure_array cleaned "other_titles" in
  cleaned.

Definition numeric_fields : list string :=
  ["release_year"; "release_month"; "release_day"; "runtime_min";
   "budget"; "gross_worldwide_boxoffice"].

(** [parseInt] and [parseFloat] convert the field that they read: the
    call throws on a truthy field that does not convert. *)
Definition parses (movie : Object) : bool :=
  forallb (fun f => negb (truthy (get movie f)) || converts (get movie f))
          numeric_fields.

(** [cleanMovieData]; [None] is [null]. *)
Definition cleanMovieData (movie : option Object) : Exc (option Object) :=
  match movie with
  | None => Ok None
  | Some movie =>
      if parses movie then Ok (Some (clean_record movie)) else Throw TypeError
  end.

End CleanMovieData.

(** ** Normalising a genre *)

(** [normalizeGenre]: the empty string for a falsy genre. *)
Definition normalizeGenre (genre : JsVal) : Exc string :=
  if negb (truthy genre) then Ok ""
  else (let! lower := call_toLowerCase genre in Ok (trim lower))%exc.

End Helpers.
Export Helpers.

(* ===================================================================== *)
(** * Asynchronous code: state and exceptions *)
(* ===================================================================== *)

Module Async.

(** An [async] function over a mutable state [S].  A [throw] keeps the
    mutations made before it. *)
Definition M (S A : Type) : Type := S -> S * Exc A.

Section Monad.
Context {S : Type}.

Definition ret {A} (a : A) : M S A := fun s => (s, Ok a).

Definition throw {A} (e : JsError) : M S A := fun s => (s, Throw e).

Definition bind {A B} (m : M S A) (f : A -> M S B) : M S B :=
  fun s =>
    match m s with
    | (s', Ok a) => f a s'
    | (s', Throw e) => (s', Throw e)
    end.

(** [try { m } catch (e) { h e }] *)
Definition try_catch {A} (m : M S A) (h : JsError -> M S A) : M S A :=
  fun s =>
    match m s with
    | (s', Ok a) => (s', Ok a)
    | (s', Throw e) => h e s'
    end.

(** A synchronous computation inside an [async] function. *)
Definition lift {A} (x : Exc A) : M S A := fun s => (s, x).

Definition gets {A} (f : S -> A) : M S A := fun s => (s, Ok (f s)).

Definition modify (f : S -> S) : M S unit := fun s => (f s, Ok tt).

(** [if (c) { m }] *)
Definition when (c : bool) (m : M S unit) : M S unit :=
  if c then m else ret tt.

End Monad.

(** Run a computation on a component [S] of a larger state [T]. *)
Definition zoom {S T A} (view : T -> S) (update : S -> T -> T) (m : M S A)
  : M T A :=
  fun t => let '(s', r) := m (view t) in (update s' t, r).

Declare Scope async_scope.
Delimit Scope async_scope with async.
Notation "x <- m ;; k" := (bind m (fun x => k))
  (at level 61, m at next level, right associativity) : async_scope.
Notation "m ;; k" := (bind m (fun _ => k))
  (at level 61, right associativity) : async_scope.

(** What [await axios.get(url, config)] gives: the [data] of a 2xx
    response, or the rejection of the client (no connection, time-out,
    status outside 2xx). *)
Inductive HttpResult : Type :=
| Response (data : JsVal)
| Rejected (code message : string).

(** The world outside the process: its clock, its timers and the remote
    servers. *)
Record Network (E : Type) : Type := {
  (** [Date.now()] *)
  clock : E -> Q;
  (** the world after [await new Promise(r => setTimeout(r, ms))] *)
  timer : Q -> E -> E;
  (** [await axios.get(url, config)] *)
  axios_get : string -> Object -> E -> E * HttpResult
}.
Arguments clock {E} _ _.
Arguments timer {E} _ _ _.
Arguments axios_get {E} _ _ _ _.

End Async.
Export Async.

Local Open Scope async_scope.

(* ===================================================================== *)
(** * What the three adapter classes share *)
(* ===================================================================== *)

Module Adapter.

(** The fields of an adapter instance. *)
Record Adapter : Type := mkAdapter {
  apiKey : JsVal;
  baseUrl : string;
  rateLimitDelay : Q;
  lastRequestTime : Q
}.

Definition set_lastRequestTime (this : Adapter) (t : Q) : Adapter :=
  mkAdapter (apiKey this) (baseUrl this) (rateLimitDelay this) t.

(** [1000 / rateLimitPerSecond], for a positive rate. *)
Definition delay_of (rateLimitPerSecond : Q) : Q := 1000 / rateLimitPerSecond.

Definition Qlt_bool (a b : Q) : bool := negb (Qle_bool b a).

Section Requests.
Context {E : Type}.
Variable net : Network E.

(** The world after [await sleep(ms)], with [sleep] of helpers.js. *)
Definition sleep (ms : Q) (e : E) : E := timer net ms e.

(** The opening lines of every [rateLimitedRequest]:
<<
    const now = Date.now();
    const timeSinceLastRequest = now - this.lastRequestTime;
    if (timeSinceLastRequest < this.rateLimitDelay) {
      await sleep(this.rateLimitDelay - timeSinceLastRequest);
    }
    this.lastRequestTime = Date.now();
>> *)
Definition throttle : M (Adapter * E) unit :=
  fun '(this, e) =>
    let now := clock net e in
    let timeSinceLastRequest := now - lastRequestTime this in
    let e' :=
      if Qlt_bool timeSinceLastRequest (rateLimitDelay this)
      then sleep (rateLimitDelay this - timeSinceLastRequest) e
      else e in
    ((set_lastRequestTime this (clock net e'), e'), Ok tt).

(** [await axios.get(url, config)], giving [response.data] *)
Definition http_get (url : string) (config : Object) : M (Adapter * E) JsVal :=
  fun '(this, e) =>
    match axios_get net url config e with
    | (e', Response data) => ((this, e'), Ok data)
    | (e', Rejected code message) =>
        ((this, e'), Throw (AxiosError code message))
    end.

Definition this_apiKey : M (Adapter * E) JsVal :=
  gets (fun s => apiKey (fst s)).

Definition this_baseUrl : M (Adapter * E) string :=
  gets (fun s => baseUrl (fst s)).

End Requests.

End Adapter.
Export Adapter.

(* ===================================================================== *)
(** * api/omdbApi.js *)
(* ===================================================================== *)

Module OMDBApi.

(** [new OMDBApi(apiKey, rateLimitPerSecond = 10)] *)
Definition new (apiKey : JsVal) (rateLimitPerSecond : option Q) : Adapter :=
  mkAdapter apiKey "http://www.omdbapi.com/"
            (delay_of (match rateLimitPerSecond with Some r => r | None => 10 end))
            0.

Definition key_required : string :=
  "OMDB API key is required. Get one at: https://www.omdbapi.com/apikey.aspx".

Section Methods.
Context {E : Type}.
Variable rt : Runtime.
Variable net : Network E.

Definition rateLimitedRequest (params : Object) : M (Adapter * E) JsVal :=
  throttle net ;;
  try_catch
    (apiKey <- this_apiKey ;;
     (if negb (truthy apiKey) then throw (Error (JStr key_required))
      else ret tt) ;;
     let requestParams :=
       spread [("apikey", apiKey); ("r", JStr "json"); ("v", JStr "1")]
              params in
     url <- this_baseUrl ;;
     data <- http_get net url
               [("params", JObj requestParams);
                ("timeout", num_of_Z 15000);
                ("headers",
                 JObj [("User-Agent", JStr "filmweb-fetcher/1.0.0")])] ;;
     response <- lift (getProp data "Response") ;;
     if strict_eq response (JStr "False") then
       let errorMsg :=
         or_else (getPropOpt data "Error") (JStr "Unknown OMDB API Error") in
       lift (convert errorMsg) ;;
       throw (Error errorMsg)
     else ret data)
    (fun error => throw error).

(** [imdbId.replace(/^tt/, '')] *)
Definition strip_tt (s : string) : string :=
  match s with
  | String "t" (String "t" r) => r
  | _ => s
  end.

Definition getMovieDetails (imdbId : JsVal) : M (Adapter * E) JsVal :=
  match imdbId with
  | JStr s =>
      if negb (truthy imdbId)
      then throw (Error (JStr "Valid IMDb ID is required"))
      else
        let cleanId := strip_tt s in
        let formattedId := ("tt" ++ cleanId)%string in
        rateLimitedRequest [("i", JStr formattedId); ("plot", JStr "full")]
  | _ => throw (Error (JStr "Valid IMDb ID is required"))
  end.

(** [if (year) { params.y = parseInt(year); }] *)
Definition with_year (params : Object) (year : JsVal) : Exc Object :=
  if truthy year
  then (let! _ := convert year in
        Ok (set params "y" (JNum (parseInt_num rt year))))%exc
  else Ok params.

Definition getMovieByTitle (title year : JsVal) : M (Adapter * E) JsVal :=
  match title with
  | JStr s =>
      if negb (truthy title)
         || (Z.of_nat (String.length (trim s)) =? 0)%Z
      then throw (Error (JStr "Valid movie title is required"))
      else
        let params := [("t", JStr (trim s)); ("plot", JStr "full")] in
        params <- lift (with_year params year) ;;
        rateLimitedRequest params
  | _ => throw (Error (JStr "Valid movie title is required"))
  end.

(** ** normalizeMovieData *)

Definition is_NA (v : JsVal) : bool := strict_eq v (JStr "N/A").

(** [v !== 'N/A' ? v : null] *)
Definition unless_NA (v : JsVal) : JsVal := if is_NA v then JNull else v.

(** The [catch] of the source answers a [new Date] that throws. *)
Definition parseReleaseDate (dateStr : JsVal) : JsVal * JsVal * JsVal :=
  if negb (truthy dateStr) || is_NA dateStr then (JNull, JNull, JNull)
  else if negb (converts dateStr) then (JNull, JNull, JNull)
  else
    match Date_parse rt dateStr with
    | None => (JNull, JNull, JNull)
    | Some t =>
        let '(y, m, d) := Date_fields rt t in
        (num_of_Z y, num_of_Z (m + 1), num_of_Z d)
    end.

Fixpoint remove_chars (drop : ascii -> bool) (s : string) : string :=
  match s with
  | EmptyString => EmptyString
  | String c r =>
      if drop c then remove_chars drop r else String c (remove_chars drop r)
  end.

Definition is_comma_or_dollar (c : ascii) : bool :=
  (nat_of_ascii c =? 44)%nat || (nat_of_ascii c =? 36)%nat.

Definition is_comma (c : ascii) : bool := (nat_of_ascii c =? 44)%nat.

Definition is_digit (c : ascii) : bool :=
  let n := nat_of_ascii c in (48 <=? n)%nat && (n <=? 57)%nat.

Definition isNaN (n : JsNum) : bool :=
  match n with NaN => true | _ => false end.

(** The [catch] of the source answers a [value.toString()] that throws. *)
Definition parseNumeric (value : JsVal) (isFloat : bool) : JsVal :=
  if negb (truthy value) || is_NA value then JNull
  else if negb (converts value) then JNull
  else
    let cleaned := remove_chars is_comma_or_dollar (to_str rt value) in
    let parsed :=
      if isFloat then parseFloat rt (JStr cleaned)
      else parseInt_num rt (JStr cleaned) in
    if isNaN parsed then JNull else JNum parsed.

(** [s.split(', ')] *)
Fixpoint split_comma_space (s cur : string) : list string :=
  match s with
  | EmptyString => [cur]
  | String "," (String " " r) => cur :: split_comma_space r EmptyString
  | String c r => split_comma_space r (cur ++ String c EmptyString)%string
  end.

Definition parse_cast (actors : JsVal) : Exc (list JsVal) :=
  if truthy actors && negb (is_NA actors) then
    match actors with
    | JStr s =>
        let mapped :=
          map (fun actor => (trim actor, JObj [("name", JStr (trim actor));
                                               ("role", JNull)]))
              (split_comma_space s EmptyString) in
        Ok (map snd
              (filter (fun a => (0 <? String.length (fst a))%nat) mapped))
    | _ => Throw TypeError
    end
  else Ok [].

Definition parse_runtime (runtime : JsVal) : Exc JsVal :=
  if truthy runtime then
    match runtime with
    | JStr s => Ok (parseNumeric (JStr (remove_chars (fun c => negb (is_digit c)) s)) false)
    | _ => Throw TypeError
    end
  else Ok JNull.

(** [omdbData.imdbVotes?.replace(/,/g, '')] *)
Definition votes_without_commas (votes : JsVal) : Exc JsVal :=
  match votes with
  | JUndefined | JNull => Ok JUndefined
  | JStr s => Ok (JStr (remove_chars is_comma s))
  | _ => Throw TypeError
  end.

Definition normalizeMovieData (omdbData : JsVal) : Exc (option Object) :=
  if negb (truthy omdbData)
     || strict_eq (getPropOpt omdbData "Response") (JStr "False")
  then Ok None
  else
    let f := getPropOpt omdbData in
    let '(year, month, day) := parseReleaseDate (f "Released") in
    (let! runtime := parse_runtime (f "Runtime") in
     let budget := parseNumeric (f "Budget") true in
     let boxOffice := parseNumeric (f "BoxOffice") true in
     let! cast := parse_cast (f "Actors") in
     let imdbRating := parseNumeric (f "imdbRating") true in
     let metascore := parseNumeric (f "Metascore") false in
     let isColor :=
       if strict_eq (f "Type") (JStr "movie") && truthy year
          && gt_num rt year 1950
       then JBool true else JNull in
     let! votes := votes_without_commas (f "imdbVotes") in
     Ok (Some
       [("title", or_else (f "Title") JNull);
        ("original_title", or_else (f "Title") JNull);
        ("release_year", year);
        ("release_month", month);
        ("release_day", day);
        ("country", unless_NA (f "Country"));
        ("description", unless_NA (f "Plot"));
        ("cast", JArr cast);
        ("genre", unless_NA (f "Genre"));
        ("runtime_min", runtime);
        ("is_color", isColor);
        ("gross_worldwide_boxoffice", boxOffice);
        ("budget", budget);
        ("distribution", JNull);
        ("studio", unless_NA (f "Production"));
        ("based_on", JNull);
        ("other_titles", JArr []);
        ("imdb_id", or_else (f "imdbID") JNull);
        ("imdb_rating", imdbRating);
        ("imdb_vote_count", parseNumeric votes false);
        ("metascore", metascore);
        ("director", unless_NA (f "Director"));
        ("writer", unless_NA (f "Writer"));
        ("awards", unless_NA (f "Awards"));
        ("poster_url", unless_NA (f "Poster"));
        ("language", unless_NA (f "Language"));
        ("rated", unless_NA (f "Rated"));
        ("dvd_release", unless_NA (f "DVD"));
        ("website", unless_NA (f "Website"));
        ("source", JStr "OMDB")]))%exc.

(** ** The other lookups *)

(** [Math.max(1, Math.min(100, parseInt(page) || 1))] *)
Definition valid_page (page : JsVal) : Exc Z :=
  (let! _ := convert page in
   let parsed :=
     match parseInt rt page with
     | Integer z => if (z =? 0)%Z then 1%Z else z
     | Infinite negative => if negative then 1%Z else 100%Z
     | NotANumber => 1%Z
     end in
   Ok (Z.max 1 (Z.min 100 parsed)))%exc.

(** [searchMovies(title, year = null, type = 'movie', page = 1)];
    [title.trim()] throws on a title that is not a string. *)
Definition searchMovies (title year type page : JsVal)
  : M (Adapter * E) JsVal :=
  let year := default year JNull in
  let type := default type (JStr "movie") in
  let page := default page (num_of_Z 1) in
  validPage <- lift (valid_page page) ;;
  match title with
  | JStr s =>
      let params :=
        [("s", JStr (trim s)); ("type", type); ("page", num_of_Z validPage)] in
      params <- lift (with_year params year) ;;
      rateLimitedRequest params
  | _ => throw TypeError
  end.






End Methods.

End OMDBApi.

(* ===================================================================== *)
(** * api/tmdbApi.js *)
(* ===================================================================== *)

Module TMDBApi.

(** [new TMDBApi(apiKey, rateLimitPerSecond = 40)]; the source annotates
    the default with "TMDB allows 40 requests per 10 seconds". *)
Definition new (apiKey : JsVal) (rateLimitPerSecond : option Q) : Adapter :=
  mkAdapter apiKey "https://api.themoviedb.org/3"
            (delay_of (match rateLimitPerSecond with Some r => r | None => 40 end))
            0.

Definition details_appendix : string :=
  "credits,keywords,release_dates,alternative_titles,videos,images,reviews,similar,recommendations,watch/providers,external_ids".

Section Methods.
Context {E : Type}.
Variable rt : Runtime.
Variable net : Network E.

Definition rateLimitedRequest (endpoint : string) (params : Object)
  : M (Adapter * E) JsVal :=
  throttle net ;;
  try_catch
    (url <- this_baseUrl ;;
     apiKey <- this_apiKey ;;
     http_get net (url ++ endpoint)%string
       [("params",
         JObj (spread [("api_key", apiKey); ("language", JStr "en-US")]
                      params));
        ("timeout", num_of_Z 10000)])
    (fun error => throw error).

(** [searchMovies(query, year = null, page = 1)] *)
Definition searchMovies (query year page : JsVal) : M (Adapter * E) JsVal :=
  let year := default year JNull in
  let page := default page (num_of_Z 1) in
  let params :=
    [("query", query); ("page", page); ("include_adult", JBool false)] in
  let params := if truthy year then set params "year" year else params in
  rateLimitedRequest "/search/movie" params.

(** The template literal is an argument of the call: when it throws, no
    request is made. *)
Definition getMovieDetails (movieId : JsVal) : M (Adapter * E) JsVal :=
  endpoint <- lift (template rt "/movie/" movieId) ;;
  rateLimitedRequest endpoint
                     [("append_to_response", JStr details_appendix)].

(** [if (filters.k) params[k'] = filters.k] *)
Definition copy_if (filters : Object) (k k' : string) (params : Object)
  : Object :=
  if truthy (get filters k) then set params k' (get filters k) else params.

Definition discoverMovies (filters : Object) : M (Adapter * E) JsVal :=
  let params :=
    [("sort_by", JStr "popularity.desc");
     ("include_adult", JBool false);
     ("include_video", JBool false);
     ("page", or_else (get filters "page") (num_of_Z 1))] in
  let params := copy_if filters "release_date_gte" "release_date.gte" params in
  let params := copy_if filters "release_date_lte" "release_date.lte" params in
  let params := copy_if filters "with_genres" "with_genres" params in
  let params :=
    copy_if filters "with_origin_country" "with_origin_country" params in
  rateLimitedRequest "/discover/movie" params.

Definition getGenres : M (Adapter * E) JsVal :=
  rateLimitedRequest "/genre/movie/list" [].

(** ** normalizeMovieData *)

Fixpoint emapM_index {A B} (f : A -> nat -> Exc B) (l : list A) (index : nat)
  : Exc (list B) :=
  match l with
  | [] => Ok []
  | x :: xs =>
      ebind (f x index) (fun y =>
      ebind (emapM_index f xs (S index)) (fun ys => Ok (y :: ys)))
  end.

Definition image_base (size : string) : string :=
  ("https://image.tmdb.org/t/p/" ++ size)%string.

(** [(actor, index) => ({ name, role, order, profile_path })] *)
Definition cast_entry (actor : JsVal) (index : nat) : Exc JsVal :=
  (let! name := getProp actor "name" in
   let profile_path := getPropOpt actor "profile_path" in
   let! profile_url :=
     if truthy profile_path
     then (let! url := template rt (image_base "w185") profile_path in
           Ok (JStr url))
     else Ok JNull in
   Ok (JObj
     [("name", name);
      ("role", getPropOpt actor "character");
      ("order", or_else (getPropOpt actor "order")
                        (num_of_Z (Z.of_nat index)));
      ("profile_path", profile_url)]))%exc.

(** [credits.cast.slice(0, 20).map(...)]: a string has [slice] but no
    [map]; the other values have neither. *)
Definition parse_cast (credits : JsVal) : Exc (list JsVal) :=
  if truthy credits && truthy (getPropOpt credits "cast") then
    match getPropOpt credits "cast" with
    | JArr l => emapM_index cast_entry (firstn 20 l) 0
    | _ => Throw TypeError
    end
  else Ok [].

(** [crew.filter(person => jobs.includes(person.job)).map(p => p.name)
     .join(', ')] *)
Definition crew_names (crew : JsVal) (jobs : list JsVal) : Exc JsVal :=
  (let! members :=
     arr_filter (fun person =>
                   let! job := getProp person "job" in
                   Ok (arr_includes jobs job)) crew in
   let! names := emapM (fun p => getProp p "name") members in
   let! text := join rt ", " names in
   Ok (JStr text))%exc.

(** [v ? v.map(x => pick x).join(sep) : null] *)
Definition joined (v : JsVal) (pick : JsVal -> Exc JsVal) (sep : string)
  : Exc JsVal :=
  if truthy v then
    (let! names := arr_map pick v in
     let! text := join rt sep names in
     Ok (JStr text))%exc
  else Ok JNull.

Definition other_title (alt : JsVal) : Exc JsVal :=
  (let! title := getProp alt "title" in
   Ok (JObj [("title", title);
             ("country", getPropOpt alt "iso_3166_1")]))%exc.

Definition parse_other_titles (alternative_titles : JsVal)
  : Exc (list JsVal) :=
  if truthy alternative_titles
     && truthy (getPropOpt alternative_titles "titles")
  then arr_map other_title (getPropOpt alternative_titles "titles")
  else Ok [].

Definition video_entry (video : JsVal) : Exc JsVal :=
  (let! key := getProp video "key" in
   let! url := template rt "https://www.youtube.com/watch?v=" key in
   Ok (JObj [("key", key);
             ("name", getPropOpt video "name");
             ("type", getPropOpt video "type");
             ("url", JStr url)]))%exc.

Definition parse_videos (videos : JsVal) : Exc (list JsVal) :=
  if truthy videos && truthy (getPropOpt videos "results") then
    (let! onYouTube :=
       arr_filter (fun v =>
                     let! site := getProp v "site" in
                     Ok (strict_eq site (JStr "YouTube")))
                  (getPropOpt videos "results") in
     emapM video_entry onYouTube)%exc
  else Ok [].

(** [x ? x.length : 0] *)
Definition count_of (x : JsVal) : JsVal :=
  if truthy x then length_of x else num_of_Z 0.

Definition parse_images (images : JsVal) : JsVal :=
  if truthy images then
    JObj [("backdrops", count_of (getPropOpt images "backdrops"));
          ("posters", count_of (getPropOpt images "posters"));
          ("logos", count_of (getPropOpt images "logos"))]
  else JNull.

(** [Object.keys(v).length] *)
Definition key_count (v : JsVal) : nat :=
  match v with
  | JObj o => List.length (keys o)
  | JArr l => List.length l
  | JStr s => String.length s
  | _ => 0%nat
  end.

Definition parse_watch_providers (providers : JsVal) : JsVal :=
  if truthy providers && truthy (getPropOpt providers "results")
  then num_of_Z (Z.of_nat (key_count (getPropOpt providers "results")))
  else num_of_Z 0.

(** [getFullYear() || null], [getMonth() + 1 || null], [getDate() || null]
    of [new Date(release_date)] *)
Definition release_parts (release_date : JsVal)
  : Exc (JsVal * JsVal * JsVal) :=
  (let! _ := convert release_date in
   match Date_parse rt release_date with
   | None => Ok (JNull, JNull, JNull)
   | Some t =>
       let '(y, m, d) := Date_fields rt t in
       Ok (or_else (num_of_Z y) JNull,
           or_else (num_of_Z (m + 1)) JNull,
           or_else (num_of_Z d) JNull)
   end)%exc.

(** [path ? `${base}${path}` : null] *)
Definition image_url (size : string) (path : JsVal) : Exc JsVal :=
  if truthy path
  then (let! url := template rt (image_base size) path in Ok (JStr url))%exc
  else Ok JNull.

(** [v > 0 ? v : null] *)
Definition if_positive (v : JsVal) : Exc JsVal :=
  (let! positive := gt rt v 0 in Ok (if positive then v else JNull))%exc.

Definition normalizeMovieData (tmdbData : JsVal) : Exc (option Object) :=
  if negb (truthy tmdbData) then Ok None
  else
    let f := getPropOpt tmdbData in
    (let! releaseDate := release_parts (f "release_date") in
     let '(year, month, day) := releaseDate in
     let credits := f "credits" in
     let! cast := parse_cast credits in
     let crew :=
       if truthy credits && truthy (getPropOpt credits "crew")
       then getPropOpt credits "crew" else JArr [] in
     let! directors := crew_names crew [JStr "Director"] in
     let! writers :=
       crew_names crew [JStr "Writer"; JStr "Screenplay"; JStr "Story"] in
     let! producers := crew_names crew [JStr "Producer"] in
     let name_of := fun x => getProp x "name" in
     let! genres := joined (f "genres") name_of "/" in
     let! countries := joined (f "production_countries") name_of ", " in
     let! studios := joined (f "production_companies") name_of " / " in
     let! otherTitles := parse_other_titles (f "alternative_titles") in
     let! keywords :=
       if truthy (f "keywords")
       then joined (getPropOpt (f "keywords") "keywords") name_of ", "
       else Ok JNull in
     let! videos := parse_videos (f "videos") in
     let images := parse_images (f "images") in
     let externalIds := or_else (f "external_ids") (JObj []) in
     let! spokenLanguages :=
       joined (f "spoken_languages")
              (fun lang =>
                 let! english_name := getProp lang "english_name" in
                 Ok (or_else english_name (getPropOpt lang "name")))
              ", " in
     let watchProviders := parse_watch_providers (f "watch/providers") in
     let! revenue := if_positive (f "revenue") in
     let! budget := if_positive (f "budget") in
     let! poster_url := image_url "w500" (f "poster_path") in
     let! backdrop_url := image_url "w1280" (f "backdrop_path") in
     Ok (Some
       [("title", f "title");
        ("original_title", f "original_title");
        ("release_year", year);
        ("release_month", month);
        ("release_day", day);
        ("country", countries);
        ("description", f "overview");
        ("tagline", f "tagline");
        ("cast", JArr cast);
        ("genre", genres);
        ("runtime_min", f "runtime");
        ("is_color", JBool true);
        ("gross_worldwide_boxoffice", revenue);
        ("budget", budget);
        ("distribution", JNull);
        ("studio", studios);
        ("based_on", JNull);
        ("other_titles", JArr otherTitles);
        ("tmdb_id", f "id");
        ("imdb_id", or_else (f "imdb_id") (getPropOpt externalIds "imdb_id"));
        ("tmdb_rating", f "vote_average");
        ("tmdb_vote_count", f "vote_count");
        ("popularity", f "popularity");
        ("poster_url", poster_url);
        ("backdrop_url", backdrop_url);
        ("adult", f "adult");
        ("homepage", f "homepage");
        ("status", f "status");
        ("keywords", keywords);
        ("videos", JArr videos);
        ("images_count", images);
        ("spoken_languages", spokenLanguages);
        ("watch_providers_count", watchProviders);
        ("director", directors);
        ("writer", writers);
        ("producer", producers);
        ("facebook_id", getPropOpt externalIds "facebook_id");
        ("instagram_id", getPropOpt externalIds "instagram_id");
        ("twitter_id", getPropOpt externalIds "twitter_id");
        ("wikidata_id", getPropOpt externalIds "wikidata_id");
        ("source", JStr "TMDB")]))%exc.

(** ** The other endpoints *)


(** A request to a path that holds an argument of the method. *)
Definition request_at (path : Exc string) (params : Object)
  : M (Adapter * E) JsVal :=
  endpoint <- lift path ;;
  rateLimitedRequest endpoint params.




















Definition getPersonDetails (personId : JsVal) : M (Adapter * E) JsVal :=
  request_at (template rt "/person/" personId)
    [("append_to_response", JStr "movie_credits,external_ids,images")].


End Methods.

End TMDBApi.

(* ===================================================================== *)
(** * api/imdbApi.js *)
(* ===================================================================== *)

Module IMDBApi.

(** [new IMDBApi(apiKey = null, rateLimitPerSecond = 5)] *)
Definition new (apiKey : option JsVal) (rateLimitPerSecond : option Q)
  : Adapter :=
  mkAdapter (match apiKey with Some k => k | None => JNull end)
            "https://api.imdbapi.dev"
            (delay_of (match rateLimitPerSecond with Some r => r | None => 5 end))
            0.

Section Methods.
Context {E : Type}.
Variable rt : Runtime.
Variable net : Network E.

Definition rateLimitedRequest (endpoint : string) (params : Object)
  : M (Adapter * E) JsVal :=
  throttle net ;;
  try_catch
    (apiKey <- this_apiKey ;;
     let headers :=
       [("Accept", JStr "application/json");
        ("User-Agent", JStr "filmweb-fetcher/1.0.0")] in
     headers <-
       (if truthy apiKey
        then bearer <- lift (template rt "Bearer " apiKey) ;;
             ret (set headers "Authorization" (JStr bearer))
        else ret headers) ;;
     let config :=
       [("timeout", num_of_Z 15000);
        ("params", JObj params);
        ("headers", JObj headers)] in
     url <- this_baseUrl ;;
     http_get net (url ++ endpoint)%string config)
    (fun error => throw error).

(** Text search is not available: an empty result, without a request. *)
Definition searchMovies (query : JsVal) : M (Adapter * E) JsVal :=
  try_catch (lift (convert query) ;; ret (JObj [("results", JArr [])]))
            (fun _ => ret (JObj [("results", JArr [])])).

Definition getMovieDetails (imdbId : JsVal) : M (Adapter * E) JsVal :=
  try_catch
    (match imdbId with
     | JStr s =>
         let titleId := if startsWith s "tt" then s else ("tt" ++ s)%string in
         rateLimitedRequest ("/titles/" ++ titleId)%string []
     | _ => throw TypeError
     end)
    (fun _ => ret JNull).

(** ** normalizeMovieData *)

(** [p.displayName || p.name || p.primaryName] *)
Definition person_name (p : JsVal) : Exc JsVal :=
  (let! displayName := getProp p "displayName" in
   Ok (or_else (or_else displayName (getPropOpt p "name"))
               (getPropOpt p "primaryName")))%exc.

Definition star_entry (star : JsVal) : Exc JsVal :=
  (let! name := person_name star in
   Ok (JObj [("name", name); ("role", JNull)]))%exc.

(** The value of [Math.round(seconds / 60)] in exact arithmetic, for a
    number of seconds that converts.  The code divides and rounds in
    double precision, which gives the same integer as long as the
    quotient is held exactly enough, as it is for every duration below
    2^31 seconds. *)
Definition minutes_of (seconds : JsVal) : JsNum :=
  match to_num rt seconds with
  | Fin q => Fin (inject_Z (Qfloor (q / 60 + (1 # 2))%Q))
  | n => n
  end.

(** [seconds ? Math.round(seconds / 60) : null] *)
Definition runtime_of (seconds : JsVal) : Exc JsVal :=
  if truthy seconds
  then (let! _ := convert seconds in Ok (JNum (minutes_of seconds)))%exc
  else Ok JNull.

(** [v ? v.join(sep) : null]: only arrays have [join]. *)
Definition join_or_null (v : JsVal) (sep : string) : Exc JsVal :=
  if truthy v then
    match v with
    | JArr l => (let! text := join rt sep l in Ok (JStr text))%exc
    | _ => Throw TypeError
    end
  else Ok JNull.

(** [v ? v.map(pick).join(', ') : null] *)
Definition names_or_null (v : JsVal) (pick : JsVal -> Exc JsVal)
  : Exc JsVal :=
  if truthy v then
    (let! names := arr_map pick v in
     let! text := join rt ", " names in
     Ok (JStr text))%exc
  else Ok JNull.

Definition normalizeMovieData (imdbData : JsVal) : Exc (option Object) :=
  if negb (truthy imdbData) then Ok None
  else
    let f := getPropOpt imdbData in
    let releaseYear := or_else (f "startYear") JNull in
    let releaseMonth := JNull in
    let releaseDay := JNull in
    (let! cast :=
       if truthy (f "stars") then arr_map star_entry (f "stars") else Ok [] in
     let! runtime := runtime_of (f "runtimeSeconds") in
     let! genres := join_or_null (f "genres") "/" in
     let! countries :=
       names_or_null (f "originCountries") (fun c => getProp c "name") in
     let! directors := names_or_null (f "directors") person_name in
     let! writers := names_or_null (f "writers") person_name in
     Ok (Some
       [("title", f "primaryTitle");
        ("original_title", or_else (f "originalTitle") (f "primaryTitle"));
        ("release_year", releaseYear);
        ("release_month", releaseMonth);
        ("release_day", releaseDay);
        ("country", countries);
        ("description", f "plot");
        ("cast", JArr cast);
        ("genre", genres);
        ("runtime_min", runtime);
        ("is_color", JBool true);
        ("gross_worldwide_boxoffice", JNull);
        ("budget", JNull);
        ("distribution", JNull);
        ("studio", JNull);
        ("based_on", JNull);
        ("other_titles", JArr []);
        ("imdb_id", f "id");
        ("imdb_rating",
         or_else (getPropOpt (f "rating") "aggregateRating") JNull);
        ("imdb_vote_count",
         or_else (getPropOpt (f "rating") "voteCount") JNull);
        ("metacritic_score",
         or_else (getPropOpt (f "metacritic") "score") JNull);
        ("director", directors);
        ("writer", writers);
        ("awards", JNull);
        ("poster_url", or_else (getPropOpt (f "primaryImage") "url") JNull);
        ("source", JStr "IMDB")]))%exc.

(** ** The other lookups

    Each of them catches what its request throws and returns an empty
    answer instead. *)

(** [{ types: ['MOVIE'], sortBy: ..., sortOrder: 'DESC', ...extra }] *)
Definition movie_list_params (extra : Object) : Object :=
  spread [("types", JArr [JStr "MOVIE"]);
          ("sortBy", JStr "SORT_BY_POPULARITY");
          ("sortOrder", JStr "DESC")]
         extra.

Definition no_titles : JsVal := JObj [("titles", JArr [])].

Definition searchTitles (query : JsVal) (options : Object)
  : M (Adapter * E) JsVal :=
  try_catch (rateLimitedRequest "/titles" (movie_list_params options))
            (fun error => ret no_titles).

Definition listTitles (filters : Object) : M (Adapter * E) JsVal :=
  try_catch (rateLimitedRequest "/titles" (movie_list_params filters))
            (fun error => ret no_titles).

(** [id.startsWith(p) ? id : `${p}${id}`]: only strings have
    [startsWith]. *)
Definition prefixed (p : string) (id : JsVal) : Exc string :=
  match id with
  | JStr s => Ok (if startsWith s p then s else (p ++ s)%string)
  | _ => Throw TypeError
  end.

(** [try { return await this.rateLimitedRequest(`${dir}${id}${suffix}`) }
     catch { return fallback }], with the prefix [p] put before [id]. *)
Definition lookup (p dir suffix : string) (id fallback : JsVal)
  : M (Adapter * E) JsVal :=
  try_catch
    (cleanId <- lift (prefixed p id) ;;
     rateLimitedRequest (dir ++ cleanId ++ suffix)%string [])
    (fun error => ret fallback).

Definition getTitleCredits (titleId : JsVal) : M (Adapter * E) JsVal :=
  lookup "tt" "/titles/" "/credits" titleId
         (JObj [("cast", JArr []); ("crew", JArr [])]).

Definition getTitleReleaseDates (titleId : JsVal) : M (Adapter * E) JsVal :=
  lookup "tt" "/titles/" "/releaseDates" titleId
         (JObj [("releaseDates", JArr [])]).

Definition getTitleRatings (titleId : JsVal) : M (Adapter * E) JsVal :=
  lookup "tt" "/titles/" "/ratings" titleId JNull.

Definition getTitleVideos (titleId : JsVal) : M (Adapter * E) JsVal :=
  lookup "tt" "/titles/" "/videos" titleId (JObj [("videos", JArr [])]).

Definition getTitleImages (titleId : JsVal) : M (Adapter * E) JsVal :=
  lookup "tt" "/titles/" "/images" titleId (JObj [("images", JArr [])]).

Definition getPersonDetails (personId : JsVal) : M (Adapter * E) JsVal :=
  lookup "nm" "/names/" "" personId JNull.

Definition getPersonCredits (personId : JsVal) : M (Adapter * E) JsVal :=
  lookup "nm" "/names/" "/credits" personId no_titles.

(** [imdbIds.slice(0, 5).map(id => id.startsWith('tt') ? id : `tt${id}`)]:
    a string has [slice] but no [map]. *)
Definition batch_ids (imdbIds : JsVal) : Exc (list string) :=
  match imdbIds with
  | JArr l => emapM (prefixed "tt") (firstn 5 l)
  | _ => Throw TypeError
  end.

Definition batchGetTitles (imdbIds : JsVal) : M (Adapter * E) JsVal :=
  try_catch
    (titleIds <- lift (batch_ids imdbIds) ;;
     rateLimitedRequest "/titles:batchGet"
                        [("titleIds", JArr (map JStr titleIds))])
    (fun error => ret no_titles).

(** [if (filters.k) params[k'] = filters.k] *)
Definition rename_if (filters : Object) (k k' : string) (params : Object)
  : Object :=
  if truthy (get filters k) then set params k' (get filters k) else params.

(** [if (filters.k) params[k'] = Array.isArray(filters.k) ? filters.k :
    [filters.k]] *)
Definition list_if (filters : Object) (k k' : string) (params : Object)
  : Object :=
  let v := get filters k in
  if truthy v then set params k' (if isArray v then v else JArr [v])
  else params.

Definition advanced_params (filters : Object) : Object :=
  let params := movie_list_params filters in
  let params := rename_if filters "minRating" "minAggregateRating" params in
  let params := rename_if filters "maxRating" "maxAggregateRating" params in
  let params := rename_if filters "minVotes" "minVoteCount" params in
  let params := rename_if filters "maxVotes" "maxVoteCount" params in
  let params := rename_if filters "startYear" "startYear" params in
  let params := rename_if filters "endYear" "endYear" params in
  let params := list_if filters "genres" "genres" params in
  let params := list_if filters "countries" "countryCodes" params in
  let params := list_if filters "languages" "languageCodes" params in
  params.

Definition advancedTitleSearch (filters : Object) : M (Adapter * E) JsVal :=
  try_catch (rateLimitedRequest "/titles" (advanced_params filters))
            (fun error => ret no_titles).

End Methods.

End IMDBApi.

(* ===================================================================== *)
(** * The class MovieFetcher *)
(* ===================================================================== *)

Module MovieFetcher.

(** The methods of the adapters that the orchestrator calls, over a
    state [S] that holds the adapter instances and the outside world. *)
Record OmdbOps (S : Type) : Type := {
  omdb_getMovieByTitle : JsVal -> M S JsVal;
  omdb_getMovieDetails : JsVal -> M S JsVal;
  omdb_normalizeMovieData : JsVal -> Exc (option Object)
}.

Record TmdbOps (S : Type) : Type := {
  tmdb_searchMovies : JsVal -> M S JsVal;
  tmdb_getMovieDetails : JsVal -> M S JsVal;
  tmdb_discoverMovies : Object -> M S JsVal;
  tmdb_getGenres : M S JsVal;
  tmdb_normalizeMovieData : JsVal -> Exc (option Object)
}.

Record ImdbOps (S : Type) : Type := {
  imdb_searchMovies : JsVal -> M S JsVal;
  imdb_getMovieDetails : JsVal -> M S JsVal;
  imdb_normalizeMovieData : JsVal -> Exc (option Object)
}.

Arguments omdb_getMovieByTitle {S} _ _.
Arguments omdb_getMovieDetails {S} _ _.
Arguments omdb_normalizeMovieData {S} _ _.
Arguments tmdb_searchMovies {S} _ _.
Arguments tmdb_getMovieDetails {S} _ _.
Arguments tmdb_discoverMovies {S} _ _.
Arguments tmdb_getGenres {S} _.
Arguments tmdb_normalizeMovieData {S} _ _.
Arguments imdb_searchMovies {S} _ _.
Arguments imdb_getMovieDetails {S} _ _.
Arguments imdb_normalizeMovieData {S} _ _.

(** The fields of a [MovieFetcher]; an adapter that the constructor did
    not create is [None].  [pause ms] is what
    [await new Promise(resolve => setTimeout(resolve, ms))] does to the
    state. *)
Record Fetcher (S : Type) : Type := {
  enabledApis : list JsVal;
  omdbApi : option (OmdbOps S);
  tmdbApi : option (TmdbOps S);
  imdbApi : option (ImdbOps S);
  pause : Q -> S -> S
}.
Arguments enabledApis {S} _.
Arguments omdbApi {S} _.
Arguments tmdbApi {S} _.
Arguments imdbApi {S} _.
Arguments pause {S} _ _ _.

(** The local variables of one [discoverMovies] call. *)
Record Discovery : Type := mkDiscovery {
  results : list Object;
  totalResults : JsVal;
  consecutiveEmptyPages : nat
}.

Section Workflows.
Context {S : Type}.
Variable rt : Runtime.
Variable this : Fetcher S.

Definition enabled (name : string) : bool :=
  arr_includes (enabledApis this) (JStr name).

(** [if (normalized) results.push(normalized)] *)
Definition push_if (normalized : option Object) (results : list Object)
  : list Object :=
  match normalized with
  | Some r => results ++ [r]
  | None => results
  end.

(** [r.results && r.results.length > 0] *)
Definition has_results (r : JsVal) : Exc bool :=
  (let! found := getProp r "results" in
   if truthy found then gt rt (length_of found) 0 else Ok false)%exc.

(** [r.results[0].id] *)
Definition first_result_id (r : JsVal) : Exc JsVal :=
  getProp (first_of (getPropOpt r "results")) "id".

Definition search_omdb (title : JsVal) (results : list Object)
  : M S (list Object) :=
  match omdbApi this with
  | Some api =>
      if enabled "omdb" then
        try_catch
          (omdbResult <- omdb_getMovieByTitle api title ;;
           if truthy omdbResult
              && negb (strict_eq (getPropOpt omdbResult "Response")
                                 (JStr "False"))
           then
             normalized <- lift (omdb_normalizeMovieData api omdbResult) ;;
             ret (push_if normalized results)
           else ret results)
          (fun error => ret results)
      else ret results
  | None => ret results
  end.

Definition search_tmdb (title : JsVal) (results : list Object)
  : M S (list Object) :=
  match tmdbApi this with
  | Some api =>
      if enabled "tmdb" then
        try_catch
          (tmdbSearchResult <- tmdb_searchMovies api title ;;
           found <- lift (has_results tmdbSearchResult) ;;
           if found then
             id <- lift (first_result_id tmdbSearchResult) ;;
             movieDetails <- tmdb_getMovieDetails api id ;;
             normalized <- lift (tmdb_normalizeMovieData api movieDetails) ;;
             ret (push_if normalized results)
           else ret results)
          (fun error => ret results)
      else ret results
  | None => ret results
  end.

Definition search_imdb (title : JsVal) (results : list Object)
  : M S (list Object) :=
  match imdbApi this with
  | Some api =>
      if enabled "imdb" then
        try_catch
          (imdbSearchResult <- imdb_searchMovies api title ;;
           found <- lift (has_results imdbSearchResult) ;;
           if found then
             let firstResult :=
             first_of (getPropOpt imdbSearchResult "results") in
             id <- lift (getProp firstResult "id") ;;
             movieDetails <-
               (if truthy id
                   && (negb (truthy (getPropOpt firstResult "plot"))
                       || negb (truthy (getPropOpt firstResult "directors")))
                then
                  fullDetails <- imdb_getMovieDetails api id ;;
                  ret (if truthy fullDetails then fullDetails
                       else firstResult)
                else ret firstResult) ;;
             normalized <- lift (imdb_normalizeMovieData api movieDetails) ;;
             ret (push_if normalized results)
           else ret results)
          (fun error => ret results)
      else ret results
  | None => ret results
  end.

(** The spinner is created from a template literal on [title] before
    the [try]; the closing report, inside it, joins [enabledApis]. *)
Definition searchMoviesByTitle (title : JsVal) : M S (list Object) :=
  lift (convert title) ;;
  try_catch
    (results <- search_omdb title [] ;;
     results <- search_tmdb title results ;;
     results <- search_imdb title results ;;
     lift (join rt ", " (enabledApis this)) ;;
     ret results)
    (fun error => ret []).

(** ** fetchMoviesByTitles *)

(** The body of the [try] for one title; it yields the record to push,
    if any.  The pause that follows the push cannot throw. *)
Definition fetch_title (title : JsVal) (last : bool) (filters : Object)
  : M S (option Object) :=
  movieResults <- searchMoviesByTitle title ;;
  pushed <-
    (if (0 <? List.length movieResults)%nat then
       mergedMovie <- lift (mergeMovieData (Some movieResults)) ;;
       cleanedMovie <- lift (cleanMovieData rt mergedMovie) ;;
       match cleanedMovie with
       | Some cleanedMovie =>
           ok <- lift (matchesFilters rt cleanedMovie filters) ;;
           ret (if ok then Some cleanedMovie else None)
       | None => ret None
       end
     else ret None) ;;
  when (negb last) (modify (pause this 500)) ;;
  ret pushed.

(** The [for] loop.  The progress line, a template literal on [title],
    is set before the [try]: what it throws leaves the function. *)
Fixpoint fetch_loop (titles : list JsVal) (filters : Object)
         (allResults : list Object) : M S (list Object) :=
  match titles with
  | [] => ret allResults
  | title :: rest =>
      lift (convert title) ;;
      pushed <- try_catch
                  (fetch_title title
                               (match rest with [] => true | _ => false end)
                               filters)
                  (fun error => ret None) ;;
      fetch_loop rest filters (push_if pushed allResults)
  end.

Definition fetchMoviesByTitles (titles : list JsVal) (filters : Object)
  : M S (list Object) :=
  fetch_loop titles filters [].

(** ** enrichMovieData *)

(** [!movie.sources || !movie.sources.includes(tag)] *)
Definition not_in_sources (movie : Object) (tag : string) : Exc bool :=
  let sources := get movie "sources" in
  if negb (truthy sources) then Ok true
  else
    match sources with
    | JArr l => Ok (negb (arr_includes l (JStr tag)))
    | JStr s => Ok (negb (includes s tag))
    | _ => Throw TypeError
    end.

Definition enrich_omdb (movie : Object) (enrichmentResults : list Object)
  : M S (list Object) :=
  match omdbApi this with
  | Some api =>
      if enabled "omdb" then
        missing <- lift (not_in_sources movie "OMDB") ;;
        if missing then
          try_catch
            (omdbData <- omdb_getMovieDetails api (get movie "imdb_id") ;;
             if truthy omdbData
                && negb (strict_eq (getPropOpt omdbData "Response")
                                   (JStr "False"))
             then
               normalized <- lift (omdb_normalizeMovieData api omdbData) ;;
               ret (push_if normalized enrichmentResults)
             else ret enrichmentResults)
            (fun error => ret enrichmentResults)
        else ret enrichmentResults
      else ret enrichmentResults
  | None => ret enrichmentResults
  end.

Definition enrich_imdb (movie : Object) (enrichmentResults : list Object)
  : M S (list Object) :=
  match imdbApi this with
  | Some api =>
      if enabled "imdb" then
        missing <- lift (not_in_sources movie "IMDB") ;;
        if missing then
          try_catch
            (imdbData <- imdb_getMovieDetails api (get movie "imdb_id") ;;
             if truthy imdbData then
               normalized <- lift (imdb_normalizeMovieData api imdbData) ;;
               ret (push_if normalized enrichmentResults)
             else ret enrichmentResults)
            (fun error => ret enrichmentResults)
        else ret enrichmentResults
      else ret enrichmentResults
  | None => ret enrichmentResults
  end.

Definition enrich_tmdb (movie : Object) (enrichmentResults : list Object)
  : M S (list Object) :=
  match tmdbApi this with
  | Some api =>
      if enabled "tmdb" then
        missing <- lift (not_in_sources movie "TMDB") ;;
        if missing then
          try_catch
            (tmdbSearchResult <- tmdb_searchMovies api (get movie "title") ;;
             found <- lift (has_results tmdbSearchResult) ;;
             if found then
               id <- lift (first_result_id tmdbSearchResult) ;;
               movieDetails <- tmdb_getMovieDetails api id ;;
               normalized <- lift (tmdb_normalizeMovieData api movieDetails) ;;
               ret (push_if normalized enrichmentResults)
             else ret enrichmentResults)
            (fun error => ret enrichmentResults)
        else ret enrichmentResults
      else ret enrichmentResults
  | None => ret enrichmentResults
  end.

(** The body of the [try] for one record. *)
Definition enrich_movie (movie : Object) : M S (option Object) :=
  let enrichmentResults := [movie] in
  enrichmentResults <-
    (if truthy (get movie "imdb_id") then
       enrichmentResults <- enrich_omdb movie enrichmentResults ;;
       enrich_imdb movie enrichmentResults
     else ret enrichmentResults) ;;
  enrichmentResults <- enrich_tmdb movie enrichmentResults ;;
  enrichedMovie <- lift (mergeMovieData (Some enrichmentResults)) ;;
  cleanedMovie <- lift (cleanMovieData rt enrichedMovie) ;;
  modify (pause this 100) ;;
  ret cleanedMovie.



(** ** discoverMovies *)

Definition D : Type := (Discovery * S)%type.

Definition world {A} (m : M S A) : M D A :=
  zoom snd (fun s d => (fst d, s)) m.

Definition locals {A} (f : Discovery -> A) : M D A :=
  gets (fun d => f (fst d)).

Definition set_locals (f : Discovery -> Discovery) : M D unit :=
  modify (fun d => (f (fst d), snd d)).

Definition push_results (l : list Object) (d : Discovery) : Discovery :=
  mkDiscovery (results d ++ l) (totalResults d) (consecutiveEmptyPages d).

Definition set_totalResults (v : JsVal) (d : Discovery) : Discovery :=
  mkDiscovery (results d) v (consecutiveEmptyPages d).

Definition set_consecutiveEmptyPages (n : nat) (d : Discovery) : Discovery :=
  mkDiscovery (results d) (totalResults d) n.

Definition incr_consecutiveEmptyPages (d : Discovery) : Discovery :=
  set_consecutiveEmptyPages (Datatypes.S (consecutiveEmptyPages d)) d.

(** [genresResponse.genres.forEach(g => genreMap[g.name.toLowerCase()]
    = g.id)].  An assignment under [__proto__] goes to the setter that
    every object inherits and adds no property. *)
Definition genre_map (genresResponse : JsVal) : Exc Object :=
  (let! genres := getProp genresResponse "genres" in
   match genres with
   | JArr l =>
       efold (fun genreMap g =>
                let! name := getProp g "name" in
                let! lower := call_toLowerCase name in
                if lower =? "__proto__" then Ok genreMap
                else Ok (set genreMap lower (getPropOpt g "id")))
             l []
   | _ => Throw TypeError
   end)%exc.

(** [genreMap[wanted]]: the own property, else the member of
    [Object.prototype] of that name, else [undefined]. *)
Definition genre_id (genreMap : Object) (wanted : string) : JsVal :=
  if has genreMap wanted then get genreMap wanted
  else if inherited wanted then inherited_member
  else JUndefined.

(** The report of the genre found is printed after [with_genres] is
    set, so that a report that throws leaves the filter in place. *)
Definition with_genre (api : TmdbOps S) (filters tmdbFilters : Object)
  : M S Object :=
  if truthy (get filters "genre") then
    try_catch
      (genresResponse <- tmdb_getGenres api ;;
       genreMap <- lift (genre_map genresResponse) ;;
       wanted <- lift (call_toLowerCase (get filters "genre")) ;;
       let genreId := genre_id genreMap wanted in
       ret (if truthy genreId then set tmdbFilters "with_genres" genreId
            else tmdbFilters))
      (fun error => ret tmdbFilters)
  else ret tmdbFilters.

(** The translation of the filters into the query of the source. *)
Definition tmdb_filters (api : TmdbOps S) (filters : Object) : M S Object :=
  let tmdbFilters := [] in
  let tmdbFilters :=
    if truthy (get filters "startDate")
    then set tmdbFilters "primary_release_date.gte" (get filters "startDate")
    else tmdbFilters in
  let tmdbFilters :=
    if truthy (get filters "endDate")
    then set tmdbFilters "primary_release_date.lte" (get filters "endDate")
    else tmdbFilters in
  tmdbFilters <-
    (if truthy (get filters "country") then
       countryCode <- lift (call_toUpperCase (get filters "country")) ;;
       ret (set (set tmdbFilters "with_origin_country" (JStr countryCode))
                "region" (JStr countryCode))
     else ret tmdbFilters) ;;
  with_genre api filters tmdbFilters.

(** [Math.min(a, b)] *)
Definition math_min (a b : JsNum) : JsNum :=
  match a, b with
  | NaN, _ | _, NaN => NaN
  | _, _ => if num_lt b a then b else a
  end.

(** [Math.min(v, bound)] *)
Definition min_of (v : JsVal) (bound : JsNum) : Exc JsNum :=
  (let! _ := convert v in Ok (math_min (to_num rt v) bound))%exc.

(** [Math.min(filters.maxPages || 500, 500)] *)
Definition max_pages (filters : Object) : Exc JsNum :=
  min_of (or_else (get filters "maxPages") (num_of_Z 500)) (Fin 500).

(** How many values of [page = 1, 2, ...] satisfy [page <= maxPages]. *)
Definition page_count (maxPages : JsNum) : nat :=
  match maxPages with
  | Fin q => Z.to_nat (Qfloor q)
  | _ => 0%nat
  end.

(** [await Promise.all(ps)], the promises taken in order: all of them
    run, and the first rejection is the outcome.  The callbacks of the
    source are started together and take turns at each [await]; taking
    them one after the other gives the same values as long as the
    answer to a request does not depend on the requests made beside
    it, and it does not give the same timing. *)
Fixpoint promise_all {T A} (ps : list (M T A)) : M T (list A) :=
  match ps with
  | [] => ret []
  | p :: rest =>
      fun t =>
        match p t with
        | (t', Ok a) => (l <- promise_all rest ;; ret (a :: l)) t'
        | (t', Throw e) => (fst (promise_all rest t'), Throw e)
        end
  end.

Fixpoint valid_results (batchResults : list (option Object)) : list Object :=
  match batchResults with
  | [] => []
  | Some r :: rest => r :: valid_results rest
  | None :: rest => valid_results rest
  end.

(** [`... ${movie.title} ...`] *)
Definition print_title (movie : JsVal) : Exc unit :=
  (let! title := getProp movie "title" in convert title)%exc.

(** The callback of [batch.map]: one entry of a result page.  Both the
    [try] and its handler start with a line that prints [movie.title]. *)
Definition process_movie (api : TmdbOps S) (filters : Object) (movie : JsVal)
  : M D (option Object) :=
  try_catch
    (lift (print_title movie) ;;
     lift (convert (or_else (getPropOpt movie "release_date")
                            (JStr "Unknown year"))) ;;
     movieDetails <- world (tmdb_getMovieDetails api (getPropOpt movie "id")) ;;
     normalized <- lift (tmdb_normalizeMovieData api movieDetails) ;;
     match normalized with
     | Some normalized =>
         let dateOnlyFilters :=
           if truthy (get filters "country") then delete filters "country"
           else filters in
         ok <- lift (matchesFilters rt normalized dateOnlyFilters) ;;
         ret (if ok then Some normalized else None)
     | None => ret None
     end)
    (fun error => lift (print_title movie) ;; ret None).

(** [Math.min(discoverResult.total_pages || maxPages, maxPages)] *)
Definition total_pages (discoverResult : JsVal) (maxPages : JsNum)
  : Exc JsNum :=
  min_of (or_else (getPropOpt discoverResult "total_pages") (JNum maxPages))
         maxPages.

(** The [for] loop over the batches of five entries; [fuel] bounds the
    number of batches by the number of entries. *)
Fixpoint batch_loop (fuel : nat) (api : TmdbOps S) (filters : Object)
         (onProgress : option (Object -> M S unit))
         (page : Z) (maxPages : JsNum) (discoverResult : JsVal)
         (entries : list JsVal) : M D unit :=
  match fuel, entries with
  | _, [] => ret tt
  | O, _ => ret tt
  | Datatypes.S fuel', _ =>
      let batch := firstn 5 entries in
      batchResults <- promise_all (map (process_movie api filters) batch) ;;
      set_locals (push_results (valid_results batchResults)) ;;
      (match onProgress with
       | Some callback =>
           totalPages <- lift (total_pages discoverResult maxPages) ;;
           current <- locals results ;;
           total <- locals totalResults ;;
           world (callback
             [("page", num_of_Z page);
              ("totalPages", JNum totalPages);
              ("currentResults", num_of_Z (Z.of_nat (List.length current)));
              ("totalResults", total)])
       | None => ret tt
       end) ;;
      world (modify (pause this 50)) ;;
      batch_loop fuel' api filters onProgress page maxPages discoverResult
                 (skipn 5 entries)
  end.

(** The test that ends the page loop:
<<
    !discoverResult.results || discoverResult.results.length < 20 ||
    consecutiveEmptyPages >= 3 ||
    page >= (discoverResult.total_pages || 0)
>> *)
Definition stop_after (discoverResult : JsVal) (page : Z)
           (consecutiveEmptyPages : nat) : Exc bool :=
  let found := getPropOpt discoverResult "results" in
  if negb (truthy found) then Ok true
  else
    (let! partial := lt rt (length_of found) 20 in
     if partial then Ok true
     else if (3 <=? consecutiveEmptyPages)%nat then Ok true
     else
       let total_pages :=
         or_else (getPropOpt discoverResult "total_pages") (num_of_Z 0) in
       let! _ := convert total_pages in
       Ok (num_ge (Fin (inject_Z page)) (to_num rt total_pages)))%exc.

(** One turn of the page loop; the result tells whether it broke out. *)
Definition discover_page (api : TmdbOps S) (filters tmdbFilters : Object)
           (onProgress : option (Object -> M S unit))
           (page : Z) (maxPages : JsNum) : M D bool :=
  try_catch
    (let tmdbFilters := set tmdbFilters "page" (num_of_Z page) in
     discoverResult <- world (tmdb_discoverMovies api tmdbFilters) ;;
     total <- lift (getProp discoverResult "total_results") ;;
     when (truthy total)
          (set_locals (set_totalResults total) ;;
           lift (convert total) ;;
           _ <- lift (total_pages discoverResult maxPages) ;;
           ret tt) ;;
     nonempty <- lift (has_results discoverResult) ;;
     let found := getPropOpt discoverResult "results" in
     (if nonempty then
        set_locals (set_consecutiveEmptyPages 0) ;;
        match found with
        | JArr entries =>
            batch_loop (List.length entries) api filters onProgress page
                       maxPages discoverResult entries
        | _ => throw TypeError
        end
      else set_locals incr_consecutiveEmptyPages) ;;
     empty <- locals consecutiveEmptyPages ;;
     lift (stop_after discoverResult page empty))
    (fun error =>
       set_locals incr_consecutiveEmptyPages ;;
       empty <- locals consecutiveEmptyPages ;;
       ret (3 <=? empty)%nat).

(** [for (let page = ...; page <= maxPages; page++)], with [fuel] the
    number of pages left. *)
Fixpoint page_loop (fuel : nat) (api : TmdbOps S) (filters tmdbFilters : Object)
         (onProgress : option (Object -> M S unit))
         (page : Z) (maxPages : JsNum) : M D unit :=
  match fuel with
  | O => ret tt
  | Datatypes.S fuel' =>
      stop <- discover_page api filters tmdbFilters onProgress page maxPages ;;
      if stop then ret tt
      else page_loop fuel' api filters tmdbFilters onProgress (page + 1)
                     maxPages
  end.

(** What the outer [try] runs before [return results]; its last line
    is the closing report, which tests [totalResults > 0]. *)
Definition discover_run (filters : Object)
           (onProgress : option (Object -> M S unit)) : M D unit :=
  match tmdbApi this with
  | Some api =>
      tmdbFilters <- world (tmdb_filters api filters) ;;
      maxPages <- lift (max_pages filters) ;;
      page_loop (page_count maxPages) api filters tmdbFilters
                onProgress 1 maxPages
  | None => ret tt
  end ;;
  total <- locals totalResults ;;
  _ <- lift (gt rt total 0) ;;
  ret tt.

(** [const results = []; let totalResults = 0;] and, further down,
    [let consecutiveEmptyPages = 0;] *)
Definition discovery_start : Discovery := mkDiscovery [] (num_of_Z 0) 0.

Definition discoverMovies (filters : Object)
           (onProgress : option (Object -> M S unit)) : M S (list Object) :=
  fun s =>
    let '((d, s'), r) :=
      try_catch
        (discover_run filters onProgress ;; locals results)
        (fun error => ret [])
        (discovery_start, s) in
    (s', r).

End Workflows.

(** ** The constructor, over the three adapter classes *)

(** The adapter instances and the outside world. *)
Record FetcherState (E : Type) : Type := mkState {
  omdb_this : Adapter;
  tmdb_this : Adapter;
  imdb_this : Adapter;
  outside : E
}.
Arguments mkState {E} _ _ _ _.
Arguments omdb_this {E} _.
Arguments tmdb_this {E} _.
Arguments imdb_this {E} _.
Arguments outside {E} _.

Section Constructor.
Context {E : Type}.
Variable rt : Runtime.
Variable net : Network E.

Definition on_omdb {A} (m : M (Adapter * E) A) : M (FetcherState E) A :=
  zoom (fun t => (omdb_this t, outside t))
       (fun s t => mkState (fst s) (tmdb_this t) (imdb_this t) (snd s)) m.

Definition on_tmdb {A} (m : M (Adapter * E) A) : M (FetcherState E) A :=
  zoom (fun t => (tmdb_this t, outside t))
       (fun s t => mkState (omdb_this t) (fst s) (imdb_this t) (snd s)) m.

Definition on_imdb {A} (m : M (Adapter * E) A) : M (FetcherState E) A :=
  zoom (fun t => (imdb_this t, outside t))
       (fun s t => mkState (omdb_this t) (tmdb_this t) (fst s) (snd s)) m.

Definition omdb_ops : OmdbOps (FetcherState E) :=
  {| omdb_getMovieByTitle :=
       fun title => on_omdb (OMDBApi.getMovieByTitle rt net title JNull);
     omdb_getMovieDetails :=
       fun id => on_omdb (OMDBApi.getMovieDetails net id);
     omdb_normalizeMovieData := OMDBApi.normalizeMovieData rt |}.

Definition tmdb_ops : TmdbOps (FetcherState E) :=
  {| tmdb_searchMovies :=
       fun query =>
         on_tmdb (TMDBApi.searchMovies net query JNull (num_of_Z 1));
     tmdb_getMovieDetails :=
       fun id => on_tmdb (TMDBApi.getMovieDetails rt net id);
     tmdb_discoverMovies :=
       fun filters => on_tmdb (TMDBApi.discoverMovies net filters);
     tmdb_getGenres := on_tmdb (TMDBApi.getGenres net);
     tmdb_normalizeMovieData := TMDBApi.normalizeMovieData rt |}.

Definition imdb_ops : ImdbOps (FetcherState E) :=
  {| imdb_searchMovies := fun query => on_imdb (IMDBApi.searchMovies query);
     imdb_getMovieDetails :=
       fun id => on_imdb (IMDBApi.getMovieDetails rt net id);
     imdb_normalizeMovieData := IMDBApi.normalizeMovieData rt |}.

Definition default_apis : list JsVal := [JStr "omdb"; JStr "tmdb"].

(** [new MovieFetcher(config)]: the fetcher, and the state in which its
    adapters start.  The adapters get only their key, so each runs at
    the default rate of its class.  A truthy [enabledApis] that is not
    an array makes the constructor throw, and so does its last line,
    which joins [enabledApis], on an entry that does not convert. *)
Definition new (config : Object)
  : Exc (Fetcher (FetcherState E) * (E -> FetcherState E)) :=
  match or_else (get config "enabledApis") (JArr default_apis) with
  | JArr enabledApis =>
      let on name := arr_includes enabledApis (JStr name) in
      let omdbKey := get config "omdbApiKey" in
      let tmdbKey := get config "tmdbApiKey" in
      let imdbKey := get config "imdbApiKey" in
      (let! _ := join rt ", " enabledApis in
       Ok ({| enabledApis := enabledApis;
             omdbApi :=
               if on "omdb" && truthy omdbKey then Some omdb_ops else None;
             tmdbApi :=
               if on "tmdb" && truthy tmdbKey then Some tmdb_ops else None;
             imdbApi := if on "imdb" then Some imdb_ops else None;
             pause := fun ms t =>
                        mkState (omdb_this t) (tmdb_this t) (imdb_this t)
                                (timer net ms (outside t)) |},
          mkState (OMDBApi.new omdbKey None)
                  (TMDBApi.new tmdbKey None)
                  (IMDBApi.new (if truthy imdbKey then Some imdbKey else None)
                               None)))%exc
  | _ => Throw TypeError
  end.

End Constructor.

End MovieFetcher.

(* ===================================================================== *)
(** * index.js: the check of the configuration *)
(* ===================================================================== *)

Module Cli.








End Cli.

(* ===================================================================== *)
(** * exporters/csvExporter.js: the rows of the table *)
(* ===================================================================== *)

Module CSVExporter.

(** [getMovieHeaders()]: the [id] and the [title] of each column. *)
Definition getMovieHeaders : list (string * string) :=
  [("title", "Title");
   ("original_title", "Original Title");
   ("release_year", "Release Year");
   ("release_month", "Release Month");
   ("release_day", "Release Day");
   ("country", "Country");
   ("description", "Description");
   ("cast_names", "Cast Names");
   ("cast_roles", "Cast Roles");
   ("genre", "Genre");
   ("runtime_min", "Runtime (minutes)");
   ("is_color", "Is Color");
   ("gross_worldwide_boxoffice", "Worldwide Box Office");
   ("budget", "Budget");
   ("distribution", "Distribution");
   ("studio", "Studio");
   ("based_on", "Based On");
   ("other_titles", "Other Titles");
   ("imdb_id", "IMDB ID");
   ("imdb_rating", "IMDB Rating");
   ("tmdb_id", "TMDB ID");
   ("tmdb_rating", "TMDB Rating");
   ("director", "Director");
   ("writer", "Writer");
   ("awards", "Awards");
   ("poster_url", "Poster URL");
   ("sources", "Data Sources")].

Section Flatten.
Variable rt : Runtime.










End Flatten.

End CSVExporter.
(* ===================================================================== *)
(** * The vocabulary of the statements *)
(* ===================================================================== *)

Module Spec.

(** A cast entry on which [actor.name] does not throw. *)
Definition entry_ok (actor : JsVal) : bool :=
  match actor with
  | JUndefined | JNull => false
  | _ => true
  end.

(** The cast of the record, when it is an array, holds such entries only. *)
Definition cast_ok (r : Object) : bool :=
  forallb entry_ok (items (get r "cast")).

(** [actor.name] on such an entry. *)
Definition name_of (actor : JsVal) : JsVal := getPropOpt actor "name".

(** The incoming cast entries whose name the accumulated cast lacks. *)
Definition new_actors (accumulated incoming : list JsVal) : list JsVal :=
  filter (fun actor =>
            negb (arr_includes (map name_of accumulated) (name_of actor)))
         incoming.

(** The value of [merged[key]] after the record whose [key] holds [c] has
    been merged into a record whose [key] holds [m]. *)
Definition merged_field (key : string) (c m : JsVal) : JsVal :=
  if present c then
    if (key =? "cast") && isArray c && isArray m
    then JArr (items m ++ new_actors (items m) (items c))
    else if (key =? "other_titles") && isArray c && isArray m
    then JArr (items m ++ items c)
    else if truthy m then m else c
  else m.

(** The record has no property [key] of its own and inherits one from
    [Object.prototype]: [merged[key]] reads the inherited member. *)
Definition shadowed (merged : Object) (key : string) : bool :=
  negb (has merged key) && inherited key.

(** The value of [merged[key]] after the record whose [key] holds [c]
    has been merged into the record [merged]: a key that [merged] only
    inherits stays as it is. *)
Definition merged_value (merged : Object) (key : string) (c : JsVal)
  : JsVal :=
  if shadowed merged key then get merged key
  else merged_field key c (get merged key).

(** The field [k] of the record that a call returned. *)
Definition field_of (r : Exc (option Object)) (k : string) : JsVal :=
  match r with
  | Ok (Some o) => get o k
  | _ => JUndefined
  end.

(** Neither [null] nor [undefined]. *)
Definition non_null (v : JsVal) : bool :=
  match v with
  | JUndefined | JNull => false
  | _ => true
  end.

(** The first and the last character of a trimmed string are not white
    space. *)
Definition first_ok (s : string) : bool :=
  match s with
  | EmptyString => true
  | String c _ => negb (is_space c)
  end.

Fixpoint last_ok (s : string) : bool :=
  match s with
  | EmptyString => true
  | String c EmptyString => negb (is_space c)
  | String _ r => last_ok r
  end.

Definition trimmed (s : string) : bool := first_ok s && last_ok s.

(** A record as an adapter hands it over: the tag of the adapter under
    [source], which is neither [null] nor [undefined], and arrays under
    [cast] and [other_titles]. *)
Definition tagged (tag : string) (r : Object) : Prop :=
  get r "source" = JStr tag /\
  non_null (get r "source") = true /\
  isArray (get r "cast") = true /\
  isArray (get r "other_titles") = true.

Definition int_fields : list string :=
  ["release_year"; "release_month"; "release_day"; "runtime_min"].

Definition float_fields : list string :=
  ["budget"; "gross_worldwide_boxoffice"].

(** An integer, or an infinity: what [parseInt] returns when it is
    truthy. *)
Definition whole_or_infinite (v : JsVal) : bool :=
  isInteger v || match v with JNum (Inf _) => true | _ => false end.

(** What a record looks like after [cleanMovieData]. *)
Definition cleaned (r : Object) : Prop :=
  isArray (get r "cast") = true /\
  isArray (get r "other_titles") = true /\
  (forall f, In f int_fields ->
             truthy (get r f) = true -> whole_or_infinite (get r f) = true) /\
  (forall f, In f float_fields ->
             truthy (get r f) = true -> isNumber (get r f) = true) /\
  (forall f s, In f string_fields ->
               get r f = JStr s -> trimmed s = true).

(** The record came out of [cleanMovieData], and so looks like one. *)
Definition cleaned_by (rt : Runtime) (r : Object) : Prop :=
  (exists movie, r = clean_record rt movie) /\ cleaned r.

(** What [clean_string] leaves under the key it visits. *)
Definition clean_value (v : JsVal) : JsVal :=
  match v with
  | JStr s => JStr (trim s)
  | _ => v
  end.

(** A computation that cannot throw. *)
Definition total {S A} (m : M S A) : Prop :=
  forall s, exists s' a, m s = (s', Ok a).

(** A computation that leaves the fields of the adapter alone. *)
Definition keeps_this {E A} (m : M (Adapter * E) A) : Prop :=
  forall s, fst (fst (m s)) = fst s.

(** ** The workflows *)

(** The filters that a discovery applies to a record: the country, which
    went into the query, is taken out. *)
Definition without_country (filters : Object) : Object :=
  if truthy (get filters "country") then delete filters "country"
  else filters.




(** A value that a template literal, [join] or a number conversion
    accepts. *)
Definition printable (v : JsVal) : Prop := converts v = true.

(** A step of a discovery under which [inv] stays true of every record
    accumulated, and whose result, if it returns, satisfies [post]. *)
Definition yields {S A} (inv : Object -> Prop) (post : A -> Prop)
           (m : M (MovieFetcher.Discovery * S) A) : Prop :=
  forall t,
    Forall inv (MovieFetcher.results (fst t)) ->
    Forall inv (MovieFetcher.results (fst (fst (m t)))) /\
    (forall a, snd (m t) = Ok a -> post a).

(** The keys under which merging joins two arrays. *)
Definition joined_key (k : string) : bool :=
  (k =? "cast") || (k =? "other_titles").

(** The keys that merging and cleaning may rewrite. *)
Definition managed_fields : list string :=
  int_fields ++ float_fields ++ ["is_color"] ++ string_fields
  ++ ["cast"; "other_titles"; "sources"].

Definition managed (k : string) : bool :=
  existsb (String.eqb k) managed_fields.

(** What [cleanMovieData] makes of the value [v] held under the key [k]. *)
Definition clean_field (rt : Runtime) (k : string) (v : JsVal) : JsVal :=
  if existsb (String.eqb k) int_fields then
    if truthy v then parseInt_val rt v else v
  else if existsb (String.eqb k) float_fields then
    if truthy v then parseFloat_val rt v else v
  else if k =? "is_color" then
    if non_null v then JBool (truthy v) else v
  else if existsb (String.eqb k) string_fields then clean_value v
  else if joined_key k then
    if isArray v then v else JArr []
  else v.

(** The record passes the filters of a discovery. *)
Definition passes (rt : Runtime) (filters r : Object) : Prop :=
  matchesFilters rt r (without_country filters) = Ok true.

(** A record that one of the three normalisers returned. *)
Definition normalised (rt : Runtime) (r : Object) : Prop :=
  exists payload,
    OMDBApi.normalizeMovieData rt payload = Ok (Some r) \/
    TMDBApi.normalizeMovieData rt payload = Ok (Some r) \/
    IMDBApi.normalizeMovieData rt payload = Ok (Some r).

(** ** The filter predicate and the helpers *)


(** A string, or a value that an [if] skips. *)
Definition text_or_falsy (v : JsVal) : bool :=
  match v with
  | JStr _ => true
  | _ => negb (truthy v)
  end.


(** Every character of the string satisfies [p]. *)
Fixpoint all_chars (p : ascii -> bool) (s : string) : bool :=
  match s with
  | EmptyString => true
  | String c r => p c && all_chars p r
  end.

Definition not_upper (c : ascii) : bool := negb (is_upper c).





(** ** The records of the OMDB adapter *)

(** [null], or a number that is not [NaN]. *)
Definition number_or_null (v : JsVal) : bool :=
  match v with
  | JNull => true
  | JNum NaN => false
  | JNum _ => true
  | _ => false
  end.

(** A string, [null] or [undefined]. *)
Definition text_or_absent (v : JsVal) : bool :=
  match v with
  | JStr _ | JNull | JUndefined => true
  | _ => false
  end.

(** The fields that the adapter fills through [parseNumeric]. *)
Definition omdb_numeric_fields : list string :=
  ["runtime_min"; "gross_worldwide_boxoffice"; "budget"; "imdb_rating";
   "imdb_vote_count"; "metascore"].

(** The fields that the adapter guards with [!== 'N/A']. *)
Definition omdb_guarded_fields : list string :=
  ["country"; "description"; "genre"; "studio"; "director"; "writer";
   "awards"; "poster_url"; "language"; "rated"; "dvd_release"; "website"].

(** A cast entry as the OMDB adapter builds it: a name that is not empty
    and carries no white space at either end, and no role. *)
Definition omdb_cast_entry (actor : JsVal) : Prop :=
  exists name,
    actor = JObj [("name", JStr name); ("role", JNull)] /\
    name <> "" /\ trimmed name = true.

(** ** The adapters *)

(** The stamp of [this'] is at least one delay after the stamp of
    [this], and the delay is the same. *)
Definition spaced (this this' : Adapter) : Prop :=
  lastRequestTime this + rateLimitDelay this <= lastRequestTime this' /\
  rateLimitDelay this' = rateLimitDelay this.

(** A request that went out: when, where to and with what. *)
Record Sent : Type := mkSent {
  sent_at : Q;
  sent_url : string;
  sent_config : Object
}.

(** The network [net], keeping a log of the requests it is asked to
    send. *)
Definition logged {E} (net : Network E) : Network (list Sent * E) :=
  {| clock := fun w => clock net (snd w);
     timer := fun ms w => (fst w, timer net ms (snd w));
     axios_get := fun url config w =>
       let '(e', r) := axios_get net url config (snd w) in
       ((fst w ++ [mkSent (clock net (snd w)) url config], e'), r) |}.


(** A step that leaves the adapter and the world alone. *)
Definition still {T A} (m : M T A) : Prop := forall s, fst (m s) = s.

(** What follows the opening of a [rateLimitedRequest]: the adapter
    stays as it is, and one request at most goes out, at once. *)
Definition direct {E A} (net : Network E)
           (m : M (Adapter * (list Sent * E)) A) : Prop :=
  forall (this : Adapter) (log : list Sent) (e : E),
    let after := fst (m (this, (log, e))) in
    fst after = this /\
    (fst (snd after) = log \/
     exists url config,
       fst (snd after) = log ++ [mkSent (clock net e) url config]).




(** The parameters that a discovery query must not carry: the adapter
    of the source knows none of them. *)
Definition unsent_parameters : list string :=
  ["release_date.gte"; "release_date.lte"; "primary_release_date.gte";
   "primary_release_date.lte"; "region"].

(** [id] with the prefix [tt] put before it, unless it is there. *)
Definition with_tt (id : string) : string :=
  if startsWith id "tt" then id else ("tt" ++ id)%string.

(** ** The rows of the CSV table *)





End Spec.
Export Spec.

(* ===================================================================== *)
(** * Sample runtimes, servers and records *)
(* ===================================================================== *)

Module Samples.

(** ** A runtime for decimal input *)

Fixpoint leading_digits (s : string) (acc : option Z) : option Z :=
  match s with
  | EmptyString => acc
  | String c r =>
      let n := Z.of_nat (nat_of_ascii c) in
      if (48 <=? n)%Z && (n <=? 57)%Z then
        leading_digits r
          (Some (10 * (match acc with Some a => a | None => 0 end) + (n - 48))%Z)
      else acc
  end.

(** The integers from [2^1024] on are beyond the range of a number. *)
Definition in_range (z : Z) : bool := (z <? 2 ^ 1024)%Z.

Definition sample_parseInt (v : JsVal) : Parsed :=
  match v with
  | JStr s =>
      match leading_digits (trimStart s) None with
      | Some z => if in_range z then Integer z else Infinite false
      | None => NotANumber
      end
  | JNum (Fin q) => Integer (Qfloor q)
  | _ => NotANumber
  end.

Definition sample_parseFloat (v : JsVal) : JsNum :=
  match v with
  | JNum n => n
  | _ =>
      match sample_parseInt v with
      | Integer z => Fin (inject_Z z)
      | Infinite negative => Inf negative
      | NotANumber => NaN
      end
  end.

Definition sample_rt : Runtime :=
  {| Date_local := fun _ _ _ => None;
     Date_parse := fun _ => None;
     Date_fields := fun _ => (0, 0, 0)%Z;
     parseInt := sample_parseInt;
     parseFloat := sample_parseFloat;
     ToString := fun _ => "";
     ToNumber := fun v => sample_parseFloat v |}.

(** ** A scripted world: a clock and the log of the requests sent *)

Record World : Type := mkWorld {
  time : Q;
  requests : list (string * Object)
}.

(** A timer that fires exactly on time and a server that answers at once. *)
Definition network (server : string -> Object -> HttpResult) : Network World :=
  {| clock := time;
     timer := fun ms w =>
                mkWorld (if Qle_bool 0 ms then time w + ms else time w)%Q
                        (requests w);
     axios_get := fun url config w =>
                    (mkWorld (time w) (requests w ++ [(url, config)]),
                     server url config) |}.

(** The value of [params.page] in each request sent. *)
Definition pages_requested (w : World) : list JsVal :=
  map (fun r => getPropOpt (get (snd r) "params") "page") (requests w).

(** A discovery source with ten nominal pages and no result on any. *)
Definition empty_pages : string -> Object -> HttpResult :=
  fun url config =>
    Response (JObj [("page", getPropOpt (get config "params") "page");
                    ("results", JArr []);
                    ("total_pages", num_of_Z 10);
                    ("total_results", num_of_Z 0)]).

(** A source that refuses every connection. *)
Definition refused : string -> Object -> HttpResult :=
  fun _ _ => Rejected "ECONNREFUSED" "connect ECONNREFUSED".

(** A source that answers 200 with its "not found" body. *)
Definition not_found : string -> Object -> HttpResult :=
  fun _ _ =>
    Response (JObj [("Response", JStr "False");
                    ("Error", JStr "Movie not found!")]).

Definition connection_refused : JsError :=
  AxiosError "ECONNREFUSED" "connect ECONNREFUSED".

Definition tmdb_config : Object :=
  [("enabledApis", JArr [JStr "tmdb"]); ("tmdbApiKey", JStr "k")].

(** [discoverMovies(filters)] of a fetcher with the discovery source only,
    against a server: the pages it asked for and what it returned. *)
Definition discover_on (server : string -> Object -> HttpResult)
           (filters : Object) : list JsVal * Exc (list Object) :=
  match MovieFetcher.new sample_rt (network server) tmdb_config with
  | Ok (fetcher, start) =>
      let '(s, r) :=
        MovieFetcher.discoverMovies sample_rt fetcher filters None
          (start (mkWorld 1000000 [])) in
      (pages_requested (MovieFetcher.outside s), r)
  | Throw e => ([], Throw e)
  end.

Definition ten_pages : Object := [("maxPages", num_of_Z 10)].

Definition omdb_config : Object :=
  [("enabledApis", JArr [JStr "omdb"]); ("omdbApiKey", JStr "k")].

(** [fetchMoviesByTitles(titles, filters)] of a fetcher built from
    [config], against a server: the number of requests sent and what the
    call returned. *)
Definition fetch_on (server : string -> Object -> HttpResult)
           (config : Object) (titles : list JsVal) (filters : Object)
  : nat * Exc (list Object) :=
  match MovieFetcher.new sample_rt (network server) config with
  | Ok (fetcher, start) =>
      let '(s, r) :=
        MovieFetcher.fetchMoviesByTitles sample_rt fetcher titles filters
          (start (mkWorld 1000000 [])) in
      (List.length (requests (MovieFetcher.outside s)), r)
  | Throw e => (0%nat, Throw e)
  end.

(** The titles of the records that a workflow returned. *)
Definition titles_of (r : Exc (list Object)) : list JsVal :=
  match r with
  | Ok l => map (fun o => get o "title") l
  | Throw _ => []
  end.


(** The values under the key [k] of the records that a workflow
    returned. *)
Definition column (k : string) (r : Exc (list Object)) : list JsVal :=
  match r with
  | Ok l => map (fun o => get o k) l
  | Throw _ => []
  end.

(** An object whose [toString] is no function. *)
Definition odd_title : JsVal := JObj [("toString", num_of_Z 1)].

Fixpoint nines (n : nat) : string :=
  match n with
  | O => EmptyString
  | Datatypes.S k => String "9" (nines k)
  end.

(** A source that finds one film for every search and gives its runtime
    as a text of four hundred digits. *)
Definition long_runtime_server : string -> Object -> HttpResult :=
  fun url _ =>
    if includes url "/search/movie"
    then Response (JObj [("results", JArr [JObj [("id", num_of_Z 1)]])])
    else Response (JObj [("title", JStr "Ida");
                         ("runtime", JStr (nines 400))]).

(** Two calls of [request] through one adapter, the second made [gap]
    milliseconds after the first returned: the distance between the two
    time stamps that the adapter recorded, and the number of requests
    that went out. *)
Definition two_calls (request : M (Adapter * World) JsVal) (this : Adapter)
           (gap : Q) : Q * nat :=
  let '((a1, w1), _) := request (this, mkWorld 1000000 []) in
  let later := mkWorld (time w1 + gap)%Q (requests w1) in
  let '((a2, w2), _) := request (a1, later) in
  ((lastRequestTime a2 - lastRequestTime a1)%Q, List.length (requests w2)).

Definition tmdb_request : M (Adapter * World) JsVal :=
  TMDBApi.rateLimitedRequest (network empty_pages) "/genre/movie/list" [].

Definition omdb_request : M (Adapter * World) JsVal :=
  OMDBApi.rateLimitedRequest (network empty_pages) [("t", JStr "Ida")].

(** [getMovieDetails] of each adapter against a server. *)
Definition omdb_lookup (server : string -> Object -> HttpResult) : Exc JsVal :=
  snd (OMDBApi.getMovieDetails (network server) (JStr "tt0000001")
         (OMDBApi.new (JStr "k") None, mkWorld 1000000 [])).

Definition tmdb_lookup (server : string -> Object -> HttpResult) : Exc JsVal :=
  snd (TMDBApi.getMovieDetails sample_rt (network server) (JStr "42")
         (TMDBApi.new (JStr "k") None, mkWorld 1000000 [])).

Definition imdb_lookup (server : string -> Object -> HttpResult) : Exc JsVal :=
  snd (IMDBApi.getMovieDetails sample_rt (network server) (JStr "tt0000001")
         (IMDBApi.new None None, mkWorld 1000000 [])).

Definition not_found_body : JsVal :=
  JObj [("Response", JStr "False"); ("Error", JStr "Movie not found!")].

(** The adapter of the discovery source as [new MovieFetcher] creates it. *)
Definition fetcher_tmdb : option Adapter :=
  match MovieFetcher.new sample_rt (network empty_pages) tmdb_config with
  | Ok (_, start) => Some (MovieFetcher.tmdb_this (start (mkWorld 0 [])))
  | Throw _ => None
  end.

(** ** Payloads *)

Definition omdb_payload : JsVal :=
  JObj [("Title", JStr "Ida"); ("Released", JStr "N/A");
        ("Actors", JStr "Agata Kulesza, Agata Trzebuchowska");
        ("Runtime", JStr "82 min"); ("Country", JStr "Poland");
        ("Genre", JStr "Drama"); ("imdbID", JStr "tt2718492");
        ("Response", JStr "True")].

Definition tmdb_payload : JsVal :=
  JObj [("id", num_of_Z 209274); ("title", JStr "Ida");
        ("credits",
         JObj [("cast", JArr [JObj [("name", JStr "Agata Kulesza");
                                    ("character", JStr "Wanda")]])]);
        ("genres", JArr [JObj [("id", num_of_Z 18); ("name", JStr "Drama")]]);
        ("alternative_titles",
         JObj [("titles", JArr [JObj [("iso_3166_1", JStr "FR");
                                      ("title", JStr "Ida")]])])].

(** A server that knows one film, with white space around its title. *)
Definition ida_server : string -> Object -> HttpResult :=
  fun _ _ =>
    Response (JObj [("Title", JStr "  Ida "); ("Response", JStr "True")]).

(** A payload that has nothing but a title. *)
Definition imdb_payload : JsVal :=
  JObj [("id", JStr "tt2718492"); ("primaryTitle", JStr "Ida")].

(** The record that a call returned, if it returned one. *)
Definition record_of (r : Exc (option Object)) : Object :=
  match r with
  | Ok (Some o) => o
  | _ => []
  end.

(** ** Records *)

Definition actor (name : string) : JsVal := JObj [("name", JStr name)].

Definition polish_drama : Object :=
  [("title", JStr "Ida"); ("country", JStr "Poland"); ("genre", JStr "Drama")].

Definition polska_drama : Object :=
  [("title", JStr "Ida"); ("country", JStr "Polska"); ("genre", JStr "Drama")].

Definition poland_action : Object :=
  [("country", JStr "poland"); ("genre", JStr "Action")].

Definition pl_action : Object :=
  [("country", JStr "pl"); ("genre", JStr "Action")].

Definition alpha : Object :=
  [("title", JStr "Alpha"); ("budget", JNull);
   ("cast", JArr [actor "A"]); ("source", JStr "OMDB")].

Definition beta : Object :=
  [("title", JStr "Beta"); ("budget", num_of_Z 5000000);
   ("cast", JArr [actor "A"; actor "B"]); ("source", JStr "TMDB")].

(** A record with a field named as a member of [Object.prototype]. *)
Definition gamma : Object :=
  [("title", JStr "Gamma"); ("constructor", JStr "Lem");
   ("source", JStr "IMDB")].

(** [mergeMovieData([alpha])] *)
Definition alpha_merged : Object :=
  [("title", JStr "Alpha"); ("budget", JNull);
   ("cast", JArr [actor "A"]); ("source", JStr "OMDB");
   ("sources", JArr [JStr "OMDB"])].

Definition zero_runtime : Object :=
  [("runtime_min", num_of_Z 0); ("source", JStr "TMDB")].

Definition long_runtime : Object :=
  [("runtime_min", num_of_Z 120); ("source", JStr "OMDB")].

Definition untagged : Object :=
  [("title", JStr "Alpha"); ("source", JStr "")].

(** A record as it may come in: text where numbers are expected, and
    white space around the title. *)
Definition raw_record : Object :=
  [("title", JStr "  Ida "); ("release_year", JStr "2013");
   ("budget", JStr "2000000"); ("imdb_id", JStr "tt2718492")].





Definition french_title : JsVal :=
  JObj [("title", JStr "Ida"); ("country", JStr "FR")].

Definition with_french_title : Object :=
  [("title", JStr "Ida"); ("other_titles", JArr [french_title]);
   ("source", JStr "TMDB")].

(** [mergeMovieData([with_french_title])] *)
Definition with_french_title_merged : Object :=
  [("title", JStr "Ida"); ("other_titles", JArr [french_title]);
   ("source", JStr "TMDB"); ("sources", JArr [JStr "TMDB"])].

Definition since_2020 : Object := [("startDate", JStr "2020-01-01")].

Definition six_ids : list string :=
  ["tt0000001"; "0000002"; "tt0000003"; "0000004"; "tt0000005"; "0000006"].


Definition one_genre : Object :=
  [("genres", JStr "Drama"); ("minRating", num_of_Z 7)].


End Samples.

(* ===================================================================== *)
(** * Properties *)
(* ===================================================================== *)

Import MovieFetcher Samples.

(** ** Objects *)

Lemma get_set (o : Object) (k k' : string) (v : JsVal) :
  get (set o k v) k' = if k =? k' then v else get o k'.
Proof.
  induction o as [|[k0 v0] o IH]; simpl.
  - reflexivity.
  - destruct (String.eqb_spec k0 k) as [->|Hne]; simpl.
    + destruct (k =? k'); reflexivity.
    + rewrite IH.
      destruct (String.eqb_spec k0 k') as [->|Hne']; [|reflexivity].
      destruct (String.eqb_spec k k') as [->|_]; [congruence|reflexivity].
Qed.

Lemma get_set_same (o : Object) (k : string) (v : JsVal) :
  get (set o k v) k = v.
Proof. rewrite get_set, String.eqb_refl. reflexivity. Qed.

Lemma get_set_other (o : Object) (k k' : string) (v : JsVal) :
  k <> k' -> get (set o k v) k' = get o k'.
Proof.
  intros H. rewrite get_set.
  destruct (String.eqb_spec k k'); [contradiction|reflexivity].
Qed.

Lemma keys_In (o : Object) (k : string) :
  In k (keys o) <-> In k (map fst o).
Proof.
  induction o as [|[k0 v0] o IH]; simpl; [tauto|].
  rewrite filter_In, IH.
  destruct (String.eqb_spec k0 k) as [->|Hne]; simpl; intuition congruence.
Qed.

Lemma keys_NoDup (o : Object) : NoDup (keys o).
Proof.
  induction o as [|[k0 v0] o IH]; simpl; constructor.
  - rewrite filter_In, String.eqb_refl. simpl. intros [_ H]. discriminate.
  - apply NoDup_filter, IH.
Qed.

Lemma get_absent (o : Object) (k : string) :
  ~ In k (keys o) -> get o k = JUndefined.
Proof.
  rewrite keys_In.
  induction o as [|[k0 v0] o IH]; simpl; intros H; [reflexivity|].
  destruct (String.eqb_spec k0 k) as [->|Hne]; [tauto|].
  apply IH. tauto.
Qed.

Lemma has_set (o : Object) (k k' : string) (v : JsVal) :
  has (set o k v) k' = (k =? k') || has o k'.
Proof.
  induction o as [|[k0 v0] o IH]; simpl.
  - now rewrite orb_false_r.
  - destruct (String.eqb_spec k0 k) as [->|Hne]; simpl.
    + destruct (String.eqb_spec k k'); reflexivity.
    + rewrite IH.
      destruct (String.eqb_spec k0 k') as [->|Hne']; [|reflexivity].
      now rewrite orb_true_r.
Qed.

Lemma has_set_other (o : Object) (k k' : string) (v : JsVal) :
  k <> k' -> has (set o k v) k' = has o k'.
Proof.
  intros H. rewrite has_set.
  destruct (String.eqb_spec k k'); [contradiction|reflexivity].
Qed.

Lemma get_without (o : Object) (k : string) :
  has o k = false -> get o k = JUndefined.
Proof.
  induction o as [|[k0 v0] o IH]; simpl; [reflexivity|].
  destruct (k0 =? k); simpl; [discriminate|exact IH].
Qed.

Lemma shadowed_get (o : Object) (k : string) :
  shadowed o k = true -> get o k = JUndefined.
Proof.
  unfold shadowed. intros H. apply andb_true_iff in H as [H _].
  apply get_without. now destruct (has o k).
Qed.

Lemma merged_value_plain (o : Object) (k : string) (c : JsVal) :
  inherited k = false -> merged_value o k c = merged_field k c (get o k).
Proof.
  intros H. unfold merged_value, shadowed. now rewrite H, andb_false_r.
Qed.

(** ** Truthiness *)

Lemma truthy_not_null (v : JsVal) :
  truthy v = true ->
  strict_eq v JNull = false /\ strict_eq v (JStr "") = false.
Proof.
  destruct v as [| |b|n|s|l|o]; simpl; intros H; try discriminate; auto.
  split; [reflexivity|]. now destruct (s =? "").
Qed.


(** ** Merging one record into the accumulated one *)

Lemma actor_name_ok (a : JsVal) :
  entry_ok a = true -> actor_name a = Ok (name_of a).
Proof. destruct a; simpl; intros H; try discriminate; reflexivity. Qed.

Lemma emapM_actor_name (l : list JsVal) :
  forallb entry_ok l = true -> emapM actor_name l = Ok (map name_of l).
Proof.
  induction l as [|a l IH]; simpl; [reflexivity|].
  intros H. apply andb_true_iff in H as [Ha Hl].
  rewrite (actor_name_ok a Ha), (IH Hl). reflexivity.
Qed.

Lemma efilterM_new_actors (names l : list JsVal) :
  forallb entry_ok l = true ->
  efilterM (fun actor =>
              (let! n := actor_name actor in
               Ok (negb (arr_includes names n)))%exc) l
  = Ok (filter (fun actor => negb (arr_includes names (name_of actor))) l).
Proof.
  induction l as [|a l IH]; simpl; [reflexivity|].
  intros H. apply andb_true_iff in H as [Ha Hl].
  rewrite (actor_name_ok a Ha), (IH Hl). simpl.
  destruct (negb (arr_includes names (name_of a))); reflexivity.
Qed.

Lemma efold_app {A B} (f : A -> B -> Exc A) (l1 l2 : list B) (a : A) :
  efold f (l1 ++ l2) a = ebind (efold f l1 a) (efold f l2).
Proof.
  revert a. induction l1 as [|x l1 IH]; intros a; simpl; [reflexivity|].
  destruct (f a x); simpl; [apply IH|reflexivity].
Qed.

(** One key: the step succeeds and changes that key only. *)
Lemma mergeKey_spec (cur merged : Object) (key : string) :
  (key = "cast" -> cast_ok merged = true /\ cast_ok cur = true) ->
  exists m',
    mergeKey cur merged key = Ok m' /\
    (forall k,
        get m' k = if key =? k
                   then merged_value merged key (get cur key)
                   else get merged k) /\
    (forall k, key <> k -> has m' k = has merged k).
Proof.
  intros Hcast. unfold mergeKey, merged_value, merged_field.
  fold (shadowed merged key).
  set (c := get cur key). set (m := get merged key).
  assert (Hsame : forall k (x : JsVal),
             x = m -> get merged k = if key =? k then x else get merged k).
  { intros k x ->. destruct (String.eqb_spec key k) as [<-|_]; reflexivity. }
  destruct (shadowed merged key) eqn:Hs.
  { exists merged. split; [now destruct (present c)|].
    split; [|reflexivity]. intros k. now apply Hsame. }
  destruct (present c) eqn:Hp;
    [|eexists; split; [reflexivity|]; split; [|reflexivity];
      intros k; now apply Hsame].
  destruct ((key =? "cast") && isArray c && isArray m) eqn:Hc.
  - apply andb_true_iff in Hc as [Hc Hm].
    apply andb_true_iff in Hc as [Hk Hc].
    apply String.eqb_eq in Hk.
    destruct (Hcast Hk) as [Hom Hoc]. unfold cast_ok in Hom, Hoc.
    rewrite <- Hk in Hom, Hoc. fold m in Hom. fold c in Hoc.
    rewrite (emapM_actor_name _ Hom). simpl.
    rewrite (efilterM_new_actors _ _ Hoc). simpl.
    eexists; split; [reflexivity|]. split.
    + intros k. rewrite get_set. reflexivity.
    + intros k Hk'. now apply has_set_other.
  - destruct ((key =? "other_titles") && isArray c && isArray m) eqn:Ho.
    + eexists; split; [reflexivity|]. split.
      * intros k. now rewrite get_set.
      * intros k Hk'. now apply has_set_other.
    + destruct (truthy m) eqn:Ht; simpl.
      * destruct (truthy_not_null m Ht) as [-> ->]. simpl.
        eexists; split; [reflexivity|]. split; [|reflexivity].
        intros k. now apply Hsame.
      * eexists; split; [reflexivity|]. split.
        -- intros k. now rewrite get_set.
        -- intros k Hk'. now apply has_set_other.
Qed.

(** The [forEach] over a duplicate-free list of keys. *)
Lemma efold_mergeKey (cur : Object) (ks : list string) :
  NoDup ks ->
  forall merged,
    (In "cast" ks -> cast_ok merged = true /\ cast_ok cur = true) ->
    exists m',
      efold (mergeKey cur) ks merged = Ok m' /\
      forall k,
        (In k ks -> get m' k = merged_value merged k (get cur k)) /\
        (~ In k ks -> get m' k = get merged k).
Proof.
  induction 1 as [|key ks Hnotin Hnd IH]; intros merged Hcast; simpl.
  - eexists; split; [reflexivity|]. intros k; split; tauto.
  - destruct (mergeKey_spec cur merged key) as [m1 [Hstep [Hget Hhas]]].
    { intros ->. apply Hcast. now left. }
    rewrite Hstep. simpl.
    destruct (IH m1) as [m' [Hfold Hrest]].
    { intros Hin. destruct (Hcast (or_intror Hin)) as [Hm Hc].
      split; [|exact Hc]. unfold cast_ok in *. rewrite Hget.
      destruct (String.eqb_spec key "cast") as [->|_]; [tauto|exact Hm]. }
    exists m'. split; [exact Hfold|]. intros k.
    destruct (Hrest k) as [Hin Hout]. split.
    + intros [->|Hk].
      * rewrite (Hout Hnotin), Hget, String.eqb_refl. reflexivity.
      * rewrite (Hin Hk). unfold merged_value, shadowed.
        assert (Hne : key <> k) by (intros ->; tauto).
        rewrite (Hhas k Hne), Hget.
        destruct (String.eqb_spec key k) as [->|_]; [tauto|reflexivity].
    + intros Hk. rewrite Hout by tauto. rewrite Hget.
      destruct (String.eqb_spec key k) as [->|_]; [|reflexivity].
      exfalso. apply Hk. now left.
Qed.

Lemma merged_field_absent (k : string) (m : JsVal) :
  merged_field k JUndefined m = m.
Proof. reflexivity. Qed.

Lemma merged_value_absent (o : Object) (k : string) :
  merged_value o k JUndefined = get o k.
Proof. unfold merged_value. now destruct (shadowed o k). Qed.

(** One turn of the loop of [mergeMovieData], field by field. *)
Lemma mergeInto_spec (merged cur : Object) :
  cast_ok merged = true -> cast_ok cur = true ->
  exists m',
    mergeInto merged cur = Ok m' /\
    forall k, get m' k = merged_value merged k (get cur k).
Proof.
  intros Hm Hc. unfold mergeInto.
  destruct (efold_mergeKey cur (keys cur) (keys_NoDup cur) merged)
    as [m' [Hfold Hget]]; [tauto|].
  exists m'. split; [exact Hfold|]. intros k.
  destruct (in_dec string_dec k (keys cur)) as [Hin|Hout].
  - now apply Hget.
  - rewrite (proj2 (Hget k) Hout), (get_absent cur k Hout).
    now rewrite merged_value_absent.
Qed.

Lemma forallb_new_actors (a c : list JsVal) :
  forallb entry_ok c = true -> forallb entry_ok (new_actors a c) = true.
Proof.
  intros H. apply forallb_forall. intros x Hx.
  apply filter_In in Hx as [Hx _].
  rewrite forallb_forall in H. now apply H.
Qed.

Lemma merged_field_cast_ok (c m : JsVal) :
  forallb entry_ok (items c) = true -> forallb entry_ok (items m) = true ->
  forallb entry_ok (items (merged_field "cast" c m)) = true.
Proof.
  intros Hc Hm. unfold merged_field.
  destruct (present c); [|exact Hm].
  destruct (("cast" =? "cast") && isArray c && isArray m).
  - simpl. rewrite forallb_app, Hm. now apply forallb_new_actors.
  - simpl. destruct (truthy m); assumption.
Qed.

Lemma mergeInto_cast_ok (merged cur m' : Object) :
  cast_ok merged = true -> cast_ok cur = true ->
  mergeInto merged cur = Ok m' -> cast_ok m' = true.
Proof.
  intros Hm Hc Hrun.
  destruct (mergeInto_spec merged cur Hm Hc) as [m1 [Hrun1 Hget]].
  rewrite Hrun in Hrun1. injection Hrun1 as <-.
  unfold cast_ok. rewrite Hget, merged_value_plain by reflexivity.
  now apply merged_field_cast_ok.
Qed.

(** The loop over well-formed records runs to its end. *)
Lemma efold_mergeInto_total (rest : list Object) :
  forall first,
    cast_ok first = true -> forallb cast_ok rest = true ->
    exists merged,
      efold mergeInto rest first = Ok merged /\ cast_ok merged = true.
Proof.
  induction rest as [|cur rest IH]; intros first Hf Hr; simpl.
  - eauto.
  - simpl in Hr. apply andb_true_iff in Hr as [Hc Hr].
    destruct (mergeInto_spec first cur Hf Hc) as [m1 [Hrun _]].
    rewrite Hrun. simpl. apply IH; [|exact Hr].
    now apply (mergeInto_cast_ok first cur).
Qed.

Lemma cast_ok_set_sources (o : Object) (v : JsVal) :
  cast_ok (set o "sources" v) = cast_ok o.
Proof. unfold cast_ok. now rewrite get_set_other. Qed.

(** What [mergeMovieData] does with one more record at the end of its
    input: every field but [sources] is merged into the result for the
    shorter input. *)
Lemma merge_snoc (rs : list Object) (cur acc : Object) :
  mergeMovieData (Some rs) = Ok (Some acc) ->
  cast_ok acc = true -> cast_ok cur = true ->
  exists m,
    mergeMovieData (Some (rs ++ [cur])) = Ok (Some m) /\
    get m "sources" = JArr (sources_of (rs ++ [cur])) /\
    forall k, k <> "sources" ->
              get m k = merged_value acc k (get cur k).
Proof.
  destruct rs as [|first rest]; simpl; [discriminate|].
  intros Hacc Hok Hcur.
  destruct (efold mergeInto rest first) as [merged0|e] eqn:Hloop;
    simpl in Hacc; [|discriminate].
  injection Hacc as <-. rewrite cast_ok_set_sources in Hok.
  rewrite efold_app, Hloop. simpl.
  destruct (mergeInto_spec merged0 cur Hok Hcur) as [m1 [Hrun Hget]].
  rewrite Hrun. simpl. eexists. split; [reflexivity|]. split.
  - now rewrite get_set_same.
  - intros k Hk. rewrite get_set_other by congruence. rewrite Hget.
    unfold merged_value, shadowed.
    rewrite has_set_other, get_set_other by congruence. reflexivity.
Qed.

(** ** The filter predicate *)

(** C1.  A record whose country contains the filter's country passes
    [matchesFilters] without its genre being looked at: the Polish drama
    is accepted under the filter {country: "poland", genre: "Action"},
    although the genre test on its own rejects it, and although the same
    record reached through the country-code table is rejected. *)
Theorem direct_country_match_skips_genre (rt : Runtime) :
  matchesFilters rt polish_drama poland_action = Ok true /\
  genre_block polish_drama poland_action = Ok (Return false) /\
  matchesFilters rt polska_drama pl_action = Ok false.
Proof. repeat split. Qed.

(** The early return, in general: with no date bound, a direct country
    match decides alone. *)
Lemma direct_country_match_decides (rt : Runtime) (movie filters : Object)
      (movieCountry filterCountry : string) :
  truthy (or_else (get filters "startDate") (get filters "endDate")) = false ->
  get movie "country" = JStr movieCountry ->
  get filters "country" = JStr filterCountry ->
  filterCountry <> "" ->
  includes (toLowerCase movieCountry) (toLowerCase filterCountry) = true ->
  matchesFilters rt movie filters = Ok true.
Proof.
  intros Hd Hm Hf Hne Hin. unfold matchesFilters, date_block.
  rewrite Hd. unfold country_block. rewrite Hf, Hm. simpl.
  destruct (String.eqb_spec filterCountry "") as [->|_]; [congruence|]. simpl.
  destruct (movieCountry =? "") eqn:He; simpl.
  - apply String.eqb_eq in He. subst movieCountry. simpl in Hin.
    now rewrite Hin.
  - now rewrite Hin.
Qed.

(** ** mergeMovieData: precedence, provenance and cast *)

(** C4 (amended).  When one more record is merged, a field that the
    record holds as a present value that is not an array takes the
    incoming value exactly when the accumulated value is falsy ([null],
    [undefined], the empty string, but also [0], [NaN] and [false]);
    a truthy accumulated value stays.  This holds for every key that the
    accumulated record has of its own or that [Object.prototype] does
    not define.  Under a name of [Object.prototype] that the accumulated
    record lacks ([constructor], [toString], ...) the test reads the
    inherited member, which is truthy, and the incoming value is not
    adopted: the merged record gets no value of its own there. *)
Theorem merge_first_truthy_wins (rs : list Object) (cur acc : Object)
        (key : string) :
  mergeMovieData (Some rs) = Ok (Some acc) ->
  cast_ok acc = true -> cast_ok cur = true ->
  key <> "sources" ->
  present (get cur key) = true -> isArray (get cur key) = false ->
  exists m,
    mergeMovieData (Some (rs ++ [cur])) = Ok (Some m) /\
    (has acc key = true \/ inherited key = false ->
     get m key = if truthy (get acc key) then get acc key else get cur key) /\
    (has acc key = false -> inherited key = true -> get m key = JUndefined).
Proof.
  intros Hacc Hok Hcur Hkey Hp Harr.
  destruct (merge_snoc rs cur acc Hacc Hok Hcur) as [m [Hm [_ Hget]]].
  exists m. split; [exact Hm|].
  rewrite (Hget key Hkey). unfold merged_value, shadowed, merged_field.
  rewrite Hp, Harr, !andb_false_r. split.
  - intros [-> | ->]; [reflexivity|]. now rewrite andb_false_r.
  - intros Hh Hi. rewrite Hh, Hi. simpl. now apply get_without.
Qed.

Lemma merge_first_truthy_wins_witness :
  mergeMovieData (Some [alpha]) = Ok (Some alpha_merged) /\
  (exists m,
      mergeMovieData (Some ([alpha] ++ [beta])) = Ok (Some m) /\
      get m "budget" = num_of_Z 5000000) /\
  (exists m,
      mergeMovieData (Some ([alpha] ++ [gamma])) = Ok (Some m) /\
      get m "constructor" = JUndefined).
Proof.
  split; [reflexivity|]. split.
  - destruct (merge_first_truthy_wins [alpha] beta alpha_merged "budget")
      as [m [Hm [Hown _]]];
      [reflexivity | reflexivity | reflexivity | discriminate
       | reflexivity | reflexivity |].
    exists m. split; [exact Hm|]. apply Hown. now left.
  - destruct (merge_first_truthy_wins [alpha] gamma alpha_merged
                "constructor") as [m [Hm [_ Hinherited]]];
      [reflexivity | reflexivity | reflexivity | discriminate
       | reflexivity | reflexivity |].
    exists m. split; [exact Hm|]. now apply Hinherited.
Defined.

(** The two cases that the specification singles out. *)
Example merge_keeps_first_title :
  field_of (mergeMovieData (Some [alpha; beta])) "title" = JStr "Alpha".
Proof. reflexivity. Qed.

Example merge_fills_missing_budget :
  field_of (mergeMovieData (Some [alpha; beta])) "budget" = num_of_Z 5000000.
Proof. reflexivity. Qed.

(** An accumulated [0] is replaced, although it is neither [null] nor
    [undefined] nor the empty string. *)
Lemma merge_replaces_zero :
  field_of (mergeMovieData (Some [zero_runtime; long_runtime])) "runtime_min"
  = num_of_Z 120 /\
  get zero_runtime "runtime_min" = num_of_Z 0 /\
  get long_runtime "runtime_min" = num_of_Z 120 /\
  strict_eq (num_of_Z 0) JNull = false /\
  strict_eq (num_of_Z 0) JUndefined = false /\
  strict_eq (num_of_Z 0) (JStr "") = false.
Proof. repeat split. Qed.

(** C5 (amended).  [mergeMovieData] returns [null] for a missing or an
    empty array; for a non-empty array of records it returns a record
    whose [sources] is the list of the inputs' [source] tags in input
    order, the falsy ones dropped ([null], [undefined], but also the
    empty string, [0], [NaN] and [false]). *)
Theorem merge_sources :
  mergeMovieData None = Ok None /\
  mergeMovieData (Some []) = Ok None /\
  forall rs : list Object,
    rs <> [] -> forallb cast_ok rs = true ->
    exists m,
      mergeMovieData (Some rs) = Ok (Some m) /\
      get m "sources"
      = JArr (filter truthy (map (fun data => get data "source") rs)).
Proof.
  split; [reflexivity|]. split; [reflexivity|].
  intros [|first rest] Hne Hok; [congruence|].
  simpl in Hok. apply andb_true_iff in Hok as [Hf Hr].
  destruct (efold_mergeInto_total rest first Hf Hr) as [merged [Hloop _]].
  unfold mergeMovieData. rewrite Hloop. simpl.
  eexists. split; [reflexivity|]. now rewrite get_set_same.
Qed.

Lemma merge_sources_witness :
  exists m,
    mergeMovieData (Some [alpha; beta]) = Ok (Some m) /\
    get m "sources" = JArr [JStr "OMDB"; JStr "TMDB"].
Proof.
  apply (proj2 (proj2 merge_sources) [alpha; beta]);
    [discriminate | reflexivity].
Defined.

(** A tag that is the empty string is not [null], and is dropped. *)
Lemma merge_drops_empty_tag :
  field_of (mergeMovieData (Some [untagged; beta])) "sources"
  = JArr [JStr "TMDB"] /\
  filter non_null (map (fun data => get data "source") [untagged; beta])
  = [get untagged "source"; get beta "source"] /\
  non_null (get untagged "source") = true /\
  non_null (get beta "source") = true.
Proof. repeat split. Qed.

(** C6.  When the accumulated record and the incoming record both hold an
    array under [cast], the merged cast is the accumulated cast followed
    by the incoming entries whose name no accumulated entry bears, in
    their order. *)
Theorem merge_cast_appends_new_names (rs : list Object) (cur acc : Object)
        (a c : list JsVal) :
  mergeMovieData (Some rs) = Ok (Some acc) ->
  get acc "cast" = JArr a -> get cur "cast" = JArr c ->
  forallb entry_ok a = true -> forallb entry_ok c = true ->
  exists m,
    mergeMovieData (Some (rs ++ [cur])) = Ok (Some m) /\
    get m "cast" = JArr (a ++ new_actors a c).
Proof.
  intros Hacc Ha Hc Hoa Hoc.
  destruct (merge_snoc rs cur acc Hacc) as [m [Hm [_ Hget]]].
  - unfold cast_ok. now rewrite Ha.
  - unfold cast_ok. now rewrite Hc.
  - exists m. split; [exact Hm|].
    rewrite (Hget "cast") by discriminate.
    rewrite merged_value_plain by reflexivity.
    unfold merged_field. rewrite Ha, Hc. reflexivity.
Qed.

Lemma merge_cast_appends_new_names_witness :
  exists m,
    mergeMovieData (Some ([alpha] ++ [beta])) = Ok (Some m) /\
    get m "cast" = JArr [actor "A"; actor "B"].
Proof.
  apply (merge_cast_appends_new_names [alpha] beta alpha_merged
           [actor "A"] [actor "A"; actor "B"]); reflexivity.
Defined.

(** ** cleanMovieData *)

Lemma first_ok_trimStart (s : string) : first_ok (trimStart s) = true.
Proof.
  induction s as [|c r IH]; simpl; [reflexivity|].
  destruct (is_space c) eqn:Hc; [exact IH|]. simpl. now rewrite Hc.
Qed.

Lemma last_ok_trimEnd (s : string) : last_ok (trimEnd s) = true.
Proof.
  induction s as [|c r IH]; simpl; [reflexivity|].
  destruct (trimEnd r) as [|c' r'] eqn:Hr.
  - destruct (is_space c) eqn:Hc; simpl; [reflexivity|now rewrite Hc].
  - exact IH.
Qed.

Lemma first_ok_trimEnd (s : string) :
  first_ok s = true -> first_ok (trimEnd s) = true.
Proof.
  destruct s as [|c r]; simpl; [reflexivity|]. intros Hc.
  destruct (trimEnd r); [|exact Hc].
  apply negb_true_iff in Hc. rewrite Hc. simpl. now rewrite Hc.
Qed.

(** [trim] leaves white space at neither end. *)
Lemma trimmed_trim (s : string) : trimmed (trim s) = true.
Proof.
  unfold trimmed, trim. apply andb_true_iff. split.
  - apply first_ok_trimEnd, first_ok_trimStart.
  - apply last_ok_trimEnd.
Qed.

Lemma get_retype_same (conv : JsVal -> JsVal) (o : Object) (f : string) :
  get (retype conv o f) f
  = if truthy (get o f) then conv (get o f) else get o f.
Proof.
  unfold retype. destruct (truthy (get o f)); [apply get_set_same|reflexivity].
Qed.

Lemma get_retype_other (conv : JsVal -> JsVal) (o : Object) (f k : string) :
  f <> k -> get (retype conv o f) k = get o k.
Proof.
  intros H. unfold retype.
  destruct (truthy (get o f)); [now apply get_set_other|reflexivity].
Qed.

Lemma get_clean_is_color (o : Object) (k : string) :
  "is_color" <> k -> get (clean_is_color o) k = get o k.
Proof.
  intros Hk. unfold clean_is_color.
  destruct (negb (strict_eq (get o "is_color") JNull)
            && negb (strict_eq (get o "is_color") JUndefined));
    [|reflexivity].
  now apply get_set_other.
Qed.

Lemma get_clean_string_same (o : Object) (f : string) :
  get (clean_string o f) f = clean_value (get o f).
Proof.
  unfold clean_string.
  destruct (get o f) as [| |b|n|s|l|o'] eqn:Hf; simpl; try exact Hf.
  destruct (String.eqb_spec s "") as [->|Hs]; simpl.
  - exact Hf.
  - apply get_set_same.
Qed.

Lemma get_clean_string_other (o : Object) (f k : string) :
  f <> k -> get (clean_string o f) k = get o k.
Proof.
  intros H. unfold clean_string.
  destruct (get o f) as [| |b|n|s|l|o']; try reflexivity.
  destruct (truthy (JStr s)); [now apply get_set_other|reflexivity].
Qed.

Lemma get_ensure_array_same (o : Object) (f : string) :
  get (ensure_array o f) f = if isArray (get o f) then get o f else JArr [].
Proof.
  unfold ensure_array.
  destruct (isArray (get o f)); simpl; [reflexivity|apply get_set_same].
Qed.

Lemma get_ensure_array_other (o : Object) (f k : string) :
  f <> k -> get (ensure_array o f) k = get o k.
Proof.
  intros H. unfold ensure_array.
  destruct (isArray (get o f)); simpl; [reflexivity|now apply get_set_other].
Qed.

Lemma isInteger_num_of_Z (z : Z) : isInteger (num_of_Z z) = true.
Proof.
  unfold isInteger, num_of_Z. rewrite Qfloor_Z. apply Qeq_bool_iff.
  reflexivity.
Qed.

Lemma whole_parseInt (rt : Runtime) (v : JsVal) :
  truthy (parseInt_val rt v) = true ->
  whole_or_infinite (parseInt_val rt v) = true.
Proof.
  unfold parseInt_val, parseInt_num, whole_or_infinite.
  destruct (parseInt rt v) as [|z|negative].
  - discriminate.
  - intros _. fold (num_of_Z z). now rewrite isInteger_num_of_Z.
  - reflexivity.
Qed.

(** Read one field of [clean_record]: the steps that visit another key
    are skipped, the step that visits the key is unfolded. *)
Ltac clean_get :=
  unfold clean_record; simpl fold_left;
  repeat first
    [ rewrite get_ensure_array_other by discriminate
    | rewrite get_clean_string_other by discriminate
    | rewrite get_clean_is_color by discriminate
    | rewrite get_retype_other by discriminate
    | rewrite get_ensure_array_same
    | rewrite get_clean_string_same
    | rewrite get_retype_same ].

(** The record that [cleanMovieData] returns. *)
Lemma clean_record_cleaned (rt : Runtime) (movie : Object) :
  cleaned (clean_record rt movie).
Proof.
  unfold cleaned. repeat split.
  - clean_get.
    destruct (isArray (get movie "cast")) eqn:H; [exact H|reflexivity].
  - clean_get.
    destruct (isArray (get movie "other_titles")) eqn:H;
      [exact H|reflexivity].
  - intros f Hf. simpl in Hf.
    destruct Hf as [<-|[<-|[<-|[<-|[]]]]]; clean_get;
      (destruct (truthy (get movie _)) eqn:Ht;
       [apply whole_parseInt | congruence]).
  - intros f Hf. simpl in Hf.
    destruct Hf as [<-|[<-|[]]]; clean_get;
      (destruct (truthy (get movie _)) eqn:Ht; [reflexivity | congruence]).
  - intros f s Hf. simpl in Hf.
    destruct Hf as [<-|[<-|[<-|[<-|[<-|[<-|[<-|[<-|[]]]]]]]]]; clean_get;
      (destruct (get movie _) as [| |b|n|s0|l|o'] eqn:Hg; simpl;
       intros H; try discriminate;
       injection H as <-; apply trimmed_trim).
Qed.

(** ** Reasoning about asynchronous code *)

Lemma bind_Ok_inv {S A B} (m : M S A) (f : A -> M S B) (s s' : S) (b : B) :
  bind m f s = (s', Ok b) ->
  exists s1 a, m s = (s1, Ok a) /\ f a s1 = (s', Ok b).
Proof.
  unfold bind. destruct (m s) as [s1 [a|e]]; intros H.
  - eauto.
  - discriminate.
Qed.

Lemma ret_inv {S A} (a b : A) (s s' : S) :
  ret a s = (s', Ok b) -> s' = s /\ b = a.
Proof. unfold ret. intros H. injection H as -> ->. auto. Qed.

Lemma try_catch_Ok_inv {S A} (m : M S A) (h : JsError -> M S A) (s s' : S)
      (a : A) :
  try_catch m h s = (s', Ok a) ->
  m s = (s', Ok a) \/
  exists s1 e, m s = (s1, Throw e) /\ h e s1 = (s', Ok a).
Proof.
  unfold try_catch. destruct (m s) as [s1 [x|e]]; intros H.
  - left. exact H.
  - right. eauto.
Qed.

Lemma lift_Ok_inv {S A} (x : Exc A) (s s' : S) (a : A) :
  lift x s = (s', Ok a) -> s' = s /\ x = Ok a.
Proof. unfold lift. intros H. injection H as -> ->. auto. Qed.

Lemma total_ret {S A} (a : A) : total (@ret S A a).
Proof. intros s. unfold ret. eauto. Qed.

Lemma total_bind {S A B} (m : M S A) (f : A -> M S B) :
  total m -> (forall a, total (f a)) -> total (bind m f).
Proof.
  intros Hm Hf s. unfold bind.
  destruct (Hm s) as [s1 [a ->]]. apply Hf.
Qed.

Lemma total_try_catch {S A} (m : M S A) (h : JsError -> M S A) :
  (forall e, total (h e)) -> total (try_catch m h).
Proof.
  intros Hh s. unfold try_catch.
  destruct (m s) as [s1 [a|e]]; [eauto|apply Hh].
Qed.

Lemma total_modify {S} (f : S -> S) : total (modify f).
Proof. intros s. unfold modify. eauto. Qed.

Lemma total_gets {S A} (f : S -> A) : total (gets f).
Proof. intros s. unfold gets. eauto. Qed.

(** ** The title workflow *)

Section TitleWorkflow.
Context {S : Type}.
Variable rt : Runtime.
Variable this : Fetcher S.

Lemma cleaned_by_clean_record (movie : Object) :
  cleaned_by rt (clean_record rt movie).
Proof. split; [now exists movie|apply clean_record_cleaned]. Qed.








(** The loop stops with a [TypeError] at the first title that cannot
    be printed. *)
Lemma fetch_loop_throws (filters : Object) (title : JsVal)
      (rest : list JsVal) (allResults : list Object) (s : S) :
  converts title = false ->
  fetch_loop rt this (title :: rest) filters allResults s
  = (s, Throw TypeError).
Proof.
  intros Ht. cbn [fetch_loop]. unfold bind at 1, lift, convert.
  now rewrite Ht.
Qed.

(** ** The enrichment workflow *)

Lemma enrich_omdb_extends (movie : Object) (l l' : list Object) (s s' : S) :
  enrich_omdb this movie l s = (s', Ok l') -> exists extra, l' = l ++ extra.
Proof.
  unfold enrich_omdb. intros H.
  assert (Hsame : exists extra, l = l ++ extra)
    by (exists []; now rewrite app_nil_r).
  destruct (omdbApi this) as [api|];
    [|apply ret_inv in H as [_ ->]; exact Hsame].
  destruct (enabled this "omdb");
    [|apply ret_inv in H as [_ ->]; exact Hsame].
  apply bind_Ok_inv in H as (s1 & missing & _ & H).
  destruct missing; [|apply ret_inv in H as [_ ->]; exact Hsame].
  apply try_catch_Ok_inv in H as [H|(s2 & e & _ & H)];
    [|apply ret_inv in H as [_ ->]; exact Hsame].
  apply bind_Ok_inv in H as (s2 & omdbData & _ & H).
  destruct (_ && _); [|apply ret_inv in H as [_ ->]; exact Hsame].
  apply bind_Ok_inv in H as (s3 & normalized & _ & H).
  apply ret_inv in H as [_ ->].
  destruct normalized as [r|]; simpl; [eauto|exact Hsame].
Qed.

Lemma enrich_imdb_extends (movie : Object) (l l' : list Object) (s s' : S) :
  enrich_imdb this movie l s = (s', Ok l') -> exists extra, l' = l ++ extra.
Proof.
  unfold enrich_imdb. intros H.
  assert (Hsame : exists extra, l = l ++ extra)
    by (exists []; now rewrite app_nil_r).
  destruct (imdbApi this) as [api|];
    [|apply ret_inv in H as [_ ->]; exact Hsame].
  destruct (enabled this "imdb");
    [|apply ret_inv in H as [_ ->]; exact Hsame].
  apply bind_Ok_inv in H as (s1 & missing & _ & H).
  destruct missing; [|apply ret_inv in H as [_ ->]; exact Hsame].
  apply try_catch_Ok_inv in H as [H|(s2 & e & _ & H)];
    [|apply ret_inv in H as [_ ->]; exact Hsame].
  apply bind_Ok_inv in H as (s2 & imdbData & _ & H).
  destruct (truthy imdbData); [|apply ret_inv in H as [_ ->]; exact Hsame].
  apply bind_Ok_inv in H as (s3 & normalized & _ & H).
  apply ret_inv in H as [_ ->].
  destruct normalized as [r|]; simpl; [eauto|exact Hsame].
Qed.

Lemma enrich_tmdb_extends (movie : Object) (l l' : list Object) (s s' : S) :
  enrich_tmdb rt this movie l s = (s', Ok l') -> exists extra, l' = l ++ extra.
Proof.
  unfold enrich_tmdb. intros H.
  assert (Hsame : exists extra, l = l ++ extra)
    by (exists []; now rewrite app_nil_r).
  destruct (tmdbApi this) as [api|];
    [|apply ret_inv in H as [_ ->]; exact Hsame].
  destruct (enabled this "tmdb");
    [|apply ret_inv in H as [_ ->]; exact Hsame].
  apply bind_Ok_inv in H as (s1 & missing & _ & H).
  destruct missing; [|apply ret_inv in H as [_ ->]; exact Hsame].
  apply try_catch_Ok_inv in H as [H|(s2 & e & _ & H)];
    [|apply ret_inv in H as [_ ->]; exact Hsame].
  apply bind_Ok_inv in H as (s2 & tmdbSearchResult & _ & H).
  apply bind_Ok_inv in H as (s3 & found & _ & H).
  destruct found; [|apply ret_inv in H as [_ ->]; exact Hsame].
  apply bind_Ok_inv in H as (s4 & id & _ & H).
  apply bind_Ok_inv in H as (s5 & movieDetails & _ & H).
  apply bind_Ok_inv in H as (s6 & normalized & _ & H).
  apply ret_inv in H as [_ ->].
  destruct normalized as [r|]; simpl; [eauto|exact Hsame].
Qed.

(** The body of the [try] for a record, when it returns, yields the
    cleaned merge of the record with what the sources added. *)
Lemma enrich_movie_yields (movie : Object) (s s' : S) (out : option Object) :
  enrich_movie rt this movie s = (s', Ok out) ->
  exists extra merged,
    mergeMovieData (Some (movie :: extra)) = Ok (Some merged) /\
    out = Some (clean_record rt merged).
Proof.
  unfold enrich_movie. intros H.
  apply bind_Ok_inv in H as (s1 & r1 & H1 & H).
  apply bind_Ok_inv in H as (s2 & r2 & H2 & H).
  apply bind_Ok_inv in H as (s3 & enrichedMovie & Hm & H).
  apply lift_Ok_inv in Hm as [_ Hm].
  apply bind_Ok_inv in H as (s4 & cleanedMovie & Hc & H).
  apply lift_Ok_inv in Hc as [_ Hc].
  apply bind_Ok_inv in H as (s5 & u & _ & H).
  apply ret_inv in H as [_ ->].
  assert (Hr1 : exists extra, r1 = [movie] ++ extra).
  { destruct (truthy (get movie "imdb_id")).
    - apply bind_Ok_inv in H1 as (s6 & r0 & H0 & H1).
      apply enrich_omdb_extends in H0 as [x ->].
      apply enrich_imdb_extends in H1 as [y ->].
      exists (x ++ y). now rewrite app_assoc.
    - apply ret_inv in H1 as [_ ->]. exists []. reflexivity. }
  destruct Hr1 as [x ->].
  apply enrich_tmdb_extends in H2 as [y ->].
  change (([movie] ++ x) ++ y) with (movie :: x ++ y) in Hm.
  exists (x ++ y).
  destruct enrichedMovie as [merged|].
  - exists merged. split; [exact Hm|].
    simpl in Hc. destruct (parses merged); [|discriminate].
    now injection Hc as <-.
  - exfalso. unfold mergeMovieData in Hm.
    destruct (efold mergeInto (x ++ y) movie); discriminate.
Qed.

Lemma enrich_movie_cleaned (movie : Object) (s s' : S) (c : Object) :
  enrich_movie rt this movie s = (s', Ok (Some c)) -> cleaned_by rt c.
Proof.
  intros H. apply enrich_movie_yields in H as (x & merged & _ & H).
  injection H as ->. apply cleaned_by_clean_record.
Qed.







End TitleWorkflow.

(** ** The discovery workflow *)

Section DiscoveryWorkflow.
Context {S : Type}.
Variable rt : Runtime.
Variable this : Fetcher S.

(** A call into the adapters leaves the local variables alone. *)
Lemma world_locals {A} (m : M S A) (d d' : Discovery) (s s' : S)
      (r : Exc A) :
  world m (d, s) = ((d', s'), r) -> d' = d.
Proof.
  unfold world, zoom. simpl. destruct (m s) as [s1 r1].
  intros H. now injection H as <- _ _.
Qed.

Lemma total_set_locals (f : Discovery -> Discovery) :
  total (@set_locals S f).
Proof. apply total_modify. Qed.

Lemma total_locals {A} (f : Discovery -> A) : total (@locals S A f).
Proof. apply total_gets. Qed.

(** A page never throws: what goes wrong inside is counted. *)
Lemma total_discover_page (api : TmdbOps S) (filters tmdbFilters : Object)
      (onProgress : option (Object -> M S unit)) (page : Z)
      (maxPages : JsNum) :
  total (discover_page rt this api filters tmdbFilters onProgress page
                       maxPages).
Proof.
  unfold discover_page. apply total_try_catch. intros e.
  apply total_bind; [apply total_set_locals|]. intros _.
  apply total_bind; [apply total_locals|]. intros empty.
  apply total_ret.
Qed.

Lemma total_page_loop (api : TmdbOps S) (filters tmdbFilters : Object)
      (onProgress : option (Object -> M S unit)) (maxPages : JsNum)
      (fuel : nat) :
  forall page,
    total (page_loop rt this fuel api filters tmdbFilters onProgress page
                     maxPages).
Proof.
  induction fuel as [|fuel IH]; intros page; simpl.
  - apply total_ret.
  - apply total_bind; [apply total_discover_page|].
    intros [|]; [apply total_ret|apply IH].
Qed.

(** The list returned is the list accumulated when the run returns,
    and the empty list when the run throws. *)
Lemma discoverMovies_returns (filters : Object)
      (onProgress : option (Object -> M S unit)) (s : S) :
  exists d s' o,
    discover_run rt this filters onProgress (discovery_start, s)
    = ((d, s'), o) /\
    discoverMovies rt this filters onProgress s
    = (s', Ok (match o with Ok _ => results d | Throw _ => [] end)).
Proof.
  unfold discoverMovies, try_catch, bind.
  destruct (discover_run rt this filters onProgress (discovery_start, s))
    as [[d s'] [u|e]] eqn:Hrun.
  - exists d, s', (Ok u). split; reflexivity.
  - exists d, s', (Throw e). split; reflexivity.
Qed.


End DiscoveryWorkflow.



(** A title that cannot be printed, here an object whose [toString] is
    no function, makes [fetchMoviesByTitles] throw: the progress line is
    written before the [try]. *)
Lemma fetch_throws_on_odd_title :
  converts odd_title = false /\
  snd (fetch_on ida_server omdb_config [odd_title] []) = Throw TypeError /\
  snd (fetch_on ida_server omdb_config [JStr "Ida"; odd_title] [])
  = Throw TypeError.
Proof. repeat split. Qed.



(** A runtime that arrives as a text of four hundred digits is cleaned
    to [Infinity], which is truthy and is no integer: the record that
    [fetchMoviesByTitles] returns for it went through [cleanMovieData]
    and holds no integer under [runtime_min]. *)
Lemma cleaned_runtime_is_infinite :
  column "runtime_min"
         (snd (fetch_on long_runtime_server tmdb_config [JStr "Ida"] []))
  = [JNum (Inf false)] /\
  truthy (JNum (Inf false)) = true /\
  isInteger (JNum (Inf false)) = false.
Proof. repeat split. Qed.

(** ** Pagination *)

(** A page whose [results] is the empty array ends the loop at once: the
    counter goes up by one, and the test [results.length < 20] holds. *)
Lemma empty_page_stops {S : Type} (rt : Runtime) (this : Fetcher S)
      (api : TmdbOps S) (filters tmdbFilters : Object)
      (onProgress : option (Object -> M S unit)) (page : Z)
      (maxPages : JsNum) (d : Discovery) (s s1 : S) (payload : Object) :
  tmdb_discoverMovies api (set tmdbFilters "page" (num_of_Z page)) s
  = (s1, Ok (JObj payload)) ->
  get payload "results" = JArr [] ->
  printable (get payload "total_results") ->
  printable (get payload "total_pages") ->
  exists d',
    discover_page rt this api filters tmdbFilters onProgress page maxPages
                  (d, s)
    = ((d', s1), Ok true) /\
    consecutiveEmptyPages d' = Datatypes.S (consecutiveEmptyPages d) /\
    results d' = results d.
Proof.
  intros Hcall Hres Htotal Hpages. unfold printable in *.
  assert (Hmin : exists n,
             total_pages rt (JObj payload) maxPages = Ok n).
  { unfold total_pages, min_of, convert, or_else. simpl.
    destruct (truthy (get payload "total_pages")); [rewrite Hpages|];
      simpl; eauto. }
  destruct Hmin as [n Hmin].
  assert (Hnone : has_results rt (JObj payload) = Ok false).
  { unfold has_results. simpl. rewrite Hres. reflexivity. }
  assert (Hstop : forall k, stop_after rt (JObj payload) page k = Ok true).
  { intros k. unfold stop_after. simpl. rewrite Hres. reflexivity. }
  unfold discover_page, try_catch, bind, world, zoom, when, lift. simpl.
  rewrite Hcall. simpl. rewrite Hnone, Hmin. unfold convert. rewrite Htotal.
  destruct (truthy (get payload "total_results")); simpl; rewrite Hstop;
    eexists; (split; [reflexivity|split; reflexivity]).
Qed.

(** C2.  Against a source with ten nominal pages that has no result on
    any of them, [discoverMovies] with [maxPages = 10] asks for page 1
    and stops there: pages 2 and 3 are never requested.  Only pages that
    fail count up to three: against a source that refuses every
    connection, pages 1, 2 and 3 are requested. *)
Theorem discovery_stops_at_first_empty_page :
  discover_on empty_pages ten_pages = ([num_of_Z 1], Ok []) /\
  discover_on refused ten_pages
  = ([num_of_Z 1; num_of_Z 2; num_of_Z 3], Ok []).
Proof. split; vm_compute; reflexivity. Qed.

(** ** Rate limiting *)

Create HintDb keeps.

Section Throttle.
Context {E : Type}.
Variable net : Network E.

(** A timer does not fire early. *)
Hypothesis timer_not_early :
  forall (ms : Q) (e : E), clock net e + ms <= clock net (timer net ms e).

(** The opening of [rateLimitedRequest] stamps the call at least
    [rateLimitDelay] after the previous stamp. *)
Lemma throttle_spacing (this : Adapter) (e : E) :
  let this' := fst (fst (throttle net (this, e))) in
  lastRequestTime this + rateLimitDelay this <= lastRequestTime this' /\
  rateLimitDelay this' = rateLimitDelay this.
Proof.
  unfold throttle, sleep. simpl. split; [|reflexivity].
  unfold Qlt_bool.
  destruct (Qle_bool (rateLimitDelay this)
                     (clock net e - lastRequestTime this)) eqn:Hle; simpl.
  - apply Qle_bool_iff in Hle. lra.
  - pose proof (timer_not_early
                  (rateLimitDelay this - (clock net e - lastRequestTime this))
                  e). lra.
Qed.

Lemma keeps_ret {A} (a : A) : keeps_this (E:=E) (ret a).
Proof. intros s. reflexivity. Qed.

Lemma keeps_throw {A} (e : JsError) : keeps_this (E:=E) (@throw _ A e).
Proof. intros s. reflexivity. Qed.

Lemma keeps_lift {A} (x : Exc A) : keeps_this (E:=E) (lift x).
Proof. intros s. reflexivity. Qed.

Lemma keeps_gets {A} (f : Adapter * E -> A) : keeps_this (gets f).
Proof. intros s. reflexivity. Qed.

Lemma keeps_bind {A B} (m : M (Adapter * E) A) (f : A -> M (Adapter * E) B) :
  keeps_this m -> (forall a, keeps_this (f a)) -> keeps_this (bind m f).
Proof.
  intros Hm Hf s. unfold bind. specialize (Hm s).
  destruct (m s) as [s1 [a|e]]; simpl in *.
  - rewrite Hf. exact Hm.
  - exact Hm.
Qed.

Lemma keeps_try_catch {A} (m : M (Adapter * E) A)
      (h : JsError -> M (Adapter * E) A) :
  keeps_this m -> (forall e, keeps_this (h e)) -> keeps_this (try_catch m h).
Proof.
  intros Hm Hh s. unfold try_catch. specialize (Hm s).
  destruct (m s) as [s1 [a|e]]; simpl in *.
  - exact Hm.
  - rewrite Hh. exact Hm.
Qed.

Lemma keeps_http_get (url : string) (config : Object) :
  keeps_this (http_get net url config).
Proof.
  intros [this e]. unfold http_get.
  destruct (axios_get net url config e) as [e' [data|code message]];
    reflexivity.
Qed.

(** What follows the opening of a [rateLimitedRequest] keeps the stamp. *)
Lemma spacing_after_throttle {A} (rest : M (Adapter * E) A)
      (this : Adapter) (e : E) :
  keeps_this rest ->
  let this' := fst (fst (bind (throttle net) (fun _ => rest) (this, e))) in
  lastRequestTime this + rateLimitDelay this <= lastRequestTime this' /\
  rateLimitDelay this' = rateLimitDelay this.
Proof.
  intros Hrest. pose proof (throttle_spacing this e) as Hs.
  cbv zeta in *. unfold bind.
  destruct (throttle net (this, e)) as [s1 [u|err]]; cbn [fst snd] in *.
  - rewrite Hrest. exact Hs.
  - exact Hs.
Qed.

Hint Resolve keeps_ret keeps_throw keeps_lift keeps_gets keeps_http_get
  : keeps.

(** Every request of the three adapters is stamped at least
    [rateLimitDelay] after the previous one of the same adapter. *)
Lemma omdb_request_spacing (params : Object) (this : Adapter) (e : E) :
  let this' := fst (fst (OMDBApi.rateLimitedRequest net params (this, e))) in
  lastRequestTime this + rateLimitDelay this <= lastRequestTime this' /\
  rateLimitDelay this' = rateLimitDelay this.
Proof.
  apply spacing_after_throttle.
  apply keeps_try_catch; [|auto with keeps].
  apply keeps_bind; [apply keeps_gets|]. intros apiKey.
  apply keeps_bind.
  { destruct (negb (truthy apiKey)); auto with keeps. }
  intros _. apply keeps_bind; [apply keeps_gets|]. intros url.
  apply keeps_bind; [apply keeps_http_get|]. intros data.
  apply keeps_bind; [apply keeps_lift|]. intros response.
  destruct (strict_eq response (JStr "False")); [|auto with keeps].
  apply keeps_bind; [apply keeps_lift|]. intros _. apply keeps_throw.
Qed.

Lemma tmdb_request_spacing (endpoint : string) (params : Object)
      (this : Adapter) (e : E) :
  let this' :=
    fst (fst (TMDBApi.rateLimitedRequest net endpoint params (this, e))) in
  lastRequestTime this + rateLimitDelay this <= lastRequestTime this' /\
  rateLimitDelay this' = rateLimitDelay this.
Proof.
  apply spacing_after_throttle.
  apply keeps_try_catch; [|auto with keeps].
  apply keeps_bind; [apply keeps_gets|]. intros url.
  apply keeps_bind; [apply keeps_gets|]. intros apiKey.
  apply keeps_http_get.
Qed.

Lemma imdb_request_spacing (rt : Runtime) (endpoint : string)
      (params : Object) (this : Adapter) (e : E) :
  let this' :=
    fst (fst (IMDBApi.rateLimitedRequest rt net endpoint params (this, e))) in
  lastRequestTime this + rateLimitDelay this <= lastRequestTime this' /\
  rateLimitDelay this' = rateLimitDelay this.
Proof.
  apply spacing_after_throttle.
  apply keeps_try_catch; [|auto with keeps].
  apply keeps_bind; [apply keeps_gets|]. intros apiKey.
  apply keeps_bind.
  { destruct (truthy apiKey); [|apply keeps_ret].
    apply keeps_bind; [apply keeps_lift|]. intros bearer. apply keeps_ret. }
  intros headers.
  apply keeps_bind; [apply keeps_gets|]. intros url.
  apply keeps_http_get.
Qed.

End Throttle.

(** The delays of the three classes at their default rates, and at ten
    requests per second. *)
Lemma default_delays :
  rateLimitDelay (OMDBApi.new (JStr "k") None) == 100 /\
  rateLimitDelay (TMDBApi.new (JStr "k") None) == 25 /\
  rateLimitDelay (IMDBApi.new None None) == 200 /\
  rateLimitDelay (TMDBApi.new (JStr "k") (Some 10)) == 100.
Proof. repeat split. Qed.

(** C3.  The adapter of the discovery source, created with its key only
    as [new MovieFetcher] does, waits 1000 / 40 = 25 milliseconds between
    calls, not 250: a second call made 25 ms after the first goes out at
    once, the two stamps 25 ms apart, and a second call made right away
    is held back for 25 ms only.  An adapter at ten requests per second
    keeps its calls 100 ms apart. *)
Theorem tmdb_default_spacing_is_25ms :
  option_map rateLimitDelay fetcher_tmdb = Some (delay_of 40) /\
  delay_of 40 == 25 /\
  fst (two_calls tmdb_request (TMDBApi.new (JStr "k") None) 25) == 25 /\
  snd (two_calls tmdb_request (TMDBApi.new (JStr "k") None) 25) = 2%nat /\
  fst (two_calls tmdb_request (TMDBApi.new (JStr "k") None) 0) == 25 /\
  fst (two_calls omdb_request (OMDBApi.new (JStr "k") (Some 10)) 0) == 100.
Proof. repeat split. Qed.

(** ** Not found and transport failures *)

Ltac answer_with Hsrv :=
  match goal with
  | |- context [axios_get ?net ?u ?c ?e0] =>
      let Hr := fresh "Hr" in
      let e' := fresh "e'" in
      let h := fresh "h" in
      pose proof (Hsrv u c e0) as Hr;
      destruct (axios_get net u c e0) as [e' h];
      cbn [snd] in Hr; subst h
  end.

Section NotFound.
Context {E : Type}.
Variable rt : Runtime.
Variable net : Network E.

(** OMDB: a 2xx body with [Response: 'False'] becomes an [Error] that
    carries the text of the body. *)
Lemma omdb_details_not_found (data : JsVal) (s : string) (this : Adapter)
      (e : E) :
  (forall url config e0, snd (axios_get net url config e0) = Response data) ->
  getPropOpt data "Response" = JStr "False" ->
  printable (or_else (getPropOpt data "Error")
                     (JStr "Unknown OMDB API Error")) ->
  s <> "" -> truthy (apiKey this) = true ->
  snd (OMDBApi.getMovieDetails net (JStr s) (this, e))
  = Throw (Error (or_else (getPropOpt data "Error")
                          (JStr "Unknown OMDB API Error"))).
Proof.
  intros Hsrv Hresp Hmsg Hs Hkey. unfold printable in Hmsg.
  unfold OMDBApi.getMovieDetails. simpl.
  destruct (String.eqb_spec s "") as [->|_]; [congruence|]. simpl.
  unfold OMDBApi.rateLimitedRequest, bind, try_catch, throttle,
    this_apiKey, this_baseUrl, gets, http_get. simpl.
  rewrite Hkey. simpl. answer_with Hsrv.
  destruct data as [| |b|n|str|l|o]; simpl in Hresp; try discriminate.
  simpl. rewrite Hresp. simpl. unfold lift, convert.
  simpl in Hmsg. rewrite Hmsg. reflexivity.
Qed.

(** OMDB: the rejection of the HTTP client is thrown on as it is. *)
Lemma omdb_details_rejected (code message s : string) (this : Adapter)
      (e : E) :
  (forall url config e0,
      snd (axios_get net url config e0) = Rejected code message) ->
  s <> "" -> truthy (apiKey this) = true ->
  snd (OMDBApi.getMovieDetails net (JStr s) (this, e))
  = Throw (AxiosError code message).
Proof.
  intros Hsrv Hs Hkey.
  unfold OMDBApi.getMovieDetails. simpl.
  destruct (String.eqb_spec s "") as [->|_]; [congruence|]. simpl.
  unfold OMDBApi.rateLimitedRequest, bind, try_catch, throttle,
    this_apiKey, this_baseUrl, gets, http_get. simpl.
  rewrite Hkey. simpl. answer_with Hsrv. reflexivity.
Qed.

(** TMDB: the body of a 2xx answer is the result, whatever it says. *)
Lemma tmdb_details_returns_body (data id : JsVal) (this : Adapter) (e : E) :
  (forall url config e0, snd (axios_get net url config e0) = Response data) ->
  printable id ->
  snd (TMDBApi.getMovieDetails rt net id (this, e)) = Ok data.
Proof.
  intros Hsrv Hid. unfold printable in Hid.
  unfold TMDBApi.getMovieDetails, template, convert. rewrite Hid.
  unfold TMDBApi.rateLimitedRequest, bind, lift,
    try_catch, throttle, this_apiKey, this_baseUrl, gets, http_get.
  simpl. answer_with Hsrv. reflexivity.
Qed.

(** IMDB: a request returns the body of an answer of the server, or
    throws. *)
Lemma imdb_request_outcome (endpoint : string) (params : Object)
      (s : Adapter * E) :
  (exists err,
      snd (IMDBApi.rateLimitedRequest rt net endpoint params s) = Throw err) \/
  (exists url config e0 data,
      snd (axios_get net url config e0) = Response data /\
      snd (IMDBApi.rateLimitedRequest rt net endpoint params s) = Ok data).
Proof.
  destruct s as [this e].
  unfold IMDBApi.rateLimitedRequest, bind, try_catch, throttle,
    this_apiKey, this_baseUrl, gets. cbn [fst snd].
  match goal with
  | |- context [if truthy ?k then _ else _] => destruct (truthy k)
  end.
  - unfold bind, lift.
    match goal with
    | |- context [template rt "Bearer " ?k] =>
        destruct (template rt "Bearer " k) as [bearer|err]
    end; [|left; eexists; reflexivity].
    unfold ret, http_get.
    match goal with
    | |- context [axios_get net ?u ?c ?e0] =>
        destruct (axios_get net u c e0) as [e' [data|code message]] eqn:Hget
    end.
    + right. do 4 eexists. split; [|reflexivity]. now rewrite Hget.
    + left. eexists. reflexivity.
  - unfold ret, http_get.
    match goal with
    | |- context [axios_get net ?u ?c ?e0] =>
        destruct (axios_get net u c e0) as [e' [data|code message]] eqn:Hget
    end.
    + right. do 4 eexists. split; [|reflexivity]. now rewrite Hget.
    + left. eexists. reflexivity.
Qed.

(** IMDB: the lookup returns the body of an answer, or [null]. *)
Lemma imdb_details_outcome (id : JsVal) (s : Adapter * E) :
  snd (IMDBApi.getMovieDetails rt net id s) = Ok JNull \/
  (exists url config e0 data,
      snd (axios_get net url config e0) = Response data /\
      snd (IMDBApi.getMovieDetails rt net id s) = Ok data).
Proof.
  unfold IMDBApi.getMovieDetails, try_catch.
  destruct id as [| |b|n|str|l|o]; try (left; reflexivity).
  match goal with
  | |- context [IMDBApi.rateLimitedRequest rt net ?ep ?ps s] =>
      destruct (imdb_request_outcome ep ps s)
        as [[err H]|(url & config & e0 & data & Hsrv & H)];
      destruct (IMDBApi.rateLimitedRequest rt net ep ps s) as [s1 r];
      cbn [snd] in H; subst r
  end.
  - left. reflexivity.
  - right. exists url, config, e0, data. split; [exact Hsrv|reflexivity].
Qed.

(** IMDB: the body of a 2xx answer is the result, whatever it says. *)
Lemma imdb_details_returns_body (data : JsVal) (id : string)
      (this : Adapter) (e : E) :
  (forall url config e0, snd (axios_get net url config e0) = Response data) ->
  printable (apiKey this) ->
  snd (IMDBApi.getMovieDetails rt net (JStr id) (this, e)) = Ok data.
Proof.
  intros Hsrv Hkey. unfold printable in Hkey.
  unfold IMDBApi.getMovieDetails, IMDBApi.rateLimitedRequest, bind,
    try_catch, throttle, this_apiKey, this_baseUrl, gets, template,
    convert. cbn [fst snd apiKey set_lastRequestTime]. rewrite Hkey.
  destruct (truthy (apiKey this)); unfold bind, lift, ret, http_get;
    cbn [ebind]; answer_with Hsrv; reflexivity.
Qed.

(** IMDB: a transport failure gives [null]. *)
Lemma imdb_details_rejected (code message : string) (id : JsVal)
      (s : Adapter * E) :
  (forall url config e0,
      snd (axios_get net url config e0) = Rejected code message) ->
  snd (IMDBApi.getMovieDetails rt net id s) = Ok JNull.
Proof.
  intros Hsrv.
  destruct (imdb_details_outcome id s)
    as [H|(url & config & e0 & data & Hresp & _)]; [exact H|].
  rewrite Hsrv in Hresp. discriminate.
Qed.

End NotFound.

(** C8 (amended).  Only the OMDB adapter turns the "not found" body of a
    2xx answer into a thrown error: [getMovieDetails] throws an [Error]
    that carries the [Error] text of the body (or a fixed text when the
    body has none), and re-throws a transport failure as the HTTP
    client's own error, so the two differ in kind.  The TMDB adapter
    returns the body of any 2xx answer.  The lookup of the IMDB adapter
    never throws: it returns the body of a 2xx answer, whatever it says,
    and [null] on any failure, such as a transport failure or an id
    that is no string. *)
Theorem not_found_by_adapter {E : Type} (rt : Runtime) (net : Network E) :
  (forall (data : JsVal) (s : string) (this : Adapter) (e : E),
      (forall url config e0,
          snd (axios_get net url config e0) = Response data) ->
      getPropOpt data "Response" = JStr "False" ->
      printable (or_else (getPropOpt data "Error")
                         (JStr "Unknown OMDB API Error")) ->
      s <> "" -> truthy (apiKey this) = true ->
      exists message,
        snd (OMDBApi.getMovieDetails net (JStr s) (this, e))
        = Throw (Error message) /\
        message = or_else (getPropOpt data "Error")
                          (JStr "Unknown OMDB API Error")) /\
  (forall (code message s : string) (this : Adapter) (e : E),
      (forall url config e0,
          snd (axios_get net url config e0) = Rejected code message) ->
      s <> "" -> truthy (apiKey this) = true ->
      snd (OMDBApi.getMovieDetails net (JStr s) (this, e))
      = Throw (AxiosError code message)) /\
  (forall (data id : JsVal) (this : Adapter) (e : E),
      (forall url config e0,
          snd (axios_get net url config e0) = Response data) ->
      printable id ->
      snd (TMDBApi.getMovieDetails rt net id (this, e)) = Ok data) /\
  (forall (id : JsVal) (this : Adapter) (e : E),
      snd (IMDBApi.getMovieDetails rt net id (this, e)) = Ok JNull \/
      exists url config e0 data,
        snd (axios_get net url config e0) = Response data /\
        snd (IMDBApi.getMovieDetails rt net id (this, e)) = Ok data) /\
  (forall (data : JsVal) (id : string) (this : Adapter) (e : E),
      (forall url config e0,
          snd (axios_get net url config e0) = Response data) ->
      printable (apiKey this) ->
      snd (IMDBApi.getMovieDetails rt net (JStr id) (this, e)) = Ok data) /\
  (forall (code message : string) (id : JsVal) (this : Adapter) (e : E),
      (forall url config e0,
          snd (axios_get net url config e0) = Rejected code message) ->
      snd (IMDBApi.getMovieDetails rt net id (this, e)) = Ok JNull) /\
  (forall (id : JsVal) (this : Adapter) (e : E),
      (forall s, id <> JStr s) ->
      IMDBApi.getMovieDetails rt net id (this, e) = ((this, e), Ok JNull)).
Proof.
  repeat split.
  - intros data s this e Hsrv Hresp Hmsg Hs Hkey.
    eexists. split; [|reflexivity].
    now apply omdb_details_not_found.
  - intros. now apply omdb_details_rejected.
  - intros. now apply tmdb_details_returns_body.
  - intros. apply imdb_details_outcome.
  - intros. now apply imdb_details_returns_body.
  - intros code message id this e Hsrv.
    now apply (imdb_details_rejected rt net code message).
  - intros id this e Hid.
    destruct id as [| |b|n|str|l|o]; try reflexivity.
    now destruct (Hid str).
Qed.

Lemma not_found_by_adapter_witness :
  omdb_lookup not_found = Throw (Error (JStr "Movie not found!")) /\
  omdb_lookup refused = Throw connection_refused /\
  tmdb_lookup not_found = Ok not_found_body /\
  imdb_lookup not_found = Ok not_found_body /\
  imdb_lookup refused = Ok JNull /\
  snd (IMDBApi.getMovieDetails sample_rt (network not_found) (num_of_Z 1)
         (IMDBApi.new None None, mkWorld 1000000 []))
  = Ok JNull.
Proof.
  destruct (not_found_by_adapter sample_rt (network not_found))
    as (Homdb & _ & Htmdb & _ & Himdb & _ & Hid).
  destruct (not_found_by_adapter sample_rt (network refused))
    as (_ & Hrefused & _ & _ & _ & Hnull & _).
  split; [|split; [|split; [|split; [|split]]]].
  - destruct (Homdb not_found_body "tt0000001"
                (OMDBApi.new (JStr "k") None) (mkWorld 1000000 []))
      as [message [Hthrow ->]];
      [reflexivity | reflexivity | reflexivity | discriminate | reflexivity
       | exact Hthrow].
  - apply (Hrefused "ECONNREFUSED" "connect ECONNREFUSED" "tt0000001");
      [reflexivity | discriminate | reflexivity].
  - apply (Htmdb not_found_body (JStr "42")); reflexivity.
  - apply (Himdb not_found_body "tt0000001"); reflexivity.
  - apply (Hnull "ECONNREFUSED" "connect ECONNREFUSED"). reflexivity.
  - rewrite (Hid (num_of_Z 1)); [reflexivity|discriminate].
Defined.

(** The lookups of the IMDB and TMDB adapters return where the
    specification has them throw: the "not found" body comes back as a
    value, and a refused connection gives [null]. *)
Lemma lookup_returns_not_found_body :
  imdb_lookup not_found = Ok not_found_body /\
  imdb_lookup refused = Ok JNull /\
  tmdb_lookup not_found = Ok not_found_body.
Proof. repeat split. Qed.

(** ** The records of the adapters *)

(** Walk through the steps of a normaliser that returned a record. *)
Ltac returned H :=
  repeat match type of H with
    | ebind ?m _ = Ok _ =>
        let x := fresh "x" in
        destruct m as [x|]; cbn [ebind] in H; [|discriminate H]
    | (if ?c then _ else _) = Ok _ => destruct c
    | (let '(_, _) := ?p in _) = Ok _ => destruct p
    end.

Section Normalised.
Variable rt : Runtime.

Lemma omdb_normalised_tagged (omdbData : JsVal) (r : Object) :
  OMDBApi.normalizeMovieData rt omdbData = Ok (Some r) -> tagged "OMDB" r.
Proof.
  unfold OMDBApi.normalizeMovieData. intros H. returned H;
    try discriminate H.
  injection H as <-. repeat split.
Qed.

Lemma tmdb_normalised_tagged (tmdbData : JsVal) (r : Object) :
  TMDBApi.normalizeMovieData rt tmdbData = Ok (Some r) -> tagged "TMDB" r.
Proof.
  unfold TMDBApi.normalizeMovieData. intros H. returned H;
    try discriminate H.
  injection H as <-. repeat split.
Qed.

Lemma imdb_normalised_tagged (imdbData : JsVal) (r : Object) :
  IMDBApi.normalizeMovieData rt imdbData = Ok (Some r) -> tagged "IMDB" r.
Proof.
  unfold IMDBApi.normalizeMovieData. intros H. returned H;
    try discriminate H.
  injection H as <-. repeat split.
Qed.

End Normalised.

(** C7.  Every record that the normaliser of an adapter returns carries
    the tag of that adapter under [source] ('OMDB', 'TMDB' or 'IMDB'),
    and holds an array, possibly empty, under [cast] and under
    [other_titles]. *)
Theorem normalised_records_are_tagged (rt : Runtime) :
  (forall payload r,
      OMDBApi.normalizeMovieData rt payload = Ok (Some r) -> tagged "OMDB" r) /\
  (forall payload r,
      TMDBApi.normalizeMovieData rt payload = Ok (Some r) -> tagged "TMDB" r) /\
  (forall payload r,
      IMDBApi.normalizeMovieData rt payload = Ok (Some r) -> tagged "IMDB" r).
Proof.
  split; [|split].
  - apply omdb_normalised_tagged.
  - apply tmdb_normalised_tagged.
  - apply imdb_normalised_tagged.
Qed.

Lemma normalised_records_are_tagged_witness :
  tagged "OMDB" (record_of (OMDBApi.normalizeMovieData sample_rt omdb_payload))
  /\
  tagged "TMDB" (record_of (TMDBApi.normalizeMovieData sample_rt tmdb_payload))
  /\
  tagged "IMDB" (record_of (IMDBApi.normalizeMovieData sample_rt imdb_payload)).
Proof.
  destruct (normalised_records_are_tagged sample_rt) as [Ho [Ht Hi]].
  split; [|split].
  - apply (Ho omdb_payload). reflexivity.
  - apply (Ht tmdb_payload). reflexivity.
  - apply (Hi imdb_payload). reflexivity.
Defined.

(** What the three sample payloads become. *)
Example omdb_sample_cast :
  field_of (OMDBApi.normalizeMovieData sample_rt omdb_payload) "cast"
  = JArr [JObj [("name", JStr "Agata Kulesza"); ("role", JNull)];
          JObj [("name", JStr "Agata Trzebuchowska"); ("role", JNull)]].
Proof. reflexivity. Qed.

Example imdb_sample_cast :
  field_of (IMDBApi.normalizeMovieData sample_rt imdb_payload) "cast"
  = JArr [] /\
  field_of (IMDBApi.normalizeMovieData sample_rt imdb_payload) "other_titles"
  = JArr [].
Proof. split; reflexivity. Qed.

(** ** The workflows on sample servers *)

(** Two titles against a server that knows the film: two requests, two
    records, their titles trimmed.  Against a server that refuses every
    connection, or that answers "not found", the same two requests and
    an empty list. *)
Example fetch_by_titles_runs :
  fst (fetch_on ida_server omdb_config [JStr "Ida"; JStr "Ida again"] [])
  = 2%nat /\
  titles_of
    (snd (fetch_on ida_server omdb_config [JStr "Ida"; JStr "Ida again"] []))
  = [JStr "Ida"; JStr "Ida"] /\
  fetch_on refused omdb_config [JStr "Ida"; JStr "Ida again"] []
  = (2%nat, Ok []) /\
  fetch_on not_found omdb_config [JStr "Ida"; JStr "Ida again"] []
  = (2%nat, Ok []).
Proof. repeat split; vm_compute; reflexivity. Qed.

(* ===================================================================== *)
(** * Further properties of the code *)
(* ===================================================================== *)

(** ** The title workflow: what comes back *)



(** ** Merging: what the first record keeps *)

Lemma mergeKey_keeps (cur merged : Object) (key : string) (m' : Object)
      (k : string) :
  mergeKey cur merged key = Ok m' ->
  truthy (get merged k) = true ->
  joined_key k && isArray (get merged k) = false ->
  get m' k = get merged k.
Proof.
  unfold mergeKey. intros H Ht Hj.
  destruct (present (get cur key)); [|now injection H as <-].
  destruct (negb (has merged key) && inherited key);
    [now injection H as <-|].
  destruct (String.eqb_spec key k) as [->|Hne].
  - destruct ((k =? "cast") && isArray (get cur k) && isArray (get merged k))
      eqn:Hc.
    { exfalso. apply andb_prop in Hc as [Hc Ha].
      apply andb_prop in Hc as [Hc _].
      unfold joined_key in Hj. rewrite Hc, Ha in Hj. discriminate. }
    destruct ((k =? "other_titles") && isArray (get cur k)
              && isArray (get merged k)) eqn:Ho.
    { exfalso. apply andb_prop in Ho as [Ho Ha].
      apply andb_prop in Ho as [Ho _].
      unfold joined_key in Hj. rewrite Ho, Ha, orb_true_r in Hj.
      discriminate. }
    destruct (truthy_not_null _ Ht) as [Hn He].
    rewrite Ht, Hn, He in H. simpl in H. now injection H as <-.
  - destruct ((key =? "cast") && isArray (get cur key)
              && isArray (get merged key)).
    { destruct (emapM actor_name (items (get merged key))) as [names|];
        cbn [ebind] in H; [|discriminate].
      match type of H with
      | ebind ?m _ = _ => destruct m as [newActors|]
      end; cbn [ebind] in H; [|discriminate].
      injection H as <-. now apply get_set_other. }
    destruct ((key =? "other_titles") && isArray (get cur key)
              && isArray (get merged key)).
    { injection H as <-. now apply get_set_other. }
    destruct (negb (truthy (get merged key)) || strict_eq (get merged key) JNull
              || strict_eq (get merged key) (JStr ""));
      injection H as <-; [now apply get_set_other|reflexivity].
Qed.

Lemma efold_mergeKey_keeps (cur : Object) (k : string) (ks : list string) :
  forall merged m',
    efold (mergeKey cur) ks merged = Ok m' ->
    truthy (get merged k) = true ->
    joined_key k && isArray (get merged k) = false ->
    get m' k = get merged k.
Proof.
  induction ks as [|key ks IH]; intros merged m' H Ht Hj.
  - simpl in H. now injection H as <-.
  - cbn [efold] in H.
    destruct (mergeKey cur merged key) as [m1|] eqn:H1; cbn [ebind] in H;
      [|discriminate].
    pose proof (mergeKey_keeps _ _ _ _ _ H1 Ht Hj) as Hk.
    rewrite <- Hk. apply IH; [exact H|now rewrite Hk|now rewrite Hk].
Qed.



(** X2.  Whatever the records look like, and however many are merged:
    when [mergeMovieData] returns, a truthy value of the first record is
    still there under its key, unless the key is [sources] or the value
    is an array under [cast] or [other_titles]. *)
Theorem merge_never_replaces_a_known_value (first : Object)
        (rest : list Object) (m : Object) (k : string) :
  mergeMovieData (Some (first :: rest)) = Ok (Some m) ->
  k <> "sources" ->
  truthy (get first k) = true ->
  joined_key k && isArray (get first k) = false ->
  get m k = get first k.
Proof.
  intros Hmerge Hk Ht Hj. unfold mergeMovieData in Hmerge.
  destruct (efold mergeInto rest first) as [merged|] eqn:Hm;
    cbn [ebind] in Hmerge; [|discriminate].
  injection Hmerge as <-. rewrite get_set_other by congruence.
  revert first merged Hm Ht Hj.
  induction rest as [|cur rest IH]; intros first merged Hm Ht Hj.
  - simpl in Hm. now injection Hm as <-.
  - cbn [efold] in Hm.
    destruct (mergeInto first cur) as [m1|] eqn:H1; cbn [ebind] in Hm;
      [|discriminate].
    pose proof (efold_mergeKey_keeps _ _ _ _ _ H1 Ht Hj) as Hkeep.
    rewrite <- Hkeep. apply IH; [exact Hm|now rewrite Hkeep|now rewrite Hkeep].
Qed.

Lemma merge_never_replaces_a_known_value_witness :
  exists m,
    mergeMovieData (Some [alpha; beta]) = Ok (Some m) /\
    get m "title" = JStr "Alpha".
Proof.
  eexists. split; [reflexivity|].
  apply (merge_never_replaces_a_known_value alpha [beta] _ "title");
    [reflexivity | discriminate | reflexivity | reflexivity].
Defined.

(** ** Cleaning, field by field *)

Lemma get_clean_is_color_same (o : Object) :
  get (clean_is_color o) "is_color"
  = if non_null (get o "is_color") then JBool (truthy (get o "is_color"))
    else get o "is_color".
Proof.
  unfold clean_is_color.
  destruct (get o "is_color") as [| |b|n|s|l|o'] eqn:Hg; simpl;
    rewrite ?get_set_same; try reflexivity; exact Hg.
Qed.

Ltac other_key :=
  apply String.eqb_neq; rewrite String.eqb_sym; assumption.

Lemma get_clean_record (rt : Runtime) (movie : Object) (k : string) :
  get (clean_record rt movie) k = clean_field rt k (get movie k).
Proof.
  destruct (k =? "release_year") eqn:E1;
    [apply String.eqb_eq in E1; subst k; clean_get; reflexivity|].
  destruct (k =? "release_month") eqn:E2;
    [apply String.eqb_eq in E2; subst k; clean_get; reflexivity|].
  destruct (k =? "release_day") eqn:E3;
    [apply String.eqb_eq in E3; subst k; clean_get; reflexivity|].
  destruct (k =? "runtime_min") eqn:E4;
    [apply String.eqb_eq in E4; subst k; clean_get; reflexivity|].
  destruct (k =? "budget") eqn:E5;
    [apply String.eqb_eq in E5; subst k; clean_get; reflexivity|].
  destruct (k =? "gross_worldwide_boxoffice") eqn:E6;
    [apply String.eqb_eq in E6; subst k; clean_get; reflexivity|].
  destruct (k =? "is_color") eqn:E7;
    [apply String.eqb_eq in E7; subst k; clean_get;
     rewrite get_clean_is_color_same; clean_get; reflexivity|].
  destruct (k =? "title") eqn:E8;
    [apply String.eqb_eq in E8; subst k; clean_get; reflexivity|].
  destruct (k =? "original_title") eqn:E9;
    [apply String.eqb_eq in E9; subst k; clean_get; reflexivity|].
  destruct (k =? "country") eqn:E10;
    [apply String.eqb_eq in E10; subst k; clean_get; reflexivity|].
  destruct (k =? "description") eqn:E11;
    [apply String.eqb_eq in E11; subst k; clean_get; reflexivity|].
  destruct (k =? "genre") eqn:E12;
    [apply String.eqb_eq in E12; subst k; clean_get; reflexivity|].
  destruct (k =? "distribution") eqn:E13;
    [apply String.eqb_eq in E13; subst k; clean_get; reflexivity|].
  destruct (k =? "studio") eqn:E14;
    [apply String.eqb_eq in E14; subst k; clean_get; reflexivity|].
  destruct (k =? "based_on") eqn:E15;
    [apply String.eqb_eq in E15; subst k; clean_get; reflexivity|].
  destruct (k =? "cast") eqn:E16;
    [apply String.eqb_eq in E16; subst k; clean_get; reflexivity|].
  destruct (k =? "other_titles") eqn:E17;
    [apply String.eqb_eq in E17; subst k; clean_get; reflexivity|].
  unfold clean_field, joined_key.
  cbn [existsb int_fields float_fields string_fields].
  rewrite E1, E2, E3, E4, E5, E6, E7, E8, E9, E10, E11, E12, E13, E14, E15,
    E16, E17. cbn [orb].
  unfold clean_record. simpl fold_left.
  rewrite !get_ensure_array_other by other_key.
  rewrite !get_clean_string_other by other_key.
  rewrite get_clean_is_color by other_key.
  rewrite !get_retype_other by other_key.
  reflexivity.
Qed.

Lemma unmanaged_key (rt : Runtime) (k : string) :
  managed k = false ->
  (forall v, clean_field rt k v = v) /\ joined_key k = false /\ k <> "sources".
Proof.
  unfold managed. cbn. intros H.
  repeat match type of H with
         | (_ || _) = false => apply orb_false_elim in H as [? H]
         end.
  split; [|split].
  - intros v. unfold clean_field, joined_key.
    cbn [existsb int_fields float_fields string_fields].
    repeat match goal with
           | E : (k =? _) = false |- _ => rewrite E; clear E
           end.
    reflexivity.
  - unfold joined_key.
    repeat match goal with
           | E : (k =? _) = false |- _ => rewrite E; clear E
           end.
    reflexivity.
  - intros ->. discriminate.
Qed.

(** X3.  [cleanMovieData] works field by field: what the cleaned record
    holds under a key depends on what the record held under that key
    only, and a key outside the date parts, the runtime, the two amounts,
    [is_color], the eight text fields, [cast] and [other_titles] keeps
    its value. *)
Theorem cleaning_is_field_by_field (rt : Runtime) (movie : Object) :
  (forall k, get (clean_record rt movie) k = clean_field rt k (get movie k)) /\
  (forall k, managed k = false -> get (clean_record rt movie) k = get movie k).
Proof.
  split.
  - apply get_clean_record.
  - intros k Hk. rewrite get_clean_record.
    now apply (unmanaged_key rt k Hk).
Qed.

(** ** Cleaning twice *)

Lemma trimStart_first_ok (s : string) : first_ok s = true -> trimStart s = s.
Proof.
  destruct s as [|c r]; simpl; [reflexivity|].
  destruct (is_space c); [discriminate|reflexivity].
Qed.

Lemma trimEnd_cons (c : ascii) (r : string) :
  trimEnd (String c r)
  = match trimEnd r with
    | EmptyString => if is_space c then EmptyString else String c EmptyString
    | r' => String c r'
    end.
Proof. reflexivity. Qed.

Lemma trimEnd_last_ok (s : string) : last_ok s = true -> trimEnd s = s.
Proof.
  induction s as [|c r IH]; [reflexivity|].
  destruct r as [|c' r'].
  - simpl. destruct (is_space c); [discriminate|reflexivity].
  - intros H. change (last_ok (String c' r') = true) in H.
    rewrite trimEnd_cons, (IH H). reflexivity.
Qed.

Lemma trim_trimmed (s : string) : trimmed s = true -> trim s = s.
Proof.
  unfold trimmed, trim. intros H. apply andb_prop in H as [Hf Hl].
  rewrite (trimStart_first_ok _ Hf). now apply trimEnd_last_ok.
Qed.

Lemma trim_trim (s : string) : trim (trim s) = trim s.
Proof. apply trim_trimmed, trimmed_trim. Qed.




(** ** The enrichment workflow: what comes back *)

Section Enrichment.
Context {S : Type}.
Variable rt : Runtime.
Variable this : Fetcher S.



End Enrichment.


(** ** The discovery workflow: what comes back *)

Section Yields.
Context {S : Type}.
Variable inv : Object -> Prop.

Lemma yields_ret {A} (post : A -> Prop) (a : A) :
  post a -> yields (S:=S) inv post (ret a).
Proof.
  intros Ha t Ht. simpl. split; [exact Ht|].
  intros b Hb. now injection Hb as <-.
Qed.

Lemma yields_throw {A} (post : A -> Prop) (e : JsError) :
  yields (S:=S) inv post (throw e).
Proof. intros t Ht. simpl. split; [exact Ht|discriminate]. Qed.

Lemma yields_lift {A} (post : A -> Prop) (x : Exc A) :
  (forall a, x = Ok a -> post a) -> yields (S:=S) inv post (lift x).
Proof. intros Hx t Ht. simpl. split; [exact Ht|exact Hx]. Qed.

Lemma yields_bind {A B} (post : A -> Prop) (post' : B -> Prop)
      (m : M (Discovery * S) A) (f : A -> M (Discovery * S) B) :
  yields inv post m -> (forall a, post a -> yields inv post' (f a)) ->
  yields inv post' (bind m f).
Proof.
  intros Hm Hf t Ht. unfold bind.
  destruct (Hm t Ht) as [Hi Hp].
  destruct (m t) as [t1 [a|e]]; simpl in *.
  - apply Hf; [now apply Hp|exact Hi].
  - split; [exact Hi|discriminate].
Qed.

Lemma yields_try_catch {A} (post : A -> Prop) (m : M (Discovery * S) A)
      (h : JsError -> M (Discovery * S) A) :
  yields inv post m -> (forall e, yields inv post (h e)) ->
  yields inv post (try_catch m h).
Proof.
  intros Hm Hh t Ht. unfold try_catch.
  destruct (Hm t Ht) as [Hi Hp].
  destruct (m t) as [t1 [a|e]]; simpl in *.
  - split; [exact Hi|exact Hp].
  - now apply Hh.
Qed.

Lemma yields_world {A} (m : M S A) :
  yields inv (fun _ => True) (world m).
Proof.
  intros [d s] Ht. unfold world, zoom. simpl in *.
  destruct (m s) as [s1 r]. simpl. split; [exact Ht|trivial].
Qed.

Lemma yields_set_locals (f : Discovery -> Discovery) :
  (forall d, Forall inv (results d) -> Forall inv (results (f d))) ->
  yields (S:=S) inv (fun _ => True) (set_locals f).
Proof. intros Hf [d s] Ht. simpl in *. split; [now apply Hf|trivial]. Qed.

Lemma yields_locals {A} (f : Discovery -> A) :
  yields (S:=S) inv (fun _ => True) (locals f).
Proof. intros [d s] Ht. simpl in *. split; [exact Ht|trivial]. Qed.

Lemma yields_promise_all {A} (post : A -> Prop)
      (ps : list (M (Discovery * S) A)) :
  Forall (yields inv post) ps ->
  yields inv (Forall post) (promise_all ps).
Proof.
  induction ps as [|p rest IH]; intros Hps.
  - apply yields_ret. constructor.
  - inversion Hps as [|p' rest' Hp Hrest]; subst.
    specialize (IH Hrest). intros t Ht. cbn [promise_all].
    destruct (Hp t Ht) as [Hi Ha].
    destruct (p t) as [t1 [a|e]]; simpl in Hi, Ha.
    + apply (yields_bind (Forall post)); [exact IH| |exact Hi].
      intros l Hl. apply yields_ret. constructor; [now apply Ha|exact Hl].
    + simpl. split; [now apply IH|discriminate].
Qed.

Lemma valid_results_pass (l : list (option Object)) :
  Forall (fun o => forall r, o = Some r -> inv r) l ->
  Forall inv (valid_results l).
Proof.
  induction 1 as [|o l Ho _ IH]; [constructor|].
  destruct o as [r|]; simpl; [|exact IH].
  constructor; [now apply Ho|exact IH].
Qed.

End Yields.

Section DiscoveryResults.
Context {S : Type}.
Variable rt : Runtime.
Variable this : Fetcher S.
Variable filters : Object.

Lemma yields_process_movie (api : TmdbOps S) (movie : JsVal) :
  yields (passes rt filters)
         (fun o => forall r, o = Some r -> passes rt filters r)
         (process_movie rt api filters movie).
Proof.
  unfold process_movie. apply yields_try_catch.
  - apply (yields_bind _ (fun _ => True)); [now apply yields_lift|].
    intros _ _.
    apply (yields_bind _ (fun _ => True)); [now apply yields_lift|].
    intros _ _.
    apply (yields_bind _ (fun _ => True)); [apply yields_world|].
    intros movieDetails _.
    apply (yields_bind _ (fun _ => True)); [now apply yields_lift|].
    intros [normalized|] _.
    + cbv zeta.
      change (if truthy (get filters "country")
              then delete filters "country" else filters)
        with (without_country filters).
      apply (yields_bind _ (fun ok =>
               matchesFilters rt normalized (without_country filters)
               = Ok ok)); [now apply yields_lift|].
      intros ok Hok. apply yields_ret. intros r Hr.
      destruct ok; [|discriminate]. injection Hr as <-. exact Hok.
    + apply yields_ret. discriminate.
  - intros e.
    apply (yields_bind _ (fun _ => True)); [now apply yields_lift|].
    intros _ _. apply yields_ret. discriminate.
Qed.

Lemma yields_batch_loop (api : TmdbOps S)
      (onProgress : option (Object -> M S unit)) (page : Z)
      (maxPages : JsNum) (discoverResult : JsVal) (fuel : nat) :
  forall entries,
    yields (passes rt filters) (fun _ => True)
           (batch_loop rt this fuel api filters onProgress page maxPages
                       discoverResult entries).
Proof.
  induction fuel as [|fuel IH]; intros entries.
  - destruct entries; simpl; now apply yields_ret.
  - destruct entries as [|x xs]; [simpl; now apply yields_ret|].
    cbn [batch_loop]. cbv zeta.
    apply (yields_bind _ (Forall (fun o => forall r, o = Some r ->
                                                     passes rt filters r))).
    { apply yields_promise_all. apply Forall_forall. intros m Hm.
      apply in_map_iff in Hm as (mv & <- & _). apply yields_process_movie. }
    intros batchResults Hb.
    apply (yields_bind _ (fun _ => True)).
    { apply yields_set_locals. intros d Hd. unfold push_results. simpl.
      apply Forall_app. split; [exact Hd|now apply valid_results_pass]. }
    intros _ _.
    apply (yields_bind _ (fun _ => True)).
    { destruct onProgress as [callback|]; [|now apply yields_ret].
      apply (yields_bind _ (fun _ => True)); [now apply yields_lift|].
      intros totalPages _.
      apply (yields_bind _ (fun _ => True)); [apply yields_locals|].
      intros current _.
      apply (yields_bind _ (fun _ => True)); [apply yields_locals|].
      intros total _. apply yields_world. }
    intros _ _.
    apply (yields_bind _ (fun _ => True)); [apply yields_world|].
    intros _ _. apply IH.
Qed.

Lemma yields_discover_page (api : TmdbOps S) (tmdbFilters : Object)
      (onProgress : option (Object -> M S unit)) (page : Z)
      (maxPages : JsNum) :
  yields (passes rt filters) (fun _ => True)
         (discover_page rt this api filters tmdbFilters onProgress page
                        maxPages).
Proof.
  unfold discover_page. apply yields_try_catch.
  - cbv zeta.
    apply (yields_bind _ (fun _ => True)); [apply yields_world|].
    intros discoverResult _.
    apply (yields_bind _ (fun _ => True)); [now apply yields_lift|].
    intros total _.
    apply (yields_bind _ (fun _ => True)).
    { unfold when. destruct (truthy total); [|now apply yields_ret].
      apply (yields_bind _ (fun _ => True)).
      { apply yields_set_locals. intros d Hd. exact Hd. }
      intros _ _.
      apply (yields_bind _ (fun _ => True)); [now apply yields_lift|].
      intros _ _.
      apply (yields_bind _ (fun _ => True)); [now apply yields_lift|].
      intros _ _. now apply yields_ret. }
    intros _ _.
    apply (yields_bind _ (fun _ => True)); [now apply yields_lift|].
    intros nonempty _.
    apply (yields_bind _ (fun _ => True)).
    { destruct nonempty.
      - apply (yields_bind _ (fun _ => True)).
        { apply yields_set_locals. intros d Hd. exact Hd. }
        intros _ _.
        destruct (getPropOpt discoverResult "results");
          try apply yields_throw.
        apply yields_batch_loop.
      - apply yields_set_locals. intros d Hd. exact Hd. }
    intros _ _.
    apply (yields_bind _ (fun _ => True)); [apply yields_locals|].
    intros empty _. now apply yields_lift.
  - intros e.
    apply (yields_bind _ (fun _ => True)).
    { apply yields_set_locals. intros d Hd. exact Hd. }
    intros _ _.
    apply (yields_bind _ (fun _ => True)); [apply yields_locals|].
    intros empty _. now apply yields_ret.
Qed.

Lemma yields_page_loop (api : TmdbOps S) (tmdbFilters : Object)
      (onProgress : option (Object -> M S unit)) (maxPages : JsNum)
      (fuel : nat) :
  forall page,
    yields (passes rt filters) (fun _ => True)
           (page_loop rt this fuel api filters tmdbFilters onProgress page
                      maxPages).
Proof.
  induction fuel as [|fuel IH]; intros page; simpl.
  - now apply yields_ret.
  - apply (yields_bind _ (fun _ => True)); [apply yields_discover_page|].
    intros [|] _; [now apply yields_ret|apply IH].
Qed.

Lemma yields_discover_run (onProgress : option (Object -> M S unit)) :
  yields (passes rt filters) (fun _ => True)
         (discover_run rt this filters onProgress).
Proof.
  unfold discover_run.
  apply (yields_bind _ (fun _ => True)).
  { destruct (tmdbApi this) as [api|]; [|now apply yields_ret].
    apply (yields_bind _ (fun _ => True)); [apply yields_world|].
    intros tmdbFilters _.
    apply (yields_bind _ (fun _ => True)); [now apply yields_lift|].
    intros maxPages _. apply yields_page_loop. }
  intros _ _.
  apply (yields_bind _ (fun _ => True)); [apply yields_locals|].
  intros total _.
  apply (yields_bind _ (fun _ => True)); [now apply yields_lift|].
  intros _ _. now apply yields_ret.
Qed.

End DiscoveryResults.

(** X6.  Every record that [discoverMovies] returns passed
    [matchesFilters] with the filters of the call from which the country
    was taken out: the date range and the genre are checked on each
    record, the country on none. *)
Theorem discovered_records_pass_the_filters {S : Type} (rt : Runtime)
        (this : Fetcher S) (filters : Object)
        (onProgress : option (Object -> M S unit)) (s : S) :
  exists s' l,
    discoverMovies rt this filters onProgress s = (s', Ok l) /\
    Forall (fun r => matchesFilters rt r (without_country filters) = Ok true)
           l.
Proof.
  destruct (discoverMovies_returns rt this filters onProgress s)
    as (d & s' & o & Hrun & Hd).
  eexists s', _. split; [exact Hd|].
  destruct o as [u|e]; [|constructor].
  destruct (yields_discover_run rt this filters onProgress
              (discovery_start, s)) as [Hinv _]; [constructor|].
  rewrite Hrun in Hinv. exact Hinv.
Qed.

(** ** The title search: where the records come from *)

Section SearchByTitle.
Context {S : Type}.
Variable rt : Runtime.
Variable this : Fetcher S.





End SearchByTitle.








(** ** The records of the adapters always merge *)

(** As [returned], keeping the equations. *)
Ltac returned_with H :=
  repeat match type of H with
    | ebind ?m _ = Ok _ =>
        let x := fresh "x" in
        let E := fresh "E" in
        destruct m as [x|] eqn:E; cbn [ebind] in H; [|discriminate H]
    | (if ?c then _ else _) = Ok _ => destruct c eqn:?
    | (let '(_, _) := ?p in _) = Ok _ => destruct p eqn:?
    end.

Lemma forallb_map_snd_filter {A} (keep : A * JsVal -> bool)
      (l : list (A * JsVal)) :
  forallb entry_ok (map snd l) = true ->
  forallb entry_ok (map snd (filter keep l)) = true.
Proof.
  induction l as [|x l IH]; simpl; [reflexivity|].
  intros H. apply andb_prop in H as [Hx Hl].
  destruct (keep x); simpl; [rewrite Hx|]; now apply IH.
Qed.

Lemma omdb_parse_cast_ok (actors : JsVal) (l : list JsVal) :
  OMDBApi.parse_cast actors = Ok l -> forallb entry_ok l = true.
Proof.
  unfold OMDBApi.parse_cast.
  destruct (truthy actors && negb (OMDBApi.is_NA actors));
    [|now intros H; injection H as <-].
  destruct actors as [| |b|n|s|a|o]; try discriminate.
  intros H. injection H as <-. apply forallb_map_snd_filter.
  rewrite map_map. simpl.
  induction (OMDBApi.split_comma_space s EmptyString); simpl; auto.
Qed.

Section TmdbCast.
Variable rt : Runtime.

Lemma tmdb_cast_entries (l : list JsVal) :
  forall (index : nat) (out : list JsVal),
    TMDBApi.emapM_index (TMDBApi.cast_entry rt) l index = Ok out ->
    forallb entry_ok out = true /\
    List.length out = List.length l /\
    map name_of out = map name_of l.
Proof.
  induction l as [|actor l IH]; intros index out H.
  - simpl in H. injection H as <-. auto.
  - cbn [TMDBApi.emapM_index] in H.
    destruct (TMDBApi.cast_entry rt actor index) as [entry|] eqn:He;
      cbn [ebind] in H; [|discriminate].
    destruct (TMDBApi.emapM_index (TMDBApi.cast_entry rt) l (Datatypes.S index))
      as [rest|] eqn:Hr; cbn [ebind] in H; [|discriminate].
    injection H as <-. destruct (IH _ _ Hr) as (Hok & Hlen & Hnames).
    unfold TMDBApi.cast_entry in He.
    destruct (getProp actor "name") as [name|] eqn:Hn; cbn [ebind] in He;
      [|discriminate].
    cbv zeta in He.
    match type of He with
    | ebind ?m _ = _ =>
        destruct m as [profile_url|]; cbn [ebind] in He; [|discriminate]
    end.
    injection He as <-. split; [|split].
    + simpl. exact Hok.
    + simpl. now rewrite Hlen.
    + cbn [map]. rewrite Hnames. f_equal.
      destruct actor; simpl in Hn; try discriminate;
        injection Hn as <-; reflexivity.
Qed.

Lemma tmdb_parse_cast_ok (credits : JsVal) (l : list JsVal) :
  TMDBApi.parse_cast rt credits = Ok l -> forallb entry_ok l = true.
Proof.
  unfold TMDBApi.parse_cast.
  destruct (truthy credits && truthy (getPropOpt credits "cast"));
    [|now intros H; injection H as <-].
  destruct (getPropOpt credits "cast"); try discriminate.
  intros H. now apply tmdb_cast_entries in H.
Qed.

Lemma imdb_stars_ok (l out : list JsVal) :
  emapM (IMDBApi.star_entry) l = Ok out -> forallb entry_ok out = true.
Proof.
  revert out. induction l as [|star l IH]; intros out H.
  - simpl in H. now injection H as <-.
  - cbn [emapM] in H.
    destruct (IMDBApi.star_entry star) as [entry|] eqn:He; cbn [ebind] in H;
      [|discriminate].
    destruct (emapM IMDBApi.star_entry l) as [rest|]; cbn [ebind] in H;
      [|discriminate].
    injection H as <-. simpl. rewrite (IH rest eq_refl).
    unfold IMDBApi.star_entry in He.
    destruct (IMDBApi.person_name star); cbn [ebind] in He; [|discriminate].
    now injection He as <-.
Qed.

Lemma normalised_cast_ok (r : Object) :
  normalised rt r ->
  cast_ok r = true /\ truthy (get r "source") = true.
Proof.
  intros [payload [H|[H|H]]].
  - unfold OMDBApi.normalizeMovieData in H. returned_with H;
      try discriminate H.
    injection H as <-. split; [|reflexivity].
    unfold cast_ok. cbn [get String.eqb Ascii.eqb Bool.eqb items].
    eapply omdb_parse_cast_ok; eassumption.
  - unfold TMDBApi.normalizeMovieData in H. returned_with H;
      try discriminate H.
    injection H as <-. split; [|reflexivity].
    unfold cast_ok. cbn [get String.eqb Ascii.eqb Bool.eqb items].
    eapply tmdb_parse_cast_ok; eassumption.
  - unfold IMDBApi.normalizeMovieData in H. returned_with H;
      try discriminate H;
      injection H as <-; (split; [|reflexivity]);
      unfold cast_ok; cbn [get String.eqb Ascii.eqb Bool.eqb items];
      match goal with
      | E : (if ?c then arr_map _ ?v else _) = Ok _ |- _ =>
          destruct c;
          [ destruct v; try discriminate E; simpl in E;
            eapply imdb_stars_ok; eassumption
          | injection E as <-; reflexivity ]
      end.
Qed.

End TmdbCast.

Lemma filter_truthy_all (l : list JsVal) :
  Forall (fun v => truthy v = true) l -> filter truthy l = l.
Proof.
  induction 1 as [|v l Hv _ IH]; simpl; [reflexivity|].
  now rewrite Hv, IH.
Qed.

(** X9.  Records that came out of the normalisers of the adapters always
    merge: [mergeMovieData] does not throw on them, and the [sources] of
    the merged record lists the tag of every one of them, in order. *)
Theorem normalised_records_always_merge (rt : Runtime) (rs : list Object) :
  rs <> [] -> Forall (normalised rt) rs ->
  exists m,
    mergeMovieData (Some rs) = Ok (Some m) /\
    get m "sources" = JArr (map (fun r => get r "source") rs).
Proof.
  intros Hne Hall.
  assert (Hcast : forallb cast_ok rs = true).
  { apply forallb_forall. intros r Hr.
    rewrite Forall_forall in Hall. now apply (normalised_cast_ok rt r), Hall. }
  assert (Hsrc : filter truthy (map (fun r => get r "source") rs)
                 = map (fun r => get r "source") rs).
  { apply filter_truthy_all. apply Forall_map.
    eapply Forall_impl; [|exact Hall].
    intros r Hr. now apply (normalised_cast_ok rt r). }
  destruct rs as [|first rest]; [congruence|].
  simpl in Hcast. apply andb_prop in Hcast as [Hf Hr].
  destruct (efold_mergeInto_total rest first Hf Hr) as (merged & Hm & _).
  exists (set merged "sources" (JArr (sources_of (first :: rest)))).
  split.
  - unfold mergeMovieData. rewrite Hm. reflexivity.
  - rewrite get_set_same. unfold sources_of. now rewrite Hsrc.
Qed.

Lemma normalised_records_always_merge_witness :
  exists m,
    mergeMovieData
      (Some [record_of (OMDBApi.normalizeMovieData sample_rt omdb_payload);
             record_of (TMDBApi.normalizeMovieData sample_rt tmdb_payload)])
    = Ok (Some m) /\
    get m "sources" = JArr [JStr "OMDB"; JStr "TMDB"].
Proof.
  apply (normalised_records_always_merge sample_rt
           [record_of (OMDBApi.normalizeMovieData sample_rt omdb_payload);
            record_of (TMDBApi.normalizeMovieData sample_rt tmdb_payload)]).
  - discriminate.
  - constructor; [|constructor; [|constructor]].
    + exists omdb_payload. left. reflexivity.
    + exists tmdb_payload. right. left. reflexivity.
Defined.

(** X10.  Under [other_titles] the arrays of two records are joined end
    to end, the titles of the incoming record after those accumulated;
    nothing is compared, so a title that both records carry is there
    twice. *)
Theorem merge_joins_other_titles (rs : list Object) (cur acc : Object)
        (a c : list JsVal) :
  mergeMovieData (Some rs) = Ok (Some acc) ->
  cast_ok acc = true -> cast_ok cur = true ->
  get acc "other_titles" = JArr a -> get cur "other_titles" = JArr c ->
  exists m,
    mergeMovieData (Some (rs ++ [cur])) = Ok (Some m) /\
    get m "other_titles" = JArr (a ++ c).
Proof.
  intros Hacc Ha Hc Hta Htc.
  destruct (merge_snoc rs cur acc Hacc Ha Hc) as (m & Hm & _ & Hk).
  exists m. split; [exact Hm|].
  rewrite Hk by discriminate. rewrite merged_value_plain by reflexivity.
  rewrite Hta, Htc. reflexivity.
Qed.

Lemma merge_joins_other_titles_witness :
  exists m,
    mergeMovieData (Some ([with_french_title] ++ [with_french_title]))
    = Ok (Some m) /\
    get m "other_titles" = JArr ([french_title] ++ [french_title]).
Proof.
  apply (merge_joins_other_titles [with_french_title] with_french_title
           with_french_title_merged [french_title] [french_title]);
    reflexivity.
Defined.

(** ** The filter predicate *)




Lemma text_when_truthy (v : JsVal) :
  text_or_falsy v = true -> truthy v = true -> exists s, v = JStr s.
Proof.
  destruct v as [| |b|n|s|l|o]; simpl; intros H Ht; eauto;
    try discriminate; rewrite Ht in H; discriminate.
Qed.






(** ** Normalising a genre *)

Lemma lower_char_not_upper (c : ascii) : not_upper (lower_char c) = true.
Proof. destruct c as [[] [] [] [] [] [] [] []]; reflexivity. Qed.

Lemma toLowerCase_not_upper (s : string) :
  all_chars not_upper (toLowerCase s) = true.
Proof.
  induction s as [|c r IH]; [reflexivity|].
  change (not_upper (lower_char c) && all_chars not_upper (toLowerCase r)
          = true).
  now rewrite lower_char_not_upper.
Qed.

Lemma toLowerCase_fixed (s : string) :
  all_chars not_upper s = true -> toLowerCase s = s.
Proof.
  induction s as [|c r IH]; [reflexivity|].
  intros H. simpl in H. apply andb_prop in H as [Hc Hr].
  change (String (lower_char c) (toLowerCase r) = String c r).
  rewrite (IH Hr). unfold lower_char.
  unfold not_upper in Hc. now destruct (is_upper c).
Qed.

Lemma all_chars_trimStart (p : ascii -> bool) (s : string) :
  all_chars p s = true -> all_chars p (trimStart s) = true.
Proof.
  induction s as [|c r IH]; [reflexivity|].
  intros H. simpl. destruct (is_space c); [|exact H].
  simpl in H. apply andb_prop in H as [_ Hr]. now apply IH.
Qed.

Lemma all_chars_trimEnd (p : ascii -> bool) (s : string) :
  all_chars p s = true -> all_chars p (trimEnd s) = true.
Proof.
  induction s as [|c r IH]; [reflexivity|].
  intros H. simpl in H. apply andb_prop in H as [Hc Hr].
  specialize (IH Hr). rewrite trimEnd_cons.
  destruct (trimEnd r) as [|c' r'].
  - destruct (is_space c); [reflexivity|]. simpl. now rewrite Hc.
  - change (p c && all_chars p (String c' r') = true). now rewrite Hc.
Qed.

(** X14.  [normalizeGenre] returns a lower-case string without white
    space at either end, and applied to its own result it returns it
    unchanged. *)
Theorem normalizeGenre_is_idempotent (genre : JsVal) (g : string) :
  normalizeGenre genre = Ok g ->
  normalizeGenre (JStr g) = Ok g /\ trimmed g = true /\ toLowerCase g = g.
Proof.
  unfold normalizeGenre. destruct (truthy genre) eqn:Ht; cbn [negb].
  - destruct genre as [| |b|n|s|l|o]; try discriminate.
    cbn [call_toLowerCase ebind]. intros H. injection H as <-.
    assert (Hlow : toLowerCase (trim (toLowerCase s)) = trim (toLowerCase s)).
    { apply toLowerCase_fixed. unfold trim.
      apply all_chars_trimEnd, all_chars_trimStart, toLowerCase_not_upper. }
    split; [|split; [apply trimmed_trim|exact Hlow]].
    destruct (truthy (JStr (trim (toLowerCase s)))) eqn:Hg; cbn [negb].
    + now rewrite Hlow, trim_trim.
    + simpl in Hg. destruct (String.eqb_spec (trim (toLowerCase s)) "") as [->|];
        [reflexivity|discriminate].
  - intros H. injection H as <-. repeat split.
Qed.

Lemma normalizeGenre_is_idempotent_witness :
  normalizeGenre (JStr "sci-fi") = Ok "sci-fi".
Proof.
  apply (normalizeGenre_is_idempotent (JStr "  Sci-Fi ") "sci-fi").
  reflexivity.
Defined.

(** ** The OMDB adapter *)

Lemma strip_tt_without_prefix (s : string) :
  startsWith s "tt" = false -> OMDBApi.strip_tt s = s.
Proof.
  destruct s as [|c1 [|c2 r]]; try reflexivity;
    destruct c1 as [[] [] [] [] [] [] [] []]; try reflexivity.
  destruct c2 as [[] [] [] [] [] [] [] []]; try reflexivity.
  unfold startsWith. cbn. destruct r; discriminate.
Qed.

(** X15.  An IMDb id may be given with or without its [tt] prefix: the
    lookups of the OMDB and of the IMDB adapter do the same on ['tt' + s]
    as on [s], for a non-empty [s] that does not itself start with
    [tt]. *)
Theorem id_prefix_is_optional {E : Type} (rt : Runtime) (net : Network E)
        (s : string) :
  s <> "" -> startsWith s "tt" = false ->
  OMDBApi.getMovieDetails net (JStr ("tt" ++ s))
  = OMDBApi.getMovieDetails net (JStr s) /\
  IMDBApi.getMovieDetails rt net (JStr ("tt" ++ s))
  = IMDBApi.getMovieDetails rt net (JStr s).
Proof.
  intros Hne Hs. split.
  - unfold OMDBApi.getMovieDetails.
    assert (Ht : truthy (JStr s) = true).
    { simpl. destruct (String.eqb_spec s ""); [contradiction|reflexivity]. }
    rewrite Ht. rewrite (strip_tt_without_prefix s Hs). reflexivity.
  - unfold IMDBApi.getMovieDetails. rewrite Hs.
    assert (Hp : startsWith ("tt" ++ s) "tt" = true).
    { unfold startsWith. cbn. now destruct s. }
    rewrite Hp. reflexivity.
Qed.

Lemma id_prefix_is_optional_witness :
  OMDBApi.getMovieDetails (network not_found) (JStr "tt0000001")
  = OMDBApi.getMovieDetails (network not_found) (JStr "0000001").
Proof.
  apply (id_prefix_is_optional sample_rt (network not_found) "0000001");
    [discriminate | reflexivity].
Defined.

Section OmdbRequests.
Context {E : Type}.
Variable rt : Runtime.
Variable net : Network E.




End OmdbRequests.





Section OmdbBatch.
Context {E : Type}.
Variable rt : Runtime.
Variable net : Network E.


End OmdbBatch.


(** ** The records of the OMDB adapter *)

Section OmdbRecords.
Variable rt : Runtime.

Lemma parseNumeric_number_or_null (value : JsVal) (isFloat : bool) :
  number_or_null (OMDBApi.parseNumeric rt value isFloat) = true.
Proof.
  unfold OMDBApi.parseNumeric.
  destruct (negb (truthy value) || OMDBApi.is_NA value); [reflexivity|].
  destruct (negb (converts value)); [reflexivity|].
  cbv zeta.
  match goal with
  | |- context [OMDBApi.isNaN ?n] => destruct n as [|neg|q]
  end; reflexivity.
Qed.

Lemma parse_runtime_number_or_null (runtime x : JsVal) :
  OMDBApi.parse_runtime rt runtime = Ok x -> number_or_null x = true.
Proof.
  unfold OMDBApi.parse_runtime.
  destruct (truthy runtime); [|now intros H; injection H as <-].
  destruct runtime; try discriminate.
  intros H. injection H as <-. apply parseNumeric_number_or_null.
Qed.

Lemma unless_NA_not_NA (v : JsVal) : OMDBApi.unless_NA v <> JStr "N/A".
Proof.
  unfold OMDBApi.unless_NA. destruct (OMDBApi.is_NA v) eqn:H;
    [discriminate|].
  intros ->. discriminate H.
Qed.

Lemma omdb_cast_entries (s : string) :
  forall cur,
    Forall omdb_cast_entry
      (map snd
         (filter (fun a : string * JsVal => (0 <? String.length (fst a))%nat)
            (map (fun actor =>
                    (trim actor,
                     JObj [("name", JStr (trim actor)); ("role", JNull)]))
                 (OMDBApi.split_comma_space s cur)))).
Proof.
  intros cur.
  induction (OMDBApi.split_comma_space s cur) as [|actor l IH];
    [constructor|].
  cbn [map filter fst].
  destruct (0 <? String.length (trim actor))%nat eqn:Hlen; [|exact IH].
  cbn [map snd]. constructor; [|exact IH].
  exists (trim actor). split; [reflexivity|].
  split; [|apply trimmed_trim].
  intros Heq. rewrite Heq in Hlen. discriminate.
Qed.

Lemma omdb_parse_cast_entries (actors : JsVal) (l : list JsVal) :
  OMDBApi.parse_cast actors = Ok l -> Forall omdb_cast_entry l.
Proof.
  unfold OMDBApi.parse_cast.
  destruct (truthy actors && negb (OMDBApi.is_NA actors));
    [|intros H; injection H as <-; constructor].
  destruct actors as [| |b|n|s|a|o]; try discriminate.
  intros H. injection H as <-. apply omdb_cast_entries.
Qed.

End OmdbRecords.

(** X19.  In a record of the OMDB adapter, the runtime, the two amounts,
    the rating, the vote count and the metascore are [null] or a number
    that is not [NaN]; and none of the twelve fields that the adapter
    guards holds the placeholder 'N/A'. *)
Theorem omdb_record_has_no_placeholder (rt : Runtime) (payload : JsVal)
        (r : Object) :
  OMDBApi.normalizeMovieData rt payload = Ok (Some r) ->
  (forall k, In k omdb_numeric_fields -> number_or_null (get r k) = true) /\
  (forall k, In k omdb_guarded_fields -> get r k <> JStr "N/A").
Proof.
  unfold OMDBApi.normalizeMovieData. intros H.
  returned_with H; try discriminate H.
  injection H as <-. split.
  - intros k Hk. simpl in Hk.
    destruct Hk as [<-|[<-|[<-|[<-|[<-|[<-|[]]]]]]];
      cbn [get String.eqb Ascii.eqb Bool.eqb];
      first [ apply parseNumeric_number_or_null
            | eapply parse_runtime_number_or_null; eassumption ].
  - intros k Hk. simpl in Hk.
    destruct Hk as [<-|[<-|[<-|[<-|[<-|[<-|[<-|[<-|[<-|[<-|[<-|[<-|[]]]]]]]]]]]]];
      cbn [get String.eqb Ascii.eqb Bool.eqb]; apply unless_NA_not_NA.
Qed.

Lemma omdb_record_has_no_placeholder_witness :
  number_or_null
    (get (record_of (OMDBApi.normalizeMovieData sample_rt omdb_payload))
         "runtime_min") = true.
Proof.
  destruct (omdb_record_has_no_placeholder sample_rt omdb_payload
              (record_of (OMDBApi.normalizeMovieData sample_rt omdb_payload))
              eq_refl) as [Hnum _].
  apply Hnum. simpl. auto.
Defined.

(** X20.  The cast of a record of the OMDB adapter is a list of entries
    with a name and no role; no name is empty, and none has white space
    at either end. *)
Theorem omdb_cast_names_are_trimmed (rt : Runtime) (payload : JsVal)
        (r : Object) :
  OMDBApi.normalizeMovieData rt payload = Ok (Some r) ->
  exists cast, get r "cast" = JArr cast /\ Forall omdb_cast_entry cast.
Proof.
  unfold OMDBApi.normalizeMovieData. intros H.
  returned_with H; try discriminate H.
  injection H as <-. eexists. split; [reflexivity|].
  eapply omdb_parse_cast_entries; eassumption.
Qed.

Lemma omdb_cast_names_are_trimmed_witness :
  exists cast,
    get (record_of (OMDBApi.normalizeMovieData sample_rt omdb_payload)) "cast"
    = JArr cast /\
    Forall omdb_cast_entry cast.
Proof.
  apply (omdb_cast_names_are_trimmed sample_rt omdb_payload). reflexivity.
Defined.

(** X21.  The normaliser of the OMDB adapter does not throw on a payload
    whose [Runtime] and [Actors] are strings or falsy and whose
    [imdbVotes] is a string or missing, as in every answer of the
    service. *)
Theorem omdb_normaliser_accepts_text (rt : Runtime) (payload : JsVal) :
  text_or_falsy (getPropOpt payload "Runtime") = true ->
  text_or_falsy (getPropOpt payload "Actors") = true ->
  text_or_absent (getPropOpt payload "imdbVotes") = true ->
  exists r, OMDBApi.normalizeMovieData rt payload = Ok r.
Proof.
  intros Hruntime Hactors Hvotes. unfold OMDBApi.normalizeMovieData.
  destruct (negb (truthy payload) || _); [eauto|]. cbv zeta.
  destruct (OMDBApi.parseReleaseDate rt (getPropOpt payload "Released"))
    as [[year month] day].
  assert (Hr : exists x,
             OMDBApi.parse_runtime rt (getPropOpt payload "Runtime") = Ok x).
  { unfold OMDBApi.parse_runtime.
    destruct (truthy (getPropOpt payload "Runtime")) eqn:Ht; [|eauto].
    destruct (text_when_truthy _ Hruntime Ht) as [s ->]. eauto. }
  assert (Hc : exists x,
             OMDBApi.parse_cast (getPropOpt payload "Actors") = Ok x).
  { unfold OMDBApi.parse_cast.
    destruct (truthy (getPropOpt payload "Actors")) eqn:Ht; [|simpl; eauto].
    destruct (text_when_truthy _ Hactors Ht) as [s ->].
    destruct (_ && _); eauto. }
  assert (Hv : exists x,
             OMDBApi.votes_without_commas (getPropOpt payload "imdbVotes")
             = Ok x).
  { destruct (getPropOpt payload "imdbVotes"); try discriminate; simpl;
      eauto. }
  destruct Hr as [x1 ->], Hc as [x2 ->], Hv as [x3 ->]. cbn [ebind]. eauto.
Qed.

Lemma omdb_normaliser_accepts_text_witness :
  exists r, OMDBApi.normalizeMovieData sample_rt omdb_payload = Ok r.
Proof.
  apply (omdb_normaliser_accepts_text sample_rt omdb_payload); reflexivity.
Defined.

(** ** The TMDB adapter *)

Lemma tmdb_parse_cast_capped (rt : Runtime) (credits : JsVal)
      (cast : list JsVal) :
  TMDBApi.parse_cast rt credits = Ok cast ->
  (List.length cast <= 20)%nat /\
  forall l, getPropOpt credits "cast" = JArr l ->
            List.length cast = Nat.min 20 (List.length l) /\
            map name_of cast = map name_of (firstn 20 l).
Proof.
  unfold TMDBApi.parse_cast.
  destruct (truthy credits && truthy (getPropOpt credits "cast")) eqn:Hc.
  - destruct (getPropOpt credits "cast") as [| |b|n|s|l|o]; try discriminate.
    intros H. apply tmdb_cast_entries in H as (_ & Hlen & Hnames).
    rewrite length_firstn in Hlen. split; [lia|].
    intros l0 Hl0. injection Hl0 as <-. split; [exact Hlen|exact Hnames].
  - intros H. injection H as <-. split; [simpl; lia|].
    intros l Hl. rewrite Hl in Hc.
    destruct credits; simpl in Hl; try discriminate Hl.
    discriminate Hc.
Qed.

(** X22.  A record of the TMDB adapter lists at most twenty cast
    members: the first twenty of the payload, in order and under their
    names. *)
Theorem tmdb_cast_is_capped (rt : Runtime) (payload : JsVal) (r : Object) :
  TMDBApi.normalizeMovieData rt payload = Ok (Some r) ->
  exists cast,
    get r "cast" = JArr cast /\
    (List.length cast <= 20)%nat /\
    forall l, getPropOpt (getPropOpt payload "credits") "cast" = JArr l ->
              List.length cast = Nat.min 20 (List.length l) /\
              map name_of cast = map name_of (firstn 20 l).
Proof.
  unfold TMDBApi.normalizeMovieData. intros H.
  returned_with H; try discriminate H.
  injection H as <-. eexists. split; [reflexivity|].
  eapply tmdb_parse_cast_capped; eassumption.
Qed.

Lemma tmdb_cast_is_capped_witness :
  exists cast,
    get (record_of (TMDBApi.normalizeMovieData sample_rt tmdb_payload)) "cast"
    = JArr cast /\
    (List.length cast <= 20)%nat.
Proof.
  destruct (tmdb_cast_is_capped sample_rt tmdb_payload
              (record_of (TMDBApi.normalizeMovieData sample_rt tmdb_payload))
              eq_refl) as (cast & Hc & Hlen & _).
  exists cast. split; [exact Hc|exact Hlen].
Defined.

Lemma get_copy_if_other (filters : Object) (k k' : string) (params : Object)
      (key : string) :
  k' <> key -> get (TMDBApi.copy_if filters k k' params) key = get params key.
Proof.
  intros Hne. unfold TMDBApi.copy_if.
  destruct (truthy (get filters k)); [now apply get_set_other|reflexivity].
Qed.

Lemma copy_if_absent (filters : Object) (k k' : string) (params : Object) :
  get filters k = JUndefined -> TMDBApi.copy_if filters k k' params = params.
Proof. intros H. unfold TMDBApi.copy_if. now rewrite H. Qed.

Section DiscoveryQuery.
Context {S : Type}.

(** The filters that the orchestrator hands to the adapter hold nothing
    under the two keys that the adapter reads for the dates. *)
Lemma tmdb_filters_keys (api : TmdbOps S) (filters t : Object) (s s' : S) :
  tmdb_filters api filters s = (s', Ok t) ->
  get t "release_date_gte" = JUndefined /\
  get t "release_date_lte" = JUndefined.
Proof.
  unfold tmdb_filters. cbv zeta. intros H.
  apply bind_Ok_inv in H as (s1 & t1 & H1 & H).
  assert (Ht1 : get t1 "release_date_gte" = JUndefined /\
                get t1 "release_date_lte" = JUndefined).
  { destruct (truthy (get filters "country")).
    - apply bind_Ok_inv in H1 as (s2 & code & _ & H1).
      apply ret_inv in H1 as [_ ->].
      rewrite !get_set_other by discriminate.
      destruct (truthy (get filters "startDate")),
        (truthy (get filters "endDate")); split; reflexivity.
    - apply ret_inv in H1 as [_ ->].
      destruct (truthy (get filters "startDate")),
        (truthy (get filters "endDate")); split; reflexivity. }
  unfold with_genre in H.
  destruct (truthy (get filters "genre"));
    [|apply ret_inv in H as [_ ->]; exact Ht1].
  apply try_catch_Ok_inv in H as [H|(s2 & e & _ & H)];
    [|apply ret_inv in H as [_ ->]; exact Ht1].
  apply bind_Ok_inv in H as (s2 & genresResponse & _ & H).
  apply bind_Ok_inv in H as (s3 & genreMap & _ & H).
  apply bind_Ok_inv in H as (s4 & wanted & _ & H).
  apply ret_inv in H as [_ ->].
  destruct (truthy (genre_id genreMap wanted)); [|exact Ht1].
  rewrite !get_set_other by discriminate. exact Ht1.
Qed.

End DiscoveryQuery.

(** X23.  The query that a discovery sends for a page carries no date
    bound and no region: the orchestrator files the dates of the filters
    under [primary_release_date.gte] and [.lte] and the region under
    [region], and the adapter copies none of these keys into the
    parameters of the request. *)
Theorem discovery_query_has_no_dates {S E : Type} (api : TmdbOps S)
        (filters t : Object) (s s' : S) (net : Network E) (page : JsVal) :
  tmdb_filters api filters s = (s', Ok t) ->
  exists params,
    TMDBApi.discoverMovies net (set t "page" page)
    = TMDBApi.rateLimitedRequest net "/discover/movie" params /\
    forall k, In k unsent_parameters -> get params k = JUndefined.
Proof.
  intros H. apply tmdb_filters_keys in H as [Hgte Hlte].
  unfold TMDBApi.discoverMovies. cbv zeta.
  eexists. split; [reflexivity|].
  rewrite (copy_if_absent (set t "page" page) "release_date_gte")
    by (rewrite get_set_other by discriminate; exact Hgte).
  rewrite (copy_if_absent (set t "page" page) "release_date_lte")
    by (rewrite get_set_other by discriminate; exact Hlte).
  intros k Hk. simpl in Hk.
  destruct Hk as [<-|[<-|[<-|[<-|[<-|[]]]]]];
    rewrite !get_copy_if_other by discriminate; reflexivity.
Qed.

Lemma discovery_query_has_no_dates_witness :
  exists params,
    TMDBApi.discoverMovies (network empty_pages)
      (set [("primary_release_date.gte", JStr "2020-01-01")] "page"
           (num_of_Z 1))
    = TMDBApi.rateLimitedRequest (network empty_pages) "/discover/movie"
                                 params /\
    forall k, In k unsent_parameters -> get params k = JUndefined.
Proof.
  apply (discovery_query_has_no_dates
           (tmdb_ops sample_rt (network empty_pages)) since_2020
           [("primary_release_date.gte", JStr "2020-01-01")]
           (mkState (OMDBApi.new JNull None) (TMDBApi.new (JStr "k") None)
                    (IMDBApi.new None None) (mkWorld 1000000 []))
           (mkState (OMDBApi.new JNull None) (TMDBApi.new (JStr "k") None)
                    (IMDBApi.new None None) (mkWorld 1000000 []))
           (network empty_pages) (num_of_Z 1)).
  reflexivity.
Defined.

(** ** Rate limiting, method by method *)

Section Throttled.
Context {E : Type}.
Variable rt : Runtime.
Variable net : Network E.

Hypothesis timer_not_early :
  forall (ms : Q) (e : E), clock net e + ms <= clock net (timer net ms e).






Lemma direct_still {A} (m : M (Adapter * (list Sent * E)) A) :
  still m -> direct net m.
Proof.
  intros Hm this log e. cbv zeta. rewrite Hm. cbn [fst snd]. auto.
Qed.


















End Throttled.



(** ** The IMDB adapter *)

Section ImdbLookups.
Context {E : Type}.
Variable rt : Runtime.
Variable net : Network E.
Variables code message : string.

Hypothesis rejected :
  forall url config e0,
    snd (axios_get net url config e0) = Rejected code message.

Lemma imdb_request_rejected (endpoint : string) (params : Object)
      (s : Adapter * E) :
  exists err,
    snd (IMDBApi.rateLimitedRequest rt net endpoint params s) = Throw err.
Proof.
  destruct (imdb_request_outcome rt net endpoint params s)
    as [H|(url & config & e0 & data & Hsrv & _)]; [exact H|].
  rewrite rejected in Hsrv. discriminate.
Qed.

Lemma fallback_when_thrown {A} (m : M (Adapter * E) A) (fallback : A)
      (s : Adapter * E) :
  (exists err, snd (m s) = Throw err) ->
  snd (try_catch m (fun _ => ret fallback) s) = Ok fallback.
Proof.
  intros [err H]. unfold try_catch.
  destruct (m s) as [s1 [a|e]]; simpl in H; [discriminate|reflexivity].
Qed.

Lemma imdb_list_falls_back (params : Object) (s : Adapter * E) :
  snd (try_catch (IMDBApi.rateLimitedRequest rt net "/titles" params)
                 (fun _ => ret IMDBApi.no_titles) s)
  = Ok IMDBApi.no_titles.
Proof.
  apply fallback_when_thrown. apply imdb_request_rejected.
Qed.

Lemma imdb_lookup_falls_back (p dir suffix : string) (id fallback : JsVal)
      (s : Adapter * E) :
  snd (IMDBApi.lookup rt net p dir suffix id fallback s) = Ok fallback.
Proof.
  unfold IMDBApi.lookup. apply fallback_when_thrown.
  unfold bind, lift. destruct (IMDBApi.prefixed p id) as [cleanId|err].
  - apply imdb_request_rejected.
  - eexists. reflexivity.
Qed.

Lemma imdb_batch_falls_back (imdbIds : JsVal) (s : Adapter * E) :
  snd (IMDBApi.batchGetTitles rt net imdbIds s) = Ok IMDBApi.no_titles.
Proof.
  unfold IMDBApi.batchGetTitles. apply fallback_when_thrown.
  unfold bind, lift. destruct (IMDBApi.batch_ids imdbIds) as [titleIds|err].
  - apply imdb_request_rejected.
  - eexists. reflexivity.
Qed.

End ImdbLookups.

(** X25.  When the server cannot be reached, no lookup of the IMDB
    adapter throws; each returns the empty answer of its kind: no
    titles for a search, a list or a batch, no cast and no crew for
    credits, [null] for ratings and for a person, and so on. *)
Theorem imdb_lookups_fall_back {E : Type} (rt : Runtime) (net : Network E)
        (code message : string) :
  (forall url config e0,
      snd (axios_get net url config e0) = Rejected code message) ->
  forall (s : Adapter * E) (id query : JsVal) (filters : Object),
    snd (IMDBApi.searchTitles rt net query filters s) = Ok IMDBApi.no_titles /\
    snd (IMDBApi.listTitles rt net filters s) = Ok IMDBApi.no_titles /\
    snd (IMDBApi.advancedTitleSearch rt net filters s)
    = Ok IMDBApi.no_titles /\
    snd (IMDBApi.batchGetTitles rt net id s) = Ok IMDBApi.no_titles /\
    snd (IMDBApi.getTitleCredits rt net id s)
    = Ok (JObj [("cast", JArr []); ("crew", JArr [])]) /\
    snd (IMDBApi.getTitleReleaseDates rt net id s)
    = Ok (JObj [("releaseDates", JArr [])]) /\
    snd (IMDBApi.getTitleRatings rt net id s) = Ok JNull /\
    snd (IMDBApi.getTitleVideos rt net id s)
    = Ok (JObj [("videos", JArr [])]) /\
    snd (IMDBApi.getTitleImages rt net id s)
    = Ok (JObj [("images", JArr [])]) /\
    snd (IMDBApi.getPersonDetails rt net id s) = Ok JNull /\
    snd (IMDBApi.getPersonCredits rt net id s) = Ok IMDBApi.no_titles.
Proof.
  intros Hrej s id query filters.
  repeat split;
    first [ apply (imdb_list_falls_back rt net code message Hrej)
          | apply (imdb_batch_falls_back rt net code message Hrej)
          | apply (imdb_lookup_falls_back rt net code message Hrej) ].
Qed.

Lemma imdb_lookups_fall_back_witness :
  snd (IMDBApi.getTitleRatings sample_rt (network refused) (JStr "tt0000001")
         (IMDBApi.new None None, mkWorld 1000000 []))
  = Ok JNull.
Proof.
  apply (imdb_lookups_fall_back sample_rt (network refused) "ECONNREFUSED"
           "connect ECONNREFUSED");
    [ intros url config e0; reflexivity
    | exact JNull
    | exact [] ].
Defined.

Lemma startsWith_with_tt (id : string) : startsWith (with_tt id) "tt" = true.
Proof.
  unfold with_tt. destruct (startsWith id "tt") eqn:H; [exact H|].
  unfold startsWith. cbn. now destruct id.
Qed.

Lemma prefixed_tt (l : list JsVal) :
  forall out,
    emapM (IMDBApi.prefixed "tt") l = Ok out ->
    List.length out = List.length l /\
    Forall (fun id => startsWith id "tt" = true) out /\
    forall ids, l = map JStr ids -> out = map with_tt ids.
Proof.
  induction l as [|v l IH]; intros out H.
  - simpl in H. injection H as <-. repeat split; [constructor|].
    intros ids Hids. now destruct ids.
  - cbn [emapM] in H.
    destruct v as [| |b|n|id|a|o]; try discriminate H.
    cbn [IMDBApi.prefixed ebind] in H.
    destruct (emapM (IMDBApi.prefixed "tt") l) as [rest|]; cbn [ebind] in H;
      [|discriminate].
    injection H as <-. destruct (IH rest eq_refl) as (Hlen & Hall & Hmap).
    split; [simpl; now rewrite Hlen|]. split.
    + constructor; [apply startsWith_with_tt|exact Hall].
    + intros ids Hids. destruct ids as [|id' ids]; [discriminate|].
      injection Hids as -> Hids. cbn [map]. now rewrite (Hmap ids Hids).
Qed.

Lemma batch_ids_spec (imdbIds : JsVal) (titleIds : list string) :
  IMDBApi.batch_ids imdbIds = Ok titleIds ->
  (List.length titleIds <= 5)%nat /\
  Forall (fun id => startsWith id "tt" = true) titleIds /\
  forall ids, imdbIds = JArr (map JStr ids) ->
              titleIds = map with_tt (firstn 5 ids).
Proof.
  unfold IMDBApi.batch_ids.
  destruct imdbIds as [| |b|n|s|l|o]; try discriminate.
  intros H. apply prefixed_tt in H as (Hlen & Hall & Hmap).
  split; [rewrite Hlen, length_firstn; lia|]. split; [exact Hall|].
  intros ids Hids. injection Hids as ->. apply Hmap.
  apply firstn_map.
Qed.

Lemma batch_ids_of_strings (ids : list string) :
  IMDBApi.batch_ids (JArr (map JStr ids))
  = Ok (map with_tt (firstn 5 ids)).
Proof.
  unfold IMDBApi.batch_ids. rewrite firstn_map.
  induction (firstn 5 ids) as [|id l IH]; [reflexivity|].
  cbn [map emapM IMDBApi.prefixed ebind]. rewrite IH. reflexivity.
Qed.

Section ImdbRequests.
Context {E : Type}.
Variable rt : Runtime.
Variable net : Network E.

(** What a request of the IMDB adapter leaves in the log: one request to
    the endpoint with the parameters given, unless the key of the
    adapter cannot be printed. *)
Lemma imdb_request_log (endpoint : string) (params : Object)
      (this : Adapter) (log : list Sent) (e : E) :
  printable (apiKey this) ->
  exists request,
    fst (snd (fst (IMDBApi.rateLimitedRequest rt (logged net) endpoint params
                     (this, (log, e)))))
    = log ++ [request] /\
    sent_url request = (baseUrl this ++ endpoint)%string /\
    get (sent_config request) "params" = JObj params.
Proof.
  unfold IMDBApi.rateLimitedRequest, bind, try_catch, throttle, sleep,
    this_apiKey, this_baseUrl, gets, template, convert, lift, ret, http_get,
    printable.
  cbn [logged clock timer axios_get fst snd apiKey baseUrl
       set_lastRequestTime].
  intros Hkey. rewrite Hkey.
  destruct (Qlt_bool (clock net e - lastRequestTime this)
                     (rateLimitDelay this));
    cbn [fst snd apiKey baseUrl set_lastRequestTime];
    destruct (truthy (apiKey this)); cbn [ebind fst snd];
    match goal with
    | |- context [axios_get net ?u ?c ?w] =>
        destruct (axios_get net u c w) as [e' [data|code message]]
    end; cbn [fst snd]; eexists; (split; [reflexivity|]);
      split; reflexivity.
Qed.

Lemma log_or_else {A} (m : M (Adapter * (list Sent * E)) A) (fallback : A)
      (s : Adapter * (list Sent * E)) :
  fst (try_catch m (fun _ => ret fallback) s) = fst (m s).
Proof. unfold try_catch, ret. now destruct (m s) as [s1 [a|err]]. Qed.

End ImdbRequests.

(** X26.  [batchGetTitles] of the IMDB adapter, given an array of ids,
    sends one request, to [/titles:batchGet], that asks for at most five
    titles, each under an id that starts with [tt]: the first five ids
    it was given; the others, if any, are not asked for.  (The key of
    the adapter is taken to be one that can be printed.) *)
Theorem imdb_batch_asks_for_five {E : Type} (rt : Runtime) (net : Network E)
        (ids : list string) (this : Adapter) (log : list Sent) (e : E) :
  printable (apiKey this) ->
  exists request,
    fst (snd (fst (IMDBApi.batchGetTitles rt (logged net)
                     (JArr (map JStr ids)) (this, (log, e)))))
    = log ++ [request] /\
    sent_url request = (baseUrl this ++ "/titles:batchGet")%string /\
    getPropOpt (get (sent_config request) "params") "titleIds"
    = JArr (map JStr (map with_tt (firstn 5 ids))) /\
    (List.length (firstn 5 ids) <= 5)%nat /\
    Forall (fun id => startsWith id "tt" = true)
           (map with_tt (firstn 5 ids)).
Proof.
  intros Hkey. unfold IMDBApi.batchGetTitles. rewrite log_or_else.
  unfold bind at 1, lift. rewrite batch_ids_of_strings.
  destruct (imdb_request_log rt net "/titles:batchGet"
              [("titleIds", JArr (map JStr (map with_tt (firstn 5 ids))))]
              this log e Hkey)
    as (request & Hlog & Hurl & Hparams).
  exists request. split; [exact Hlog|]. split; [exact Hurl|].
  split; [now rewrite Hparams|].
  destruct (batch_ids_spec _ _ (batch_ids_of_strings ids))
    as (Hlen & Hall & _).
  split; [|exact Hall]. now rewrite length_map in Hlen.
Qed.

Lemma imdb_batch_asks_for_five_witness :
  map (fun request =>
         getPropOpt (get (sent_config request) "params") "titleIds")
      (fst (snd (fst (IMDBApi.batchGetTitles sample_rt
                        (logged (network ida_server))
                        (JArr (map JStr six_ids))
                        (IMDBApi.new None None, ([], mkWorld 1000000 []))))))
  = [JArr [JStr "tt0000001"; JStr "tt0000002"; JStr "tt0000003";
           JStr "tt0000004"; JStr "tt0000005"]].
Proof.
  destruct (imdb_batch_asks_for_five sample_rt (network ida_server) six_ids
              (IMDBApi.new None None) [] (mkWorld 1000000 []) eq_refl)
    as (request & Hlog & _ & Hids & _).
  rewrite Hlog. cbn [app map]. now rewrite Hids.
Defined.

Lemma get_rename_if_same (filters : Object) (k k' : string) (params : Object) :
  truthy (get filters k) = true ->
  get (IMDBApi.rename_if filters k k' params) k' = get filters k.
Proof.
  intros H. unfold IMDBApi.rename_if. rewrite H. apply get_set_same.
Qed.

Lemma get_rename_if_other (filters : Object) (k k' : string) (params : Object)
      (key : string) :
  k' <> key -> get (IMDBApi.rename_if filters k k' params) key = get params key.
Proof.
  intros Hne. unfold IMDBApi.rename_if.
  destruct (truthy (get filters k)); [now apply get_set_other|reflexivity].
Qed.

Lemma get_list_if_same (filters : Object) (k k' : string) (params : Object) :
  truthy (get filters k) = true ->
  get (IMDBApi.list_if filters k k' params) k'
  = if isArray (get filters k) then get filters k else JArr [get filters k].
Proof.
  intros H. unfold IMDBApi.list_if. cbv zeta. rewrite H. apply get_set_same.
Qed.

Lemma get_list_if_other (filters : Object) (k k' : string) (params : Object)
      (key : string) :
  k' <> key -> get (IMDBApi.list_if filters k k' params) key = get params key.
Proof.
  intros Hne. unfold IMDBApi.list_if. cbv zeta.
  destruct (truthy (get filters k)); [now apply get_set_other|reflexivity].
Qed.

Ltac advanced_get H :=
  unfold IMDBApi.advanced_params; cbv zeta;
  rewrite ?get_list_if_other by discriminate;
  rewrite ?get_rename_if_other by discriminate;
  first [ rewrite (get_list_if_same _ _ _ _ H)
        | rewrite (get_rename_if_same _ _ _ _ H) ];
  reflexivity.

Lemma advanced_params_spec (filters : Object) :
  (forall k k',
      In (k, k') [("minRating", "minAggregateRating");
                  ("maxRating", "maxAggregateRating");
                  ("minVotes", "minVoteCount");
                  ("maxVotes", "maxVoteCount")] ->
      truthy (get filters k) = true ->
      get (IMDBApi.advanced_params filters) k' = get filters k) /\
  (forall k k',
      In (k, k') [("genres", "genres"); ("countries", "countryCodes");
                  ("languages", "languageCodes")] ->
      truthy (get filters k) = true ->
      isArray (get (IMDBApi.advanced_params filters) k') = true /\
      get (IMDBApi.advanced_params filters) k'
      = if isArray (get filters k) then get filters k
        else JArr [get filters k]).
Proof.
  split.
  - intros k k' Hk Ht. simpl in Hk.
    destruct Hk as [Hk|[Hk|[Hk|[Hk|[]]]]]; injection Hk as <- <-;
      advanced_get Ht.
  - intros k k' Hk Ht.
    assert (Hget : get (IMDBApi.advanced_params filters) k'
                   = if isArray (get filters k) then get filters k
                     else JArr [get filters k]).
    { simpl in Hk.
      destruct Hk as [Hk|[Hk|[Hk|[]]]]; injection Hk as <- <-;
        advanced_get Ht. }
    split; [|exact Hget]. rewrite Hget.
    destruct (isArray (get filters k)) eqn:Ha; [exact Ha|reflexivity].
Qed.

(** X27.  [advancedTitleSearch] sends one request, to [/titles], and in
    its query a truthy rating or vote bound of the filters goes out
    under the name that the service uses, and a truthy [genres],
    [countries] or [languages] goes out as an array, a single value
    wrapped in one.  (The key of the adapter is taken to be one that can
    be printed.) *)
Theorem imdb_advanced_query {E : Type} (rt : Runtime) (net : Network E)
        (filters : Object) (this : Adapter) (log : list Sent) (e : E) :
  printable (apiKey this) ->
  exists request params,
    fst (snd (fst (IMDBApi.advancedTitleSearch rt (logged net) filters
                     (this, (log, e)))))
    = log ++ [request] /\
    sent_url request = (baseUrl this ++ "/titles")%string /\
    get (sent_config request) "params" = JObj params /\
    (forall k k',
        In (k, k') [("minRating", "minAggregateRating");
                    ("maxRating", "maxAggregateRating");
                    ("minVotes", "minVoteCount");
                    ("maxVotes", "maxVoteCount")] ->
        truthy (get filters k) = true ->
        get params k' = get filters k) /\
    (forall k k',
        In (k, k') [("genres", "genres"); ("countries", "countryCodes");
                    ("languages", "languageCodes")] ->
        truthy (get filters k) = true ->
        isArray (get params k') = true /\
        get params k'
        = if isArray (get filters k) then get filters k
          else JArr [get filters k]).
Proof.
  intros Hkey. unfold IMDBApi.advancedTitleSearch. rewrite log_or_else.
  destruct (imdb_request_log rt net "/titles"
              (IMDBApi.advanced_params filters) this log e Hkey)
    as (request & Hlog & Hurl & Hparams).
  exists request, (IMDBApi.advanced_params filters).
  split; [exact Hlog|]. split; [exact Hurl|]. split; [exact Hparams|].
  apply advanced_params_spec.
Qed.

Section ImdbRuntime.
Variable rt : Runtime.


End ImdbRuntime.



Lemma imdb_advanced_query_witness :
  map (fun request =>
         (getPropOpt (get (sent_config request) "params") "genres",
          getPropOpt (get (sent_config request) "params")
                     "minAggregateRating"))
      (fst (snd (fst (IMDBApi.advancedTitleSearch sample_rt
                        (logged (network ida_server)) one_genre
                        (IMDBApi.new None None, ([], mkWorld 1000000 []))))))
  = [(JArr [JStr "Drama"], num_of_Z 7)].
Proof.
  destruct (imdb_advanced_query sample_rt (network ida_server) one_genre
              (IMDBApi.new None None) [] (mkWorld 1000000 []) eq_refl)
    as (request & params & Hlog & _ & Hparams & Hrename & Hlist).
  rewrite Hlog. cbn [app map]. rewrite Hparams. cbn [getPropOpt].
  destruct (Hlist "genres" "genres") as [_ Hgenres];
    [simpl; auto | reflexivity |].
  rewrite Hgenres.
  rewrite (Hrename "minRating" "minAggregateRating");
    [reflexivity | simpl; auto | reflexivity].
Defined.

Lemma cleaning_is_field_by_field_witness :
  get (clean_record sample_rt raw_record) "imdb_id" = JStr "tt2718492" /\
  get (clean_record sample_rt raw_record) "title" = JStr "Ida".
Proof.
  destruct (cleaning_is_field_by_field sample_rt raw_record) as [Hfield Hkeep].
  split.
  - rewrite (Hkeep "imdb_id"); reflexivity.
  - rewrite (Hfield "title"). reflexivity.
Defined.



(** ** The check of the configuration and the constructor *)




(** ** The rows of the CSV table *)





Section CsvRows.
Variable rt : Runtime.














End CsvRows.


